(** * kloppy deserializers: a shallow embedding

    The three tracking readers of the repository
    ([tracab_dat.py], [sportec/deserializer.py], [pff.py]) and the event
    reader of the v3 feed ([wyscout/deserializer_v3.py]) are embedded as
    Rocq functions.  Python exceptions are values of [exn]; a computation
    that may raise returns [result A].  Generators are lists of yielded
    items that end at the first raised exception; the consuming loop stops
    reading at a [break], so whatever the generator would have done after
    that point is never observed.

    Numbers: Python floats are modelled by the rationals they denote
    ([Q]); a [timedelta] is a number of seconds that is a multiple of one
    microsecond. *)

From Stdlib Require Import List String Ascii ZArith QArith Qround Lia Lqa Bool.
From Stdlib Require Import DecimalString.
Import ListNotations.

Open Scope string_scope.
Open Scope Z_scope.

(** ** Python runtime helpers *)

Module Py.

Inductive exn : Type :=
| ValueError (msg : string)
| KeyError (key : string)
| IndexError
| TypeError
| ZeroDivisionError
| UnicodeDecodeError
| UnboundLocalError (var : string)
| JSONDecodeError
| DeserializationError (msg : string).

Definition result (A : Type) : Type := (exn + A)%type.

Definition ok {A} (a : A) : result A := inr a.
Definition raise {A} (e : exn) : result A := inl e.

Definition bind {A B} (c : result A) (k : A -> result B) : result B :=
  match c with
  | inl e => inl e
  | inr a => k a
  end.

Definition is_ok {A} (c : result A) : bool :=
  match c with inr _ => true | inl _ => false end.

Definition of_option {A} (o : option A) (e : exn) : result A :=
  match o with Some a => ok a | None => raise e end.

(** *** Strings *)

Definition chr (n : nat) : ascii := ascii_of_nat n.

(** Whitespace of [bytes.strip()]. *)
Definition bytes_isspace (c : ascii) : bool :=
  let n := nat_of_ascii c in
  ((9 <=? n) && (n <=? 13))%nat || (n =? 32)%nat.

(** Whitespace of [str.strip()] on ASCII text. *)
Definition str_isspace (c : ascii) : bool :=
  let n := nat_of_ascii c in
  bytes_isspace c || ((28 <=? n) && (n <=? 31))%nat.

Fixpoint lstrip (sp : ascii -> bool) (s : string) : string :=
  match s with
  | EmptyString => EmptyString
  | String c r => if sp c then lstrip sp r else s
  end.

Fixpoint rstrip (sp : ascii -> bool) (s : string) : string :=
  match s with
  | EmptyString => EmptyString
  | String c r =>
      match rstrip sp r with
      | EmptyString => if sp c then EmptyString else String c EmptyString
      | r' => String c r'
      end
  end.

Definition strip (sp : ascii -> bool) (s : string) : string :=
  rstrip sp (lstrip sp s).

(** [s.split(sep)] for a one-character separator: never an empty list. *)
Fixpoint split (sep : ascii) (s : string) : list string :=
  match s with
  | EmptyString => [EmptyString]
  | String c r =>
      if Ascii.eqb c sep then EmptyString :: split sep r
      else match split sep r with
           | [] => [String c EmptyString]
           | h :: t => String c h :: t
           end
  end.

(** [s.split(sep, 1)[0]]: the text before the first separator. *)
Fixpoint before_first (sep : ascii) (s : string) : string :=
  match s with
  | EmptyString => EmptyString
  | String c r => if Ascii.eqb c sep then EmptyString
                  else String c (before_first sep r)
  end.

(** [s[:n]]. *)
Definition prefix_slice (n : nat) (s : string) : string := substring 0 n s.

(** [s.endswith(suffix)]. *)
Definition endswith (suffix s : string) : bool :=
  let ls := String.length s in
  let lx := String.length suffix in
  (lx <=? ls)%nat && String.eqb (substring (ls - lx) lx s) suffix.

(** [all(b < 128 for b in s)], the condition of [bytes.decode("ascii")]. *)
Fixpoint is_ascii (s : string) : bool :=
  match s with
  | EmptyString => true
  | String c r => (nat_of_ascii c <? 128)%nat && is_ascii r
  end.

Definition decode_ascii (s : string) : result string :=
  if is_ascii s then ok s else raise UnicodeDecodeError.

(** *** int() *)

Definition digit_of (c : ascii) : option Z :=
  let n := nat_of_ascii c in
  if ((48 <=? n) && (n <=? 57))%nat then Some (Z.of_nat (n - 48)) else None.

(** Digits with single underscores between them, as [int()] accepts.
    [prev_digit] tells whether the previous character was a digit. *)
Fixpoint int_digits (acc : Z) (prev_digit : bool) (s : string) : option Z :=
  match s with
  | EmptyString => if prev_digit then Some acc else None
  | String c r =>
      match digit_of c with
      | Some d => int_digits (10 * acc + d) true r
      | None =>
          if Ascii.eqb c "_"%char && prev_digit then
            match r with
            | EmptyString => None
            | _ => int_digits acc false r
            end
          else None
      end
  end.

Definition int_unsigned (s : string) : option Z :=
  match s with
  | EmptyString => None
  | _ => int_digits 0 false s
  end.

(** [int(s)] on an ASCII string. *)
Definition py_int (s : string) : result Z :=
  let t := strip str_isspace s in
  let bad := ValueError ("invalid literal for int() with base 10: " ++ s) in
  match t with
  | String "-"%char r => bind (of_option (int_unsigned r) bad) (fun n => ok (- n))
  | String "+"%char r => of_option (int_unsigned r) bad
  | _ => of_option (int_unsigned t) bad
  end.

(** [str(n)] for an integer. *)
Definition py_str_int (n : Z) : string := NilEmpty.string_of_int (Z.to_int n).

(** *** Numbers *)

(** [n % m == 0] for an integer [n] and a non-zero float [m]: the float
    remainder is exact, so the test says that [n / m] is an integer. *)
Definition mod_is_zero (n : Z) (m : Q) : bool :=
  let q := (inject_Z n / m)%Q in
  Qeq_bool q (inject_Z (Qfloor q)).

(** Rounding to the nearest integer, ties to even, as [round()] and
    [timedelta] do. *)
Definition round_half_even (q : Q) : Z :=
  let f := Qfloor q in
  match (q - inject_Z f ?= 1 # 2)%Q with
  | Lt => f
  | Gt => f + 1
  | Eq => if Z.even f then f else f + 1
  end.

(** [timedelta(seconds=q)], in seconds. *)
Definition timedelta (q : Q) : Q :=
  (inject_Z (round_half_even (q * 1000000)) / 1000000)%Q.

(** [a / b] on numbers. *)
Definition true_div (a b : Q) : result Q :=
  if Qeq_bool b 0 then raise ZeroDivisionError else ok (a / b)%Q.

(** Truthiness of [self.limit]: [None] and [0] are false. *)
Definition truthy_limit (limit : option Z) : bool :=
  match limit with
  | Some l => negb (l =? 0)
  | None => false
  end.

Definition limit_value (limit : option Z) : Z :=
  match limit with Some l => l | None => 0 end.

End Py.

Export Py.

Notation "x <- c ;; k" := (Py.bind c (fun x => k))
  (at level 61, c at next level, right associativity).
Notation "' pat <- c ;; k" := (Py.bind c (fun x => match x with pat => k end))
  (at level 61, pat pattern, c at next level, right associativity).

(** ** Domain model ([kloppy.domain]) *)

Module Domain.

Inductive Ground := HOME | AWAY.

Definition Ground_eqb (a b : Ground) : bool :=
  match a, b with
  | HOME, HOME | AWAY, AWAY => true
  | _, _ => false
  end.

(** [str(ground)], as an f-string prints it. *)
Definition Ground_str (g : Ground) : string :=
  match g with HOME => "home" | AWAY => "away" end.

Inductive BallState := ALIVE | DEAD.

Inductive AttackingDirection := LTR | RTL | HOME_AWAY | AWAY_HOME | AD_NOT_SET.

Definition AttackingDirection_eqb (a b : AttackingDirection) : bool :=
  match a, b with
  | LTR, LTR | RTL, RTL | HOME_AWAY, HOME_AWAY | AWAY_HOME, AWAY_HOME
  | AD_NOT_SET, AD_NOT_SET => true
  | _, _ => false
  end.

Inductive Orientation :=
| O_HOME_AWAY | O_AWAY_HOME | FIXED_HOME_AWAY | FIXED_AWAY_HOME | NOT_SET.

(** A jersey number is an [int] in the text-line reader and the [str] of
    the roster file in the line-delimited reader; [==] between the two
    kinds is false. *)
Inductive Jersey := JInt (n : Z) | JStr (s : string).

Definition Jersey_eqb (a b : Jersey) : bool :=
  match a, b with
  | JInt x, JInt y => x =? y
  | JStr x, JStr y => String.eqb x y
  | _, _ => false
  end.

(** A reference to a [Team] object: the fields that never change.  The
    roster of the team lives in [Team]. *)
Record TeamRef := {
  team_id : string;
  team_name : string;
  ground : Ground;
}.

Record Player := {
  player_id : string;
  team : TeamRef;
  jersey_no : Jersey;
  player_name : option string;
}.

Record Team := {
  team_ref : TeamRef;
  players : list Player;
}.

Record Period := {
  id : Z;
  start_timestamp : Q;
  end_timestamp : Q;
}.

Record Point := { x : option Q; y : option Q }.
Record Point3D := { x3 : option Q; y3 : option Q; z3 : option Q }.

Record PlayerData := {
  coordinates : Point;
  speed : option Q;
}.

(** Modelled from the spec: the identity of a [Player] as a key of
    [players_data] (the class is not part of the sources at hand) is its
    [player_id]: "identity = team side + jersey number" for a synthesized
    player. *)
Definition Player_eqb (p q : Player) : bool :=
  String.eqb (player_id p) (player_id q).

(** [d[k] = v] on an insertion-ordered dict. *)
Fixpoint dict_set {K V} (eqb : K -> K -> bool) (d : list (K * V)) (k : K) (v : V)
  : list (K * V) :=
  match d with
  | [] => [(k, v)]
  | (k', v') :: r =>
      if eqb k' k then (k', v) :: r else (k', v') :: dict_set eqb r k v
  end.

Fixpoint dict_get {K V} (eqb : K -> K -> bool) (d : list (K * V)) (k : K)
  : option V :=
  match d with
  | [] => None
  | (k', v) :: r => if eqb k' k then Some v else dict_get eqb r k
  end.

Record Frame := {
  frame_id : Z;
  timestamp : Q;
  ball_coordinates : Point3D;
  ball_state : option BallState;
  ball_owning_team : option TeamRef;
  players_data : list (Player * PlayerData);
  period : Period;
}.

Record Metadata := {
  teams : Team * Team;
  periods : list Period;
  frame_rate : Q;
  orientation : Orientation;
}.

Record TrackingDataset := {
  records : list Frame;
  metadata : Metadata;
}.

(** Modelled from the spec: [Team.get_player_by_jersey_number] is not part
    of the sources at hand; "player resolution is by jersey number within
    the acting team's current roster".  The argument is the text of the
    jersey field. *)
Definition get_player_by_jersey_number (t : Team) (jersey : string)
  : result (option Player) :=
  n <- py_int jersey ;;
  ok (find (fun p => Jersey_eqb (jersey_no p) (JInt n)) (players t)).

(** The services the readers consume from outside: [float()] on text, the
    coordinate transformer and the attacking-direction primitive. *)
Class Collaborators := {
  py_float : string -> result Q;
  transform_frame : Frame -> Frame;
  attacking_direction_from_frame : Frame -> result AttackingDirection;
}.

(** Configuration held by every deserializer object. *)
Record Config := {
  limit : option Z;
  sample_rate : Q;
  only_alive : bool;
}.

(** [sample = 1.0 / self.sample_rate]. *)
Definition sample_of (cfg : Config) : result Q := true_div 1 (sample_rate cfg).

End Domain.

Export Domain.

(** A generator run to exhaustion: the items it yields, then either a
    normal end or the exception that ended it. *)
Record gen (A : Type) := {
  yields : list A;
  raised : option exn;
}.
Arguments yields {A} _.
Arguments raised {A} _.

(** ** The delimited text-line reader ([tracab_dat.py]) *)

Module Tracab.

Definition Teams : Type := (Team * Team)%type.

(** [teams[0]] is the home side, [teams[1]] the away side. *)
Definition get_team (teams : Teams) (g : Ground) : Team :=
  match g with HOME => fst teams | AWAY => snd teams end.

Definition set_team (teams : Teams) (g : Ground) (t : Team) : Teams :=
  match g with HOME => (t, snd teams) | AWAY => (fst teams, t) end.

(** What the [if team_id == 1 ... else raise] chain decides for a player
    record. *)
Inductive team_choice := Pick (g : Ground) | Skip.

Definition choose_team (team_id : Z) : result team_choice :=
  if team_id =? 1 then ok (Pick HOME)
  else if team_id =? 0 then ok (Pick AWAY)
  else if (team_id =? -1) || (team_id =? 3) || (team_id =? 4) then ok Skip
  else raise (DeserializationError
                ("Unknown Player Team ID: " ++ py_str_int team_id)).

(** [team.get_player_by_jersey_number(jersey_no)], and when nothing is
    found the synthesis of a placeholder that is appended to the roster. *)
Definition resolve_player (t : Team) (jersey : string)
  : result (Player * Team) :=
  found <- get_player_by_jersey_number t jersey ;;
  match found with
  | Some p => ok (p, t)
  | None =>
      n <- py_int jersey ;;
      let p := {| player_id := Ground_str (ground (team_ref t)) ++ "_" ++ jersey;
                  team := team_ref t;
                  jersey_no := JInt n;
                  player_name := None |} in
      ok (p, {| team_ref := team_ref t; players := (players t ++ [p])%list |})
  end.

Definition unpack_error : exn := ValueError "wrong number of values to unpack".

Section WithCollaborators.
Context `{Collaborators}.

(** One turn of [for player_data in players.split(";")[:-1]]. *)
Definition player_step (st : Teams * list (Player * PlayerData))
  (player_data : string) : result (Teams * list (Player * PlayerData)) :=
  let '(teams, players_data) := st in
  match split "," player_data with
  | [team_id; target_id; jersey; px; py; pspeed] =>
      team_id <- py_int team_id ;;
      choice <- choose_team team_id ;;
      match choice with
      | Skip => ok st
      | Pick g =>
          ' (player, t') <- resolve_player (get_team teams g) jersey ;;
          fx <- py_float px ;;
          fy <- py_float py ;;
          fs <- py_float pspeed ;;
          let pd := {| coordinates := {| x := Some fx; y := Some fy |};
                       speed := Some fs |} in
          ok (set_team teams g t', dict_set Player_eqb players_data player pd)
      end
  | _ => raise unpack_error
  end.

Fixpoint players_loop (st : Teams * list (Player * PlayerData))
  (recs : list string) : result (Teams * list (Player * PlayerData)) :=
  match recs with
  | [] => ok st
  | r :: rest => st' <- player_step st r ;; players_loop st' rest
  end.

Definition owning_team_of (teams : Teams) (code : string) : result TeamRef :=
  if String.eqb code "H" then ok (team_ref (fst teams))
  else if String.eqb code "A" then ok (team_ref (snd teams))
  else raise (DeserializationError ("Unknown ball owning team: " ++ code)).

Definition ball_state_of (code : string) : result BallState :=
  if String.eqb code "Alive" then ok ALIVE
  else if String.eqb code "Dead" then ok DEAD
  else raise (DeserializationError ("Unknown ball state: " ++ code)).

(** [_frame_from_line]; the rosters in [teams] may grow, so the new teams
    are returned with the frame. *)
Definition _frame_from_line (teams : Teams) (period_ : Period) (line : string)
  (frame_rate_ : Q) : result (Frame * Teams) :=
  match firstn 3 (split ":" (strip str_isspace line)) with
  | [fid; players_; ball] =>
      ' (teams', players_data_) <-
         players_loop (teams, []) (removelast (split ";" players_)) ;;
      match firstn 6 (split "," (rstrip (Ascii.eqb ";") ball)) with
      | [ball_x; ball_y; ball_z; ball_speed; owner; state] =>
          fid <- py_int fid ;;
          owner <- owning_team_of teams' owner ;;
          state <- ball_state_of state ;;
          t <- true_div (inject_Z fid) frame_rate_ ;;
          bx <- py_float ball_x ;;
          by_ <- py_float ball_y ;;
          bz <- py_float ball_z ;;
          ok ({| frame_id := fid;
                 timestamp := (timedelta t - start_timestamp period_)%Q;
                 ball_coordinates :=
                   {| x3 := Some bx; y3 := Some by_; z3 := Some bz |};
                 ball_state := Some state;
                 ball_owning_team := Some owner;
                 players_data := players_data_;
                 period := period_ |}, teams')
      | _ => raise unpack_error
      end
  | _ => raise unpack_error
  end.

(** The parsed metadata file ([load_meta_data]) and the raw lines. *)
Record TRACABInputs := {
  meta_teams : Teams;
  meta_periods : list Period;
  meta_frame_rate : Q;
  raw_data : list string;
}.

(** [start <= timedelta(seconds=frame_id / frame_rate) <= end]. *)
Definition in_period (p : Period) (t : Q) : bool :=
  Qle_bool (start_timestamp p) (timedelta t)
  && Qle_bool (timedelta t) (end_timestamp p).

(** [for period_ in periods] inside [_iter], for one line: the pairs
    yielded and the counter afterwards, or the exception raised. *)
Fixpoint period_loop (sample : Q) (frame_rate_ : Q) (fid : Z) (line : string)
  (ps : list Period) (n : Z) : list (Period * string) * result Z :=
  match ps with
  | [] => ([], ok n)
  | p :: rest =>
      match true_div (inject_Z fid) frame_rate_ with
      | inl e => ([], raise e)
      | inr t =>
          if in_period p t then
            let '(ys, r) := period_loop sample frame_rate_ fid line rest (n + 1) in
            (if mod_is_zero n sample then (p, line) :: ys else ys, r)
          else period_loop sample frame_rate_ fid line rest n
      end
  end.

(** The filters a raw line passes before the period loop. *)
Inductive line_class :=
| Blank
| Filtered
| Eligible (line : string) (fid : Z)
| Broken (e : exn).

Definition classify (cfg : Config) (raw : string) : line_class :=
  match decode_ascii (strip bytes_isspace raw) with
  | inl e => Broken e
  | inr line =>
      if String.eqb line "" then Blank
      else match py_int (before_first ":" (prefix_slice 10 line)) with
           | inl e => Broken e
           | inr fid =>
               if only_alive cfg && negb (endswith "Alive;:" line)
               then Filtered else Eligible line fid
           end
  end.

(** [for line_ in inputs.raw_data.readlines()] inside [_iter]. *)
Fixpoint lines_loop (cfg : Config) (sample : Q) (ps : list Period)
  (frame_rate_ : Q) (lines : list string) (n : Z) : gen (Period * string) :=
  match lines with
  | [] => {| yields := []; raised := None |}
  | raw :: rest =>
      match classify cfg raw with
      | Broken e => {| yields := []; raised := Some e |}
      | Blank | Filtered => lines_loop cfg sample ps frame_rate_ rest n
      | Eligible line fid =>
          match period_loop sample frame_rate_ fid line ps n with
          | (ys, inl e) => {| yields := ys; raised := Some e |}
          | (ys, inr n') =>
              let g := lines_loop cfg sample ps frame_rate_ rest n' in
              {| yields := (ys ++ yields g)%list; raised := raised g |}
          end
      end
  end.

Definition _iter (cfg : Config) (inputs : TRACABInputs) : gen (Period * string) :=
  match sample_of cfg with
  | inl e => {| yields := []; raised := Some e |}
  | inr sample =>
      lines_loop cfg sample (meta_periods inputs) (meta_frame_rate inputs)
        (raw_data inputs) 0
  end.

(** [for n, (period, line) in enumerate(_iter())]: [n] is the index of
    the item in hand. *)
Fixpoint frames_loop (cfg : Config) (frame_rate_ : Q)
  (items : list (Period * string)) (end_ : option exn) (n : Z)
  (teams : Teams) (frames : list Frame) : result (list Frame * Teams) :=
  match items with
  | [] => match end_ with
          | Some e => raise e
          | None => ok (frames, teams)
          end
  | (period_, line) :: rest =>
      ' (frame, teams') <- _frame_from_line teams period_ line frame_rate_ ;;
      let frame := transform_frame frame in
      let frames := (frames ++ [frame])%list in
      if truthy_limit (limit cfg) && (limit_value (limit cfg) <=? n)
      then ok (frames, teams')
      else frames_loop cfg frame_rate_ rest end_ (n + 1) teams' frames
  end.

(** [next(frame for frame in frames if frame.period.id == 1)] and the
    orientation derived from it. *)
Definition orientation_of (frames : list Frame) : result Orientation :=
  match find (fun f => id (period f) =? 1) frames with
  | Some first_frame =>
      d <- attacking_direction_from_frame first_frame ;;
      ok (if AttackingDirection_eqb d LTR then O_HOME_AWAY else O_AWAY_HOME)
  | None => ok NOT_SET
  end.

Definition deserialize (cfg : Config) (inputs : TRACABInputs)
  : result TrackingDataset :=
  let g := _iter cfg inputs in
  ' (frames, teams') <-
     frames_loop cfg (meta_frame_rate inputs) (yields g) (raised g) 0
       (meta_teams inputs) [] ;;
  o <- orientation_of frames ;;
  ok {| records := frames;
        metadata := {| teams := teams';
                       periods := meta_periods inputs;
                       frame_rate := meta_frame_rate inputs;
                       orientation := o |} |}.

End WithCollaborators.

End Tracab.

(** ** The attribute-markup reader ([sportec/deserializer.py]) *)

Module Sportec.

(** A [Frame] element of the positions file.  The attributes every track
    carries are parsed numbers; the ball-only ones are optional, a missing
    one raising [KeyError] where it is read. *)
Record FrameNode := {
  attr_N : Z;
  attr_X : Q;
  attr_Y : Q;
  attr_S : Q;
  attr_Z : option Q;
  attr_BallPossession : option Z;
  attr_BallStatus : option Z;
}.

Record FrameSet := {
  GameSection : string;
  TeamId : string;
  PersonId : option string;
  frame_nodes : list FrameNode;
}.

Record ObjectData := {
  od_x : Q;
  od_y : Q;
  od_speed : Q;
  od_z : option Q;
  od_possession : option Z;
  od_state : option Z;
}.

Definition FrameData : Type := list (string * ObjectData).
Definition RawFrames : Type := list (Z * FrameData).

Definition PERIOD_ID_TO_GAME_SECTION (pid : Z) : result string :=
  if pid =? 1 then ok "firstHalf"
  else if pid =? 2 then ok "secondHalf"
  else if pid =? 3 then ok "firstHalfExtra"
  else if pid =? 4 then ok "secondHalfExtra"
  else raise (KeyError (py_str_int pid)).

Definition object_data_of (key : string) (fr : FrameNode) : result ObjectData :=
  if String.eqb key "ball" then
    z <- of_option (attr_Z fr) (KeyError "Z") ;;
    po <- of_option (attr_BallPossession fr) (KeyError "BallPossession") ;;
    st <- of_option (attr_BallStatus fr) (KeyError "BallStatus") ;;
    ok {| od_x := attr_X fr; od_y := attr_Y fr; od_speed := attr_S fr;
          od_z := Some z; od_possession := Some po; od_state := Some st |}
  else
    ok {| od_x := attr_X fr; od_y := attr_Y fr; od_speed := attr_S fr;
          od_z := None; od_possession := None; od_state := None |}.

(** [raw_frames[frame_id][key] = object_data] on a [defaultdict(dict)]. *)
Definition raw_frames_set (rf : RawFrames) (fid : Z) (key : string)
  (od : ObjectData) : RawFrames :=
  let inner := match dict_get Z.eqb rf fid with
               | Some d => d
               | None => []
               end in
  dict_set Z.eqb rf fid (dict_set String.eqb inner key od).

Fixpoint nodes_loop (key : string) (rf : RawFrames) (nodes : list FrameNode)
  : result RawFrames :=
  match nodes with
  | [] => ok rf
  | fr :: rest =>
      od <- object_data_of key fr ;;
      nodes_loop key (raw_frames_set rf (attr_N fr) key od) rest
  end.

Fixpoint frame_sets_loop (rf : RawFrames) (sets : list FrameSet)
  : result RawFrames :=
  match sets with
  | [] => ok rf
  | fs :: rest =>
      key <- (if String.eqb (TeamId fs) "BALL" then ok "ball"
              else of_option (PersonId fs) (KeyError "PersonId")) ;;
      rf' <- nodes_loop key rf (frame_nodes fs) ;;
      frame_sets_loop rf' rest
  end.

Definition _read_section_data (data_root : list FrameSet) (p : Period)
  : result RawFrames :=
  game_section <- PERIOD_ID_TO_GAME_SECTION (id p) ;;
  frame_sets_loop []
    (filter (fun fs => String.eqb (GameSection fs) game_section) data_root).

(** The parsed match-information file and the positions file. *)
Record SportecTrackingDataInputs := {
  meta_teams : Team * Team;
  meta_periods : list Period;
  meta_fps : Q;
  raw_data : list FrameSet;
}.

Definition player_map_of (teams_ : Team * Team) : list (string * Player) :=
  fold_left (fun m p => dict_set String.eqb m (player_id p) p)
            (players (fst teams_) ++ players (snd teams_))%list [].

(** The dict comprehension that builds [players_data]. *)
Fixpoint players_data_of (player_map : list (string * Player))
  (entries : FrameData) (acc : list (Player * PlayerData))
  : result (list (Player * PlayerData)) :=
  match entries with
  | [] => ok acc
  | (pid, raw) :: rest =>
      if String.eqb pid "ball" then players_data_of player_map rest acc
      else
        p <- of_option (dict_get String.eqb player_map pid) (KeyError pid) ;;
        players_data_of player_map rest
          (dict_set Player_eqb acc p
             {| coordinates := {| x := Some (od_x raw); y := Some (od_y raw) |};
                speed := Some (od_speed raw) |})
  end.

(** The [Frame(...)] expression of [_iter]. *)
Definition make_frame (teams_ : Team * Team) (fps : Q)
  (player_map : list (string * Player)) (p : Period) (fid : Z)
  (frame_data : FrameData) (ball_data : ObjectData) : result Frame :=
  t <- true_div (inject_Z fid) fps ;;
  po <- of_option (od_possession ball_data) (KeyError "possession") ;;
  st <- of_option (od_state ball_data) (KeyError "state") ;;
  pd <- players_data_of player_map frame_data [] ;;
  bz <- of_option (od_z ball_data) (KeyError "z") ;;
  ok {| frame_id := fid;
        timestamp := (t - start_timestamp p)%Q;
        ball_coordinates := {| x3 := Some (od_x ball_data);
                               y3 := Some (od_y ball_data);
                               z3 := Some bz |};
        ball_state := Some (if st =? 1 then ALIVE else DEAD);
        ball_owning_team :=
          Some (team_ref (if po =? 1 then fst teams_ else snd teams_));
        players_data := pd;
        period := p |}.

(** What the two [continue] tests decide for a raw frame. *)
Inductive tick_class :=
| NoBall
| NotAlive
| Eligible (ball_data : ObjectData)
| Broken (e : exn).

Definition classify (cfg : Config) (frame_data : FrameData) : tick_class :=
  match dict_get String.eqb frame_data "ball" with
  | None => NoBall
  | Some ball_data =>
      if only_alive cfg then
        match od_state ball_data with
        | None => Broken (KeyError "state")
        | Some st => if negb (st =? 1) then NotAlive else Eligible ball_data
        end
      else Eligible ball_data
  end.

(** [for i, (frame_id, frame_data) in enumerate(raw_frames.items())]. *)
Fixpoint ticks_loop (cfg : Config) (sample : Q) (teams_ : Team * Team)
  (fps : Q) (player_map : list (string * Player)) (p : Period)
  (ticks : RawFrames) (i : Z) : gen Frame :=
  match ticks with
  | [] => {| yields := []; raised := None |}
  | (fid, frame_data) :: rest =>
      let continue_ := ticks_loop cfg sample teams_ fps player_map p rest (i + 1) in
      match classify cfg frame_data with
      | Broken e => {| yields := []; raised := Some e |}
      | NoBall | NotAlive => continue_
      | Eligible ball_data =>
          if mod_is_zero i sample then
            match make_frame teams_ fps player_map p fid frame_data ball_data with
            | inl e => {| yields := []; raised := Some e |}
            | inr f => {| yields := f :: yields continue_;
                          raised := raised continue_ |}
            end
          else continue_
      end
  end.

(** [for period in periods] inside [_iter]. *)
Fixpoint periods_loop (cfg : Config) (sample : Q) (teams_ : Team * Team)
  (fps : Q) (player_map : list (string * Player)) (data_root : list FrameSet)
  (ps : list Period) : gen Frame :=
  match ps with
  | [] => {| yields := []; raised := None |}
  | p :: rest =>
      match _read_section_data data_root p with
      | inl e => {| yields := []; raised := Some e |}
      | inr raw_frames =>
          let g := ticks_loop cfg sample teams_ fps player_map p raw_frames 0 in
          match raised g with
          | Some e => g
          | None =>
              let g' := periods_loop cfg sample teams_ fps player_map
                          data_root rest in
              {| yields := (yields g ++ yields g')%list; raised := raised g' |}
          end
      end
  end.

Definition _iter (cfg : Config) (inputs : SportecTrackingDataInputs) : gen Frame :=
  match sample_of cfg with
  | inl e => {| yields := []; raised := Some e |}
  | inr sample =>
      periods_loop cfg sample (meta_teams inputs) (meta_fps inputs)
        (player_map_of (meta_teams inputs)) (raw_data inputs)
        (meta_periods inputs)
  end.

(** The attacking directions set on the period objects so far, by period
    id. *)
Definition Directions : Type := list (Z * AttackingDirection).

Section WithCollaborators.
Context `{Collaborators}.

(** [for n, frame in enumerate(_iter())]. *)
Fixpoint frames_loop (cfg : Config) (items : list Frame) (end_ : option exn)
  (n : Z) (dirs : Directions) (frames : list Frame)
  : result (list Frame * Directions) :=
  match items with
  | [] => match end_ with
          | Some e => raise e
          | None => ok (frames, dirs)
          end
  | frame :: rest =>
      let frame := transform_frame frame in
      let frames := (frames ++ [frame])%list in
      dirs' <- match dict_get Z.eqb dirs (id (period frame)) with
               | Some _ => ok dirs
               | None =>
                   d <- attacking_direction_from_frame frame ;;
                   ok (dict_set Z.eqb dirs (id (period frame)) d)
               end ;;
      if truthy_limit (limit cfg) && (limit_value (limit cfg) <=? n)
      then ok (frames, dirs')
      else frames_loop cfg rest end_ (n + 1) dirs' frames
  end.

(** The list [frames] the loop of [deserialize] has built when it ends. *)
Definition buffered_frames (cfg : Config) (inputs : SportecTrackingDataInputs)
  : result (list Frame * Directions) :=
  let g := _iter cfg inputs in
  frames_loop cfg (yields g) (raised g) 0 [] [].

Definition deserialize (cfg : Config) (inputs : SportecTrackingDataInputs)
  : result TrackingDataset :=
  ' (frames, dirs) <- buffered_frames cfg inputs ;;
  first_period <- of_option (hd_error (meta_periods inputs)) IndexError ;;
  let d := match dict_get Z.eqb dirs (id first_period) with
           | Some d => d
           | None => AD_NOT_SET
           end in
  ok {| records := [];
        metadata := {| teams := meta_teams inputs;
                       periods := meta_periods inputs;
                       frame_rate := meta_fps inputs;
                       orientation :=
                         if AttackingDirection_eqb d HOME_AWAY
                         then FIXED_HOME_AWAY else FIXED_AWAY_HOME |} |}.

End WithCollaborators.

End Sportec.

(** ** The compressed line-delimited reader ([pff.py]) *)

Module PFF.

(** One entry of [homePlayersSmoothed] / [awayPlayersSmoothed];
    [jerseyNum] holds [str(entry["jerseyNum"])]. *)
Record RawPlayer := {
  jerseyNum : string;
  rp_x : option Q;
  rp_y : option Q;
}.

Record RawBall := {
  rb_x : option Q;
  rb_y : option Q;
  rb_z : option Q;
}.

Record GameEvent := {
  home_ball : option bool;
}.

(** One decoded line of the raw file; [None] in a field is JSON [null]. *)
Record RawFrame := {
  gameRefId : Z;
  rf_period : option Z;
  frameNum : Z;
  periodGameClockTime : Q;
  ballsSmoothed : option RawBall;
  homePlayersSmoothed : option (list RawPlayer);
  awayPlayersSmoothed : option (list RawPlayer);
  game_event : option GameEvent;
}.

(** A row of the metadata table, its JSON cells decoded. *)
Record MetaRow := {
  m_id : Z;
  m_homeTeam : string * string;
  m_awayTeam : string * string;
  m_fps : Q;
  m_homeTeamStartLeft : option string;
}.

(** A row of the roster table. *)
Record RosterRow := {
  r_game_id : Z;
  r_team_id : string;
  r_player_id : string;
  r_nickname : string;
  r_shirtNumber : string;
}.

(** The raw file is a list of lines; [None] is a line [json.loads]
    rejects. *)
Record PFF_TrackingInputs := {
  meta_data : list MetaRow;
  roster_meta_data : list RosterRow;
  raw_data : list (option RawFrame);
}.

(** The deserializer object: its configuration and the attribute
    [_ball_owning_team]. *)
Record PFF_TrackingDeserializer := {
  cfg : Config;
  _ball_owning_team : option TeamRef;
}.

Definition __init__ (c : Config) : PFF_TrackingDeserializer :=
  {| cfg := c; _ball_owning_team := None |}.

Definition Roster : Type := list (string * Player).

(** [for p_id, player in players[side].items(): if ...: break]: the value
    the variable [player] holds after the loop. *)
Fixpoint roster_scan (roster : Roster) (jersey : string) (player : option Player)
  : option Player :=
  match roster with
  | [] => player
  | (_, p) :: rest =>
      if Jersey_eqb (jersey_no p) (JStr jersey) then Some p
      else roster_scan rest jersey (Some p)
  end.

(** [for home_player in frame["homePlayersSmoothed"]] (and the same loop
    for the away side); [player] is the local variable shared by both. *)
Fixpoint side_loop (roster : Roster) (entries : list RawPlayer)
  (player : option Player) (players_data_ : list (Player * PlayerData))
  : result (option Player * list (Player * PlayerData)) :=
  match entries with
  | [] => ok (player, players_data_)
  | e :: rest =>
      let player := roster_scan roster (jerseyNum e) player in
      p <- of_option player (UnboundLocalError "player") ;;
      side_loop roster rest player
        (dict_set Player_eqb players_data_ p
           {| coordinates := {| x := rp_x e; y := rp_y e |}; speed := None |})
  end.

Definition side_block (roster : Roster) (entries : option (list RawPlayer))
  (player : option Player) (players_data_ : list (Player * PlayerData))
  : result (option Player * list (Player * PlayerData)) :=
  match entries with
  | Some l => side_loop roster l player players_data_
  | None => ok (player, players_data_)
  end.

Definition _get_frame_data (players_ : Roster * Roster)
  (periods_ : list (Z * Period)) (ball_owning_team_ : option TeamRef)
  (frame : RawFrame) : result Frame :=
  let ball := match ballsSmoothed frame with
              | Some b => {| x3 := rb_x b; y3 := rb_y b; z3 := rb_z b |}
              | None => {| x3 := None; y3 := None; z3 := None |}
              end in
  ' (player, pd) <- side_block (fst players_) (homePlayersSmoothed frame) None [] ;;
  ' (_, pd) <- side_block (snd players_) (awayPlayersSmoothed frame) player pd ;;
  key <- of_option (rf_period frame) (KeyError "None") ;;
  p <- of_option (dict_get Z.eqb periods_ key) (KeyError (py_str_int key)) ;;
  ok {| frame_id := frameNum frame;
        timestamp := timedelta (periodGameClockTime frame);
        ball_coordinates := ball;
        ball_state := None;
        ball_owning_team := ball_owning_team_;
        players_data := pd;
        period := p |}.

(** [frames_by_period[frame["period"]].append(frame)]. *)
Fixpoint frames_by_period (tracking : list RawFrame)
  (acc : list (Z * list RawFrame)) : list (Z * list RawFrame) :=
  match tracking with
  | [] => acc
  | f :: rest =>
      match rf_period f with
      | Some p =>
          let old := match dict_get Z.eqb acc p with
                     | Some l => l
                     | None => []
                     end in
          frames_by_period rest (dict_set Z.eqb acc p (old ++ [f])%list)
      | None => frames_by_period rest acc
      end
  end.

Fixpoint periods_of_groups (groups : list (Z * list RawFrame)) (frame_rate_ : Q)
  : result (list (Z * Period)) :=
  match groups with
  | [] => ok []
  | (p, frames) :: rest =>
      first <- of_option (hd_error frames) IndexError ;;
      s <- true_div (inject_Z (frameNum first)) frame_rate_ ;;
      e <- true_div (inject_Z (frameNum (last frames first))) frame_rate_ ;;
      more <- periods_of_groups rest frame_rate_ ;;
      ok ((p, {| id := p; start_timestamp := timedelta s;
                 end_timestamp := timedelta e |}) :: more)
  end.

Definition __get_periods (tracking : list RawFrame) (frame_rate_ : Q)
  : result (list (Z * Period)) :=
  periods_of_groups (frames_by_period tracking []) frame_rate_.

(** [__load_json_raw]: the lines are decoded one by one; with a limit
    set, reading stops at line [i >= limit / sample_rate]. *)
Fixpoint __load_json_raw (c : Config) (lines : list (option RawFrame)) (i : Z)
  (data : list RawFrame) : result (list RawFrame) :=
  match lines with
  | [] => ok data
  | line :: rest =>
      stop <- (if truthy_limit (limit c) then
                 q <- true_div (inject_Z (limit_value (limit c))) (sample_rate c) ;;
                 ok (Qle_bool q (inject_Z i))
               else ok false) ;;
      if stop : bool then ok data
      else
        f <- of_option line JSONDecodeError ;;
        __load_json_raw c rest (i + 1) (data ++ [f])%list
  end.

(** The roster loop of [deserialize].  [cur] is the side the variables
    [team_string] and [team] hold; a row of a third team leaves them as
    they were. *)
Fixpoint roster_loop (home away : TeamRef) (rows : list RosterRow)
  (cur : option Ground) (players_ : Roster * Roster) : result (Roster * Roster) :=
  match rows with
  | [] => ok players_
  | r :: rest =>
      let cur := if String.eqb (r_team_id r) (team_id home) then Some HOME
                 else if String.eqb (r_team_id r) (team_id away) then Some AWAY
                 else cur in
      g <- of_option cur (UnboundLocalError "team_string") ;;
      let p := {| player_id := r_player_id r;
                  team := match g with HOME => home | AWAY => away end;
                  jersey_no := JStr (r_shirtNumber r);
                  player_name := Some (r_nickname r) |} in
      roster_loop home away rest cur
        match g with
        | HOME => (dict_set String.eqb (fst players_) (r_player_id r) p, snd players_)
        | AWAY => (fst players_, dict_set String.eqb (snd players_) (r_player_id r) p)
        end
  end.

(** The possession update at the head of the loop body of [_iter]. *)
Definition observe (home away : TeamRef) (owner : option TeamRef) (f : RawFrame)
  : option TeamRef :=
  match game_event f with
  | Some ge =>
      match home_ball ge with
      | Some b => Some (if b then home else away)
      | None => owner
      end
  | None => owner
  end.

(** An item handed to the consuming loop: the yielded pair, and the value
    [self._ball_owning_team] holds while the generator is suspended
    there. *)
Record Yielded := {
  y_frame : RawFrame;
  y_period : Z;
  y_owner : option TeamRef;
}.

(** [for frame in raw_data] inside [_iter]: the items, and the value of
    [self._ball_owning_team] once the generator is exhausted. *)
Fixpoint iter_loop (sample : Q) (home away : TeamRef) (raw : list RawFrame)
  (n : Z) (owner : option TeamRef) : list Yielded * option TeamRef :=
  match raw with
  | [] => ([], owner)
  | f :: rest =>
      let owner := observe home away owner f in
      match rf_period f with
      | Some p =>
          let '(ys, final) := iter_loop sample home away rest (n + 1) owner in
          (if mod_is_zero n sample
           then {| y_frame := f; y_period := p; y_owner := owner |} :: ys
           else ys, final)
      | None => iter_loop sample home away rest n owner
      end
  end.

Definition is_regular_time (p : Z) : bool := (p =? 1) || (p =? 2).
Definition is_extra_time (p : Z) : bool := (p =? 3) || (p =? 4).

(** [for _frame, _frame_period in _iter()]: the two buffers, or the
    exception, and the attribute [_ball_owning_team] when the loop is
    left. *)
Fixpoint frames_loop (c : Config) (players_ : Roster * Roster)
  (periods_ : list (Z * Period)) (items : list Yielded)
  (final : option TeamRef) (n_frames : Z) (frames et_frames : list Frame)
  : result (list Frame * list Frame) * option TeamRef :=
  match items with
  | [] => (ok (frames, et_frames), final)
  | it :: rest =>
      match _get_frame_data players_ periods_ (y_owner it) (y_frame it) with
      | inl e => (raise e, y_owner it)
      | inr frame =>
          let frames := if is_regular_time (y_period it)
                        then (frames ++ [frame])%list else frames in
          let et_frames := if is_regular_time (y_period it) then et_frames
                           else if is_extra_time (y_period it)
                                then (et_frames ++ [frame])%list
                                else et_frames in
          let n_frames := n_frames + 1 in
          if truthy_limit (limit c) && (limit_value (limit c) <=? n_frames)
          then (ok (frames, et_frames), y_owner it)
          else frames_loop c players_ periods_ rest final n_frames
                 frames et_frames
      end
  end.

(** [possible_attacking_directions[attacking_direction] += 1]. *)
Definition count_direction (counts : list (AttackingDirection * Z))
  (d : AttackingDirection) : list (AttackingDirection * Z) :=
  let old := match dict_get AttackingDirection_eqb counts d with
             | Some v => v
             | None => 0
             end in
  dict_set AttackingDirection_eqb counts d (old + 1).

(** [max(d, key=d.get)]: the first key with the largest count. *)
Fixpoint max_by_count (counts : list (AttackingDirection * Z))
  (best : AttackingDirection * Z) : AttackingDirection :=
  match counts with
  | [] => fst best
  | (d, v) :: rest =>
      if snd best <? v then max_by_count rest (d, v) else max_by_count rest best
  end.

(** The mirror correction of one extra-time frame. *)
Definition flip_point (p : Point) : Point :=
  match x p, y p with
  | Some a, Some b => {| x := Some (- a)%Q; y := Some (- b)%Q |}
  | _, _ => p
  end.

Definition flip_player_data (pd : PlayerData) : PlayerData :=
  {| coordinates := flip_point (coordinates pd); speed := speed pd |}.

Definition flip_ball (b : Point3D) : Point3D :=
  match x3 b, y3 b with
  | Some a, Some c => {| x3 := Some (- a)%Q; y3 := Some (- c)%Q; z3 := z3 b |}
  | _, _ => b
  end.

Definition flip_frame (f : Frame) : Frame :=
  {| frame_id := frame_id f;
     timestamp := timestamp f;
     ball_coordinates := flip_ball (ball_coordinates f);
     ball_state := ball_state f;
     ball_owning_team := ball_owning_team f;
     players_data :=
       map (fun e : Player * PlayerData => (fst e, flip_player_data (snd e)))
           (players_data f);
     period := period f |}.

(** [sorted(periods.values(), key=lambda p: p.id)]. *)
Fixpoint insert_by_id (p : Period) (l : list Period) : list Period :=
  match l with
  | [] => [p]
  | q :: r => if id p <? id q then p :: q :: r else q :: insert_by_id p r
  end.

Definition sorted_by_id (l : list Period) : list Period :=
  fold_left (fun acc p => insert_by_id p acc) l [].

Definition truthy_str (s : string) : bool := negb (String.eqb s "").

(** Everything [deserialize] has computed when it reaches the frame
    loop. *)
Record Loaded := {
  l_raw : list RawFrame;
  l_frame_rate : Q;
  l_periods : list (Z * Period);
  l_home : TeamRef;
  l_away : TeamRef;
  l_players : Roster * Roster;
  l_start_left : string;
  l_direction : AttackingDirection;
  l_sample : Q;
}.

(** [deserialize] up to the frame loop.  None of it reads or writes
    [self._ball_owning_team]. *)
Definition load (c : Config) (inputs : PFF_TrackingInputs) : result Loaded :=
  raw <- __load_json_raw c (raw_data inputs) 0 [] ;;
  first <- of_option (hd_error raw) IndexError ;;
  let game_id := gameRefId first in
  row <- of_option
           (hd_error (filter (fun r => m_id r =? game_id) (meta_data inputs)))
           IndexError ;;
  let roster := filter (fun r => r_game_id r =? game_id)
                       (roster_meta_data inputs) in
  ps <- __get_periods raw (m_fps row) ;;
  let home := {| team_id := fst (m_homeTeam row);
                 team_name := snd (m_homeTeam row); ground := HOME |} in
  let away := {| team_id := fst (m_awayTeam row);
                 team_name := snd (m_awayTeam row); ground := AWAY |} in
  players_ <- roster_loop home away roster None ([], []) ;;
  start_left <- of_option (m_homeTeamStartLeft row)
                  (KeyError "homeTeamStartLeft") ;;
  direction <- (if truthy_str start_left then ok LTR else raise TypeError) ;;
  sample <- sample_of c ;;
  ok {| l_raw := raw; l_frame_rate := m_fps row; l_periods := ps;
        l_home := home; l_away := away; l_players := players_;
        l_start_left := start_left; l_direction := direction;
        l_sample := sample |}.

Section WithCollaborators.
Context `{Collaborators}.

(** [for i in range(check_frames_counter)] of [__check_att_direction]. *)
Fixpoint check_loop (et_frames : list Frame) (idx : list nat)
  (counts : list (AttackingDirection * Z))
  : result (list (AttackingDirection * Z)) :=
  match idx with
  | [] => ok counts
  | i :: rest =>
      f <- of_option (nth_error et_frames i) IndexError ;;
      d <- attacking_direction_from_frame f ;;
      check_loop et_frames rest (count_direction counts d)
  end.

Definition __check_att_direction (et_frames : list Frame)
  (check_frames_counter : nat) : result AttackingDirection :=
  counts <- check_loop et_frames (seq 0 check_frames_counter) [] ;;
  match counts with
  | [] => raise (ValueError "max() arg is an empty sequence")
  | first :: rest => ok (max_by_count rest first)
  end.

(** The part of [deserialize] after the frame loop: direction check and
    mirror of the extra-time buffer, then the merge. *)
Definition correct_extra_time (first_period_attacking_direction : AttackingDirection)
  (frames et_frames : list Frame) : result (list Frame) :=
  match et_frames with
  | [] => ok frames
  | _ =>
      et_attacking_direction <- __check_att_direction et_frames 25 ;;
      ok (frames ++
          (if negb (AttackingDirection_eqb first_period_attacking_direction
                      et_attacking_direction)
           then map flip_frame et_frames else et_frames))%list
  end.

(** What [deserialize] has in hand when the frame loop ends: the
    buffers [frames] and [et_frames] (or the exception), and the attribute
    [_ball_owning_team]. *)
Definition buffer_frames (self : PFF_TrackingDeserializer) (ld : Loaded)
  : result (list Frame * list Frame) * option TeamRef :=
  let '(items, final) :=
    iter_loop (l_sample ld) (l_home ld) (l_away ld) (l_raw ld) 0
      (_ball_owning_team self) in
  frames_loop (cfg self) (l_players ld) (l_periods ld) items final 0 [] [].

Definition metadata_of (ld : Loaded) : Metadata :=
  {| teams := ({| team_ref := l_home ld;
                  players := map snd (fst (l_players ld)) |},
               {| team_ref := l_away ld;
                  players := map snd (snd (l_players ld)) |});
     periods := sorted_by_id (map snd (l_periods ld));
     frame_rate := l_frame_rate ld;
     orientation := if truthy_str (l_start_left ld)
                    then O_HOME_AWAY else O_AWAY_HOME |}.

(** [deserialize]: the dataset or the exception, and the deserializer
    object as the call leaves it. *)
Definition deserialize (self : PFF_TrackingDeserializer)
  (inputs : PFF_TrackingInputs)
  : result TrackingDataset * PFF_TrackingDeserializer :=
  match load (cfg self) inputs with
  | inl e => (raise e, self)
  | inr ld =>
      let '(r, owner) := buffer_frames self ld in
      (' (frames, et_frames) <- r ;;
       recs <- correct_extra_time (l_direction ld) frames et_frames ;;
       ok {| records := recs; metadata := metadata_of ld |},
       {| cfg := cfg self; _ball_owning_team := owner |})
  end.

End WithCollaborators.

End PFF.

(** ** The event reader of the v3 feed ([event/wyscout/deserializer_v3.py]) *)

Module Wyscout.

(** A value [json.load] returns; an object is a dict in insertion
    order. *)
#[warnings="-register-all"] Inductive JSON :=
| JNull
| JBoolean (b : bool)
| JInteger (n : Z)
| JFloat (q : Q)
| JString (s : string)
| JArray (items : list JSON)
| JObject (members : list (string * JSON)).

(** *** Exceptions and the builtins used on parsed values *)

(** The exceptions of [Py], and [AttributeError] for a method a value does
    not have. *)
Inductive error :=
| Builtin (e : exn)
| AttributeError (attr : string).

Definition outcome (A : Type) : Type := (error + A)%type.

Definition done {A} (a : A) : outcome A := inr a.
Definition throw {A} (e : exn) : outcome A := inl (Builtin e).

Definition and_then {A B} (c : outcome A) (k : A -> outcome B) : outcome B :=
  match c with
  | inl e => inl e
  | inr a => k a
  end.

Definition found {A} (o : option A) (e : exn) : outcome A :=
  match o with Some a => done a | None => throw e end.

Definition lift {A} (r : result A) : outcome A :=
  match r with inl e => throw e | inr a => done a end.

Definition succeeded {A} (c : outcome A) : bool :=
  match c with inr _ => true | inl _ => false end.

Declare Scope wyscout_scope.
Delimit Scope wyscout_scope with wyscout.
Notation "x <- c ;; k" := (and_then c (fun x => k))
  (at level 61, c at next level, right associativity) : wyscout_scope.
Notation "' pat <- c ;; k" := (and_then c (fun x => match x with pat => k end))
  (at level 61, pat pattern, c at next level, right associativity)
  : wyscout_scope.
Local Open Scope wyscout_scope.

Fixpoint traverse {A B} (f : A -> outcome B) (l : list A) : outcome (list B) :=
  match l with
  | [] => done []
  | a :: r => b <- f a ;; bs <- traverse f r ;; done (b :: bs)
  end.

(** [j[key]] for a [str] key. *)
Definition getitem (j : JSON) (key : string) : outcome JSON :=
  match j with
  | JObject d => found (dict_get String.eqb d key) (KeyError key)
  | _ => throw TypeError
  end.

(** [j[i]] for an index [i >= 0]. *)
Definition getitem_int (j : JSON) (i : nat) : outcome JSON :=
  match j with
  | JArray l => found (nth_error l i) IndexError
  | JString s =>
      match String.get i s with
      | Some c => done (JString (String c EmptyString))
      | None => throw IndexError
      end
  | JObject _ => throw (KeyError (py_str_int (Z.of_nat i)))
  | _ => throw TypeError
  end.

(** [j[key] = v]. *)
Definition setitem (j : JSON) (key : string) (v : JSON) : outcome JSON :=
  match j with
  | JObject d => done (JObject (dict_set String.eqb d key v))
  | _ => throw TypeError
  end.

(** Truthiness, as [if j:] tests it. *)
Definition truthy (j : JSON) : bool :=
  match j with
  | JNull => false
  | JBoolean b => b
  | JInteger n => negb (n =? 0)
  | JFloat q => negb (Qeq_bool q 0)
  | JString s => negb (String.eqb s "")
  | JArray l => match l with [] => false | _ => true end
  | JObject d => match d with [] => false | _ => true end
  end.

(** [j is True] and [j is False]. *)
Definition is_True (j : JSON) : bool :=
  match j with JBoolean true => true | _ => false end.

Definition is_False (j : JSON) : bool :=
  match j with JBoolean false => true | _ => false end.

(** [j == s] for a [str] literal [s]. *)
Definition eq_str (j : JSON) (s : string) : bool :=
  match j with JString t => String.eqb t s | _ => false end.

Fixpoint is_substring (s t : string) : bool :=
  prefix s t
  || match t with
     | EmptyString => false
     | String _ r => is_substring s r
     end.

(** [s in j] for a [str] literal [s]: membership in a list, key of a dict,
    substring of a [str]. *)
Definition contains (s : string) (j : JSON) : outcome bool :=
  match j with
  | JArray l => done (existsb (fun e => eq_str e s) l)
  | JObject d => done (existsb (fun kv => String.eqb (fst kv) s) d)
  | JString t => done (is_substring s t)
  | _ => throw TypeError
  end.

(** The items of [for x in j]: the elements of a list, the keys of a dict,
    the characters of a [str]. *)
Definition py_iter (j : JSON) : outcome (list JSON) :=
  match j with
  | JArray l => done l
  | JObject d => done (map (fun kv => JString (fst kv)) d)
  | JString t =>
      done (map (fun c => JString (String c EmptyString)) (list_ascii_of_string t))
  | _ => throw TypeError
  end.

Definition len (j : JSON) : outcome nat :=
  match j with
  | JArray l => done (List.length l)
  | JObject d => done (List.length d)
  | JString t => done (String.length t)
  | _ => throw TypeError
  end.

(** A number as Python arithmetic sees it: an [int] ([bool] included) or
    a [float]. *)
Definition as_number (j : JSON) : option (Z + Q) :=
  match j with
  | JInteger n => Some (inl n)
  | JBoolean b => Some (inl (if b then 1 else 0))
  | JFloat q => Some (inr q)
  | _ => None
  end.

Fixpoint repeat_string (s : string) (n : nat) : string :=
  match n with
  | O => EmptyString
  | S m => (s ++ repeat_string s m)%string
  end.

(** [j * n] for an [int] literal [n]. *)
Definition mul_int (j : JSON) (n : Z) : outcome JSON :=
  match j with
  | JString s => done (JString (repeat_string s (Z.to_nat n)))
  | JArray l => done (JArray (List.concat (List.repeat l (Z.to_nat n))))
  | _ =>
      match as_number j with
      | Some (inl m) => done (JInteger (m * n))
      | Some (inr q) => done (JFloat (q * inject_Z n))
      | None => throw TypeError
      end
  end.

(** [a + b]. *)
Definition add (a b : JSON) : outcome JSON :=
  match a, b with
  | JString s, JString t => done (JString (s ++ t))
  | JArray l, JArray m => done (JArray (l ++ m))
  | _, _ =>
      match as_number a, as_number b with
      | Some (inl m), Some (inl n) => done (JInteger (m + n))
      | Some (inl m), Some (inr q) => done (JFloat (inject_Z m + q))
      | Some (inr p), Some (inl n) => done (JFloat (p + inject_Z n))
      | Some (inr p), Some (inr q) => done (JFloat (p + q))
      | _, _ => throw TypeError
      end
  end.

(** [s.replace(c, "")] for a one-character [c]. *)
Fixpoint remove_char (c : ascii) (s : string) : string :=
  match s with
  | EmptyString => EmptyString
  | String a r => if Ascii.eqb a c then remove_char c r
                  else String a (remove_char c r)
  end.

(** *** Domain values of the event reader *)

Inductive BodyPart := HEAD | LEFT_FOOT | RIGHT_FOOT.

Inductive PassType := CROSS | HAND_PASS | HEAD_PASS | SMART_PASS.

Inductive SetPieceType := GOAL_KICK | THROW_IN | FREE_KICK | CORNER_KICK | PENALTY.

Module ShotResult.
Inductive t := GOAL | SAVED | BLOCKED | OFF_TARGET.
End ShotResult.

Module PassResult.
Inductive t := COMPLETE | INCOMPLETE | OFFSIDE | OUT.
End PassResult.

Module TakeOnResult.
Inductive t := COMPLETE | INCOMPLETE.
End TakeOnResult.

Inductive Qualifier :=
| CounterAttackQualifier (value : bool)
| BodyPartQualifier (value : BodyPart)
| PassQualifier (value : PassType)
| SetPieceQualifier (value : SetPieceType).

(** [Player(player_id, team, jersey_no=None, first_name, last_name)]; the
    team is referred to by its id. *)
Record Player := {
  player_id : string;
  player_team : string;
  first_name : JSON;
  last_name : JSON;
}.

Record Team := {
  team_id : string;
  name : JSON;
  ground : Ground;
  players : list Player;
}.

(** A value of a keyword argument of the event factory. *)
Inductive Value :=
| VNone
| VJSON (j : JSON)
| VFloat (q : Q)
| VPoint (p : Point)
| VTeam (t : Team)
| VPlayer (p : Player)
| VPeriod (p : Period)
| VShotResult (r : ShotResult.t)
| VPassResult (r : PassResult.t)
| VTakeOnResult (r : TakeOnResult.t)
| VQualifiers (qs : list Qualifier).

(** A dict of keyword arguments. *)
Definition Kwargs : Type := list (string * Value).

Definition optional {A} (inj : A -> Value) (o : option A) : Value :=
  match o with Some a => inj a | None => VNone end.

(** The method of [self.event_factory] that is called. *)
Inductive Builder :=
| build_shot
| build_pass
| build_take_on
| build_clearance
| build_generic.

(** An event, as the factory call that makes it. *)
Record Event := {
  builder : Builder;
  kwargs : Kwargs;
}.

(** A factory call with two unpacked dicts of keyword arguments: a
    keyword given twice is a [TypeError]. *)
Definition call (b : Builder) (specific generic : Kwargs) : outcome Event :=
  if existsb (fun kv => existsb (fun kv' => String.eqb (fst kv') (fst kv)) specific)
       generic
  then throw TypeError
  else done {| builder := b; kwargs := (specific ++ generic)%list |}.

(** The services the reader consumes from outside: [repr] (what [str()]
    gives for floats, lists and dicts), [float()] on text,
    [Team.get_player_by_id], and the inclusion filter and coordinate
    transformer of the deserializer base class. *)
Class Services := {
  py_repr : JSON -> string;
  float_of_text : string -> result Q;
  get_player_by_id : Team -> JSON -> option Player;
  should_include_event : Event -> bool;
  transform_event : Event -> Event;
}.

Record EventMetadata := {
  teams : Team * Team;
  periods : list Period;
}.

Record EventDataset := {
  metadata : EventMetadata;
  records : list Event;
}.

(** [INVALID_PLAYER]. *)
Definition INVALID_PLAYER : string := "0".

Section WithServices.
Context `{Services}.

(** [str(j)]. *)
Definition str (j : JSON) : string :=
  match j with
  | JString s => s
  | JInteger n => py_str_int n
  | JBoolean true => "True"
  | JBoolean false => "False"
  | JNull => "None"
  | _ => py_repr j
  end.

(** [float(j)]. *)
Definition float (j : JSON) : outcome Q :=
  match j with
  | JString s => lift (float_of_text s)
  | _ =>
      match as_number j with
      | Some (inl n) => done (inject_Z n)
      | Some (inr q) => done q
      | None => throw TypeError
      end
  end.

Definition _parse_team (raw_events : JSON) (wyId : string) (ground : Ground)
  : outcome Team :=
  teams_ <- getitem raw_events "teams" ;;
  entry <- getitem teams_ wyId ;;
  team_ <- getitem entry "team" ;;
  official_name <- getitem team_ "officialName" ;;
  players_ <- getitem raw_events "players" ;;
  roster <- getitem players_ wyId ;;
  items <- py_iter roster ;;
  members <- traverse
               (fun player =>
                  p <- getitem player "player" ;;
                  wy <- getitem p "wyId" ;;
                  first <- getitem p "firstName" ;;
                  last <- getitem p "lastName" ;;
                  done {| player_id := str wy; player_team := wyId;
                          first_name := first; last_name := last |})
               items ;;
  done {| team_id := wyId; name := official_name; ground := ground;
          players := members |}.

Definition _generic_qualifiers (raw_event : JSON) : outcome (list Qualifier) :=
  possession <- getitem raw_event "possession" ;;
  if truthy possession then
    types <- getitem possession "types" ;;
    counter <- contains "counterattack" types ;;
    done [CounterAttackQualifier counter]
  else done [CounterAttackQualifier false].

Definition _parse_shot (raw_event : JSON) : outcome Kwargs :=
  qualifiers <- _generic_qualifiers raw_event ;;
  shot <- getitem raw_event "shot" ;;
  is_goal <- getitem shot "isGoal" ;;
  result <- (if is_True is_goal then done ShotResult.GOAL
             else
               on_target <- getitem shot "onTarget" ;;
               if is_True on_target then done ShotResult.SAVED
               else
                 goal_zone <- getitem shot "goalZone" ;;
                 if eq_str goal_zone "bc" then done ShotResult.BLOCKED
                 else done ShotResult.OFF_TARGET) ;;
  body_part <- getitem shot "bodyPart" ;;
  let qualifiers :=
    if eq_str body_part "head_or_other"
    then (qualifiers ++ [BodyPartQualifier HEAD])%list
    else if eq_str body_part "left_foot"
    then (qualifiers ++ [BodyPartQualifier LEFT_FOOT])%list
    else if eq_str body_part "right_foot"
    then (qualifiers ++ [BodyPartQualifier RIGHT_FOOT])%list
    else qualifiers in
  done [("result", VShotResult result);
        ("result_coordinates", VPoint {| x := Some 0%Q; y := Some 0%Q |});
        ("qualifiers", VQualifiers qualifiers)].

Definition _check_secondary_event_types (raw_event : JSON)
  (secondary_event_types_values : list string) : outcome bool :=
  type_ <- getitem raw_event "type" ;;
  secondary <- getitem type_ "secondary" ;;
  items <- py_iter secondary ;;
  done (existsb (fun secondary_event_types =>
                   existsb (eq_str secondary_event_types)
                     secondary_event_types_values)
          items).

Definition _pass_qualifiers (raw_event : JSON) : outcome (list Qualifier) :=
  qualifiers <- _generic_qualifiers raw_event ;;
  cross <- _check_secondary_event_types raw_event ["cross"; "cross_blocked"] ;;
  if cross then done (qualifiers ++ [PassQualifier CROSS])%list
  else
    hand <- _check_secondary_event_types raw_event ["hand_pass"] ;;
    if hand then done (qualifiers ++ [PassQualifier HAND_PASS])%list
    else
      head <- _check_secondary_event_types raw_event ["head_pass"] ;;
      if head then done (qualifiers ++ [PassQualifier HEAD_PASS])%list
      else
        smart <- _check_secondary_event_types raw_event ["smart_pass"] ;;
        if smart then done (qualifiers ++ [PassQualifier SMART_PASS])%list
        else done qualifiers.

Definition _parse_pass (raw_event next_event : JSON) (team : Team)
  : outcome Kwargs :=
  pass_ <- getitem raw_event "pass" ;;
  accurate <- getitem pass_ "accurate" ;;
  ' (pass_result, receiver_player) <-
    (if is_True accurate then
       recipient <- getitem pass_ "recipient" ;;
       recipient_id <- getitem recipient "id" ;;
       done (Some PassResult.COMPLETE, get_player_by_id team recipient_id)
     else if is_False accurate then done (Some PassResult.INCOMPLETE, None)
     else done (None, None)) ;;
  pass_result <-
    (if truthy next_event then
       next_type <- getitem next_event "type" ;;
       next_primary <- getitem next_type "primary" ;;
       let pass_result :=
         if eq_str next_primary "offside" then Some PassResult.OFFSIDE
         else pass_result in
       if eq_str next_primary "game_interruption" then
         next_secondary <- getitem next_type "secondary" ;;
         if eq_str next_secondary "ball_out" then done (Some PassResult.OUT)
         else done pass_result
       else done pass_result
     else done pass_result) ;;
  qualifiers <- _pass_qualifiers raw_event ;;
  end_location <- getitem pass_ "endLocation" ;;
  n <- len end_location ;;
  receiver_coordinates <-
    (if (1 <? n)%nat then
       ex <- getitem end_location "x" ;;
       fx <- float ex ;;
       ey <- getitem end_location "y" ;;
       fy <- float ey ;;
       done (Some {| x := Some fx; y := Some fy |})
     else done None) ;;
  done [("result", optional VPassResult pass_result);
        ("qualifiers", VQualifiers qualifiers);
        ("receive_timestamp", VNone);
        ("receiver_player", optional VPlayer receiver_player);
        ("receiver_coordinates", optional VPoint receiver_coordinates)].

Definition _parse_clearance (raw_event : JSON) : outcome Kwargs :=
  qualifiers <- _generic_qualifiers raw_event ;;
  done [("result", VNone); ("qualifiers", VQualifiers qualifiers)].

(** [raw_event["type"]["primary"] == s]. *)
Definition primary_is (raw_event : JSON) (s : string) : outcome bool :=
  type_ <- getitem raw_event "type" ;;
  primary <- getitem type_ "primary" ;;
  done (eq_str primary s).

(** [s in raw_event["type"]["secondary"]]. *)
Definition secondary_has (raw_event : JSON) (s : string) : outcome bool :=
  type_ <- getitem raw_event "type" ;;
  secondary <- getitem type_ "secondary" ;;
  contains s secondary.

(** [a and b], the right operand evaluated only when the left is true. *)
Definition and_also (a : outcome bool) (b : outcome bool) : outcome bool :=
  l <- a ;; if l then b else done false.

Definition negated (a : outcome bool) : outcome bool :=
  l <- a ;; done (negb l).

Definition _parse_set_piece (raw_event next_event : JSON) (team : Team)
  : outcome Kwargs :=
  qualifiers <- _generic_qualifiers raw_event ;;
  ' (qualifiers, result) <-
    (goal_kick <- primary_is raw_event "goal_kick" ;;
     if goal_kick then
       r <- _parse_pass raw_event next_event team ;;
       done ((qualifiers ++ [SetPieceQualifier GOAL_KICK])%list, r)
     else
     throw_in <- primary_is raw_event "throw_in" ;;
     if throw_in then
       r <- _parse_pass raw_event next_event team ;;
       done ((qualifiers ++ [SetPieceQualifier THROW_IN;
                             PassQualifier HAND_PASS])%list, r)
     else
     free_kick_pass <- and_also (primary_is raw_event "free_kick")
                         (negated (secondary_has raw_event "free_kick_shot")) ;;
     if free_kick_pass then
       r <- _parse_pass raw_event next_event team ;;
       done ((qualifiers ++ [SetPieceQualifier FREE_KICK])%list, r)
     else
     corner_pass <- and_also (primary_is raw_event "corner")
                      (negated (secondary_has raw_event "shot")) ;;
     if corner_pass then
       r <- _parse_pass raw_event next_event team ;;
       done ((qualifiers ++ [SetPieceQualifier CORNER_KICK])%list, r)
     else
     free_kick_shot <- and_also (primary_is raw_event "free_kick")
                         (secondary_has raw_event "free_kick_shot") ;;
     if free_kick_shot then
       r <- _parse_shot raw_event ;;
       done ((qualifiers ++ [SetPieceQualifier FREE_KICK])%list, r)
     else
     corner_shot <- and_also (primary_is raw_event "corner")
                      (secondary_has raw_event "shot") ;;
     if corner_shot then
       r <- _parse_shot raw_event ;;
       done ((qualifiers ++ [SetPieceQualifier CORNER_KICK])%list, r)
     else
     penalty <- primary_is raw_event "penalty" ;;
     if penalty then
       r <- _parse_shot raw_event ;;
       done ((qualifiers ++ [SetPieceQualifier PENALTY])%list, r)
     else done (qualifiers, [])) ;;
  done (dict_set String.eqb result "qualifiers" (VQualifiers qualifiers)).

Definition _parse_takeon (raw_event : JSON) : outcome Kwargs :=
  qualifiers <- _generic_qualifiers raw_event ;;
  result <-
    (offensive <- secondary_has raw_event "offensive_duel" ;;
     if offensive then
       duel <- getitem raw_event "groundDuel" ;;
       kept <- getitem duel "keptPossession" ;;
       done (Some (if truthy kept then TakeOnResult.COMPLETE
                   else TakeOnResult.INCOMPLETE))
     else
     defensive <- secondary_has raw_event "defensive_duel" ;;
     if defensive then
       duel <- getitem raw_event "groundDuel" ;;
       recovered <- getitem duel "recoveredPossession" ;;
       done (Some (if truthy recovered then TakeOnResult.COMPLETE
                   else TakeOnResult.INCOMPLETE))
     else
     aerial <- secondary_has raw_event "aerial_duel" ;;
     if aerial then
       duel <- getitem raw_event "aerialDuel" ;;
       first_touch <- getitem duel "firstTouch" ;;
       done (Some (if truthy first_touch then TakeOnResult.COMPLETE
                   else TakeOnResult.INCOMPLETE))
     else done None) ;;
  done [("result", optional VTakeOnResult result);
        ("qualifiers", VQualifiers qualifiers)].

Definition _players_to_dict (players_ : list Player) : list (string * Player) :=
  fold_left (fun d player => dict_set String.eqb d (player_id player) player)
            players_ [].

(** The first loop of [deserialize]: an event without [id] gets its
    primary type as id. *)
Definition add_id (event : JSON) : outcome JSON :=
  has_id <- contains "id" event ;;
  if negb has_id then
    type_ <- getitem event "type" ;;
    primary <- getitem type_ "primary" ;;
    setitem event "id" primary
  else done event.

(** The value of [raw_events["events"]] after the first loop: the dicts
    of a list are updated in place; the items of any other iterable are
    [str] values a write to which raises. *)
Definition with_ids (events : JSON) : outcome JSON :=
  items <- py_iter events ;;
  items' <- traverse add_id items ;;
  match events with
  | JArray _ => done (JArray items')
  | _ => done events
  end.

(** [int(raw_event["matchPeriod"].replace("H", ""))]. *)
Definition period_id_of (raw_event : JSON) : outcome Z :=
  match_period <- getitem raw_event "matchPeriod" ;;
  match match_period with
  | JString s => lift (py_int (remove_char "H"%char s))
  | _ => inl (AttributeError "replace")
  end.

(** [periods[-1]]. *)
Definition last_period (periods_ : list Period) : option Period :=
  match rev periods_ with
  | p :: _ => Some p
  | [] => None
  end.

(** The [if len(periods) == 0 or periods[-1].id != period_id] step. *)
Definition note_period (periods_ : list Period) (period_id : Z) : list Period :=
  match last_period periods_ with
  | Some p =>
      if negb (id p =? period_id)
      then (periods_ ++ [{| id := period_id; start_timestamp := 0;
                            end_timestamp := 0 |}])%list
      else periods_
  | None => [{| id := period_id; start_timestamp := 0; end_timestamp := 0 |}]
  end.

(** [a or b], the right operand evaluated only when the left is false. *)
Definition or_else (a : outcome bool) (b : outcome bool) : outcome bool :=
  l <- a ;; if l then done true else b.

(** The body of the event loop up to the factory call: the periods after
    the event, and the event built. *)
Definition build_event (events : JSON) (teams_ : list (string * Team))
  (players_ : list (string * list (string * Player)))
  (idx : nat) (raw_event : JSON) (periods_ : list Period)
  : outcome (list Period * Event) :=
  n <- len events ;;
  next_event <- (if (idx + 1 <? n)%nat then getitem_int events (idx + 1)
                 else done JNull) ;;
  raw_team <- getitem raw_event "team" ;;
  raw_team_id <- getitem raw_team "id" ;;
  let team_id_ := str raw_team_id in
  team <- found (dict_get String.eqb teams_ team_id_) (KeyError team_id_) ;;
  raw_player <- getitem raw_event "player" ;;
  raw_player_id <- getitem raw_player "id" ;;
  let player_id_ := str raw_player_id in
  period_id <- period_id_of raw_event ;;
  let periods_ := note_period periods_ period_id in
  possession <- getitem raw_event "possession" ;;
  ball_owning_team <-
    (if truthy possession then
       possession_team <- getitem possession "team" ;;
       possession_team_id <- getitem possession_team "id" ;;
       t <- found (dict_get String.eqb teams_ (str possession_team_id))
              (KeyError (str possession_team_id)) ;;
       done (Some t)
     else done None) ;;
  event_id <- getitem raw_event "id" ;;
  location <- getitem raw_event "location" ;;
  coordinates <-
    (if truthy location then
       lx <- getitem location "x" ;;
       fx <- float lx ;;
       ly <- getitem location "y" ;;
       fy <- float ly ;;
       done (Some {| x := Some fx; y := Some fy |})
     else done None) ;;
  player <-
    (if negb (String.eqb player_id_ INVALID_PLAYER) then
       roster <- found (dict_get String.eqb players_ team_id_) (KeyError team_id_) ;;
       p <- found (dict_get String.eqb roster player_id_) (KeyError player_id_) ;;
       done (Some p)
     else done None) ;;
  period <- found (last_period periods_) IndexError ;;
  second <- getitem raw_event "second" ;;
  minute <- getitem raw_event "minute" ;;
  minutes <- mul_int minute 60 ;;
  seconds <- add second minutes ;;
  timestamp <- float seconds ;;
  let generic_event_args :=
    [("event_id", VJSON event_id);
     ("raw_event", VJSON raw_event);
     ("coordinates", optional VPoint coordinates);
     ("team", VTeam team);
     ("player", optional VPlayer player);
     ("ball_owning_team", optional VTeam ball_owning_team);
     ("ball_state", VNone);
     ("period", VPeriod period);
     ("timestamp", VFloat timestamp)] in
  type_ <- getitem raw_event "type" ;;
  primary_event_type <- getitem type_ "primary" ;;
  secondary_event_types <- getitem type_ "secondary" ;;
  event <-
    (if eq_str primary_event_type "shot" then
       shot_event_args <- _parse_shot raw_event ;;
       call build_shot shot_event_args generic_event_args
     else if eq_str primary_event_type "pass" then
       pass_event_args <- _parse_pass raw_event next_event team ;;
       call build_pass pass_event_args generic_event_args
     else if eq_str primary_event_type "duel" then
       takeon_event_args <- _parse_takeon raw_event ;;
       call build_take_on takeon_event_args generic_event_args
     else if eq_str primary_event_type "clearance" then
       clearance_event_args <- _parse_clearance raw_event ;;
       call build_clearance clearance_event_args generic_event_args
     else
     pass_set_piece <-
       or_else (done (eq_str primary_event_type "throw_in"
                      || eq_str primary_event_type "goal_kick"))
         (or_else
            (and_also (done (eq_str primary_event_type "free_kick"))
               (negated (contains "free_kick_shot" secondary_event_types)))
            (and_also (done (eq_str primary_event_type "corner"))
               (negated (contains "shot" secondary_event_types)))) ;;
     if pass_set_piece then
       set_piece_event_args <- _parse_set_piece raw_event next_event team ;;
       call build_pass set_piece_event_args generic_event_args
     else
     shot_set_piece <-
       or_else (done (eq_str primary_event_type "penalty"))
         (or_else
            (and_also (done (eq_str primary_event_type "free_kick"))
               (contains "free_kick_shot" secondary_event_types))
            (and_also (done (eq_str primary_event_type "corner"))
               (contains "shot" secondary_event_types))) ;;
     if shot_set_piece then
       set_piece_event_args <- _parse_set_piece raw_event next_event team ;;
       call build_shot set_piece_event_args generic_event_args
     else
       qualifiers <- _generic_qualifiers raw_event ;;
       event_name <- getitem type_ "primary" ;;
       call build_generic
         [("result", VNone); ("qualifiers", VQualifiers qualifiers);
          ("event_name", VJSON event_name)]
         generic_event_args) ;;
  done (periods_, event).

(** [for idx, raw_event in enumerate(raw_events["events"])]. *)
Fixpoint events_loop (events : JSON) (teams_ : list (string * Team))
  (players_ : list (string * list (string * Player)))
  (items : list JSON) (idx : nat) (periods_ : list Period)
  (events_ : list Event) : outcome (list Period * list Event) :=
  match items with
  | [] => done (periods_, events_)
  | raw_event :: rest =>
      ' (periods_, event) <-
        build_event events teams_ players_ idx raw_event periods_ ;;
      let events_ :=
        if should_include_event event
        then (events_ ++ [transform_event event])%list
        else events_ in
      events_loop events teams_ players_ rest (S idx) periods_ events_
  end.

(** [inputs.event_data], parsed: [None] when it is not valid JSON. *)
Definition deserialize (event_data : option JSON) : outcome EventDataset :=
  raw_events <- found event_data JSONDecodeError ;;
  events <- getitem raw_events "events" ;;
  events <- with_ids events ;;
  raw_teams <- getitem raw_events "teams" ;;
  keys <- match raw_teams with
          | JObject d => done (map fst d)
          | _ => inl (AttributeError "keys")
          end ;;
  ' (home_team_id, away_team_id) <-
    match keys with
    | [a; b] => done (a, b)
    | [] | [_] => throw (ValueError "not enough values to unpack")
    | _ => throw (ValueError "too many values to unpack")
    end ;;
  home_team <- _parse_team raw_events home_team_id HOME ;;
  away_team <- _parse_team raw_events away_team_id AWAY ;;
  let teams_ := dict_set String.eqb [(home_team_id, home_team)]
                  away_team_id away_team in
  let players_ := fold_left
                    (fun d entry =>
                       dict_set String.eqb d (fst entry)
                         (_players_to_dict (players (snd entry))))
                    teams_ [] in
  items <- py_iter events ;;
  ' (periods_, events_) <- events_loop events teams_ players_ items 0 [] [] ;;
  done {| metadata := {| teams := (home_team, away_team); periods := periods_ |};
          records := events_ |}.

End WithServices.

End Wyscout.

(** ** A concrete set of collaborators

    Used to run the readers on concrete archives: [float()] on plain
    decimal literals, the identity transformer (source and target
    coordinate systems coincide), and an attacking-direction primitive
    that compares the mean x of the two sides. *)

Module Concrete.

Fixpoint plain_digits (acc : Z) (s : string) : option Z :=
  match s with
  | EmptyString => Some acc
  | String c r =>
      match digit_of c with
      | Some d => plain_digits (10 * acc + d) r
      | None => None
      end
  end.

Definition unsigned_decimal (s : string) : option Q :=
  match split "." s with
  | [i] =>
      match i with
      | EmptyString => None
      | _ => option_map inject_Z (plain_digits 0 i)
      end
  | [i; f] =>
      match (i ++ f)%string with
      | EmptyString => None
      | _ =>
          match plain_digits 0 (i ++ f) with
          | Some n =>
              Some (Qred (inject_Z n / inject_Z (10 ^ Z.of_nat (String.length f))))
          | None => None
          end
      end
  | _ => None
  end.

Definition decimal_float (s : string) : result Q :=
  let t := strip str_isspace s in
  let bad := ValueError ("could not convert string to float: " ++ s) in
  match t with
  | String "-"%char r =>
      q <- of_option (unsigned_decimal r) bad ;; ok (Qred (- q))
  | String "+"%char r => of_option (unsigned_decimal r) bad
  | _ => of_option (unsigned_decimal t) bad
  end.

Definition side_xs (g : Ground) (f : Frame) : list Q :=
  flat_map (fun e : Player * PlayerData =>
              if Ground_eqb (ground (team (fst e))) g
              then match x (coordinates (snd e)) with
                   | Some v => [v]
                   | None => []
                   end
              else [])
           (players_data f).

Definition Qsum (l : list Q) : Q := fold_right Qplus 0%Q l.

Definition mean_direction (f : Frame) : result AttackingDirection :=
  let h := side_xs HOME f in
  let a := side_xs AWAY f in
  mh <- true_div (Qsum h) (inject_Z (Z.of_nat (List.length h))) ;;
  ma <- true_div (Qsum a) (inject_Z (Z.of_nat (List.length a))) ;;
  ok (if Qle_bool mh ma then LTR else RTL).

#[export] Instance collaborators : Collaborators := {
  py_float := decimal_float;
  transform_frame := fun f => f;
  attacking_direction_from_frame := mean_direction;
}.

Definition mk_team (tid name : string) (g : Ground) (roster : list (string * Z))
  : Team :=
  let r := {| team_id := tid; team_name := name; ground := g |} in
  {| team_ref := r;
     players := map (fun e : string * Z =>
                       {| player_id := fst e; team := r;
                          jersey_no := JInt (snd e); player_name := None |})
                    roster |}.

Definition home_team : Team := mk_team "H1" "Home FC" HOME [("h10", 10)].
Definition away_team : Team := mk_team "A1" "Away FC" AWAY [("a9", 9)].

Definition default_cfg : Config :=
  {| limit := None; sample_rate := 1; only_alive := true |}.

(** A small match for the line-delimited reader: one metadata row, one
    player per side, and raw frames built by [raw_frame]. *)
Definition raw_frame (p : option Z) (num : Z) (clock : Q) (ev : option bool)
  : PFF.RawFrame :=
  {| PFF.gameRefId := 1;
     PFF.rf_period := p;
     PFF.frameNum := num;
     PFF.periodGameClockTime := clock;
     PFF.ballsSmoothed :=
       Some {| PFF.rb_x := Some 1%Q; PFF.rb_y := Some 2%Q; PFF.rb_z := Some 3%Q |};
     PFF.homePlayersSmoothed :=
       Some [{| PFF.jerseyNum := "10"; PFF.rp_x := Some (-4)%Q; PFF.rp_y := Some 5%Q |}];
     PFF.awayPlayersSmoothed :=
       Some [{| PFF.jerseyNum := "9"; PFF.rp_x := Some 6%Q; PFF.rp_y := Some 7%Q |}];
     PFF.game_event := option_map (fun b => {| PFF.home_ball := Some b |}) ev |}.

Definition pff_meta : list PFF.MetaRow :=
  [{| PFF.m_id := 1;
      PFF.m_homeTeam := ("H1", "Home FC");
      PFF.m_awayTeam := ("A1", "Away FC");
      PFF.m_fps := 25;
      PFF.m_homeTeamStartLeft := Some "True" |}].

Definition pff_roster : list PFF.RosterRow :=
  [{| PFF.r_game_id := 1; PFF.r_team_id := "H1"; PFF.r_player_id := "h10";
      PFF.r_nickname := "Ten"; PFF.r_shirtNumber := "10" |};
   {| PFF.r_game_id := 1; PFF.r_team_id := "A1"; PFF.r_player_id := "a9";
      PFF.r_nickname := "Nine"; PFF.r_shirtNumber := "9" |}].

Definition pff_inputs (raw : list PFF.RawFrame) : PFF.PFF_TrackingInputs :=
  {| PFF.meta_data := pff_meta;
     PFF.roster_meta_data := pff_roster;
     PFF.raw_data := map Some raw |}.

Definition pff_fresh : PFF.PFF_TrackingDeserializer := PFF.__init__ default_cfg.

(** An archive whose only frame lies in the first extra-time half. *)
Definition one_extra_time_frame : PFF.PFF_TrackingInputs :=
  pff_inputs [raw_frame (Some 3) 0 0 None].

(** Three consecutive regular-time records with possession
    [a, absent, b]. *)
Definition possession_stream (a b : bool) : PFF.PFF_TrackingInputs :=
  pff_inputs [raw_frame (Some 1) 0 0 (Some a);
              raw_frame (Some 1) 1 (1 # 25) None;
              raw_frame (Some 1) 2 (2 # 25) (Some b)].

Definition home_ref : TeamRef :=
  {| team_id := "H1"; team_name := "Home FC"; ground := HOME |}.
Definition away_ref : TeamRef :=
  {| team_id := "A1"; team_name := "Away FC"; ground := AWAY |}.

(** The records of a run of the line-delimited reader, [[]] if it
    raised. *)
Definition pff_records (self : PFF.PFF_TrackingDeserializer)
  (inputs : PFF.PFF_TrackingInputs) : list Frame :=
  match fst (PFF.deserialize self inputs) with
  | inr ds => records ds
  | inl _ => []
  end.

(** The frame assembled from the middle record of
    [possession_stream true false]. *)
Definition middle_frame : Frame :=
  Eval vm_compute in
    nth 1 (pff_records pff_fresh (possession_stream true false))
      {| frame_id := 0; timestamp := 0;
         ball_coordinates := {| x3 := None; y3 := None; z3 := None |};
         ball_state := None; ball_owning_team := None; players_data := [];
         period := {| id := 0; start_timestamp := 0; end_timestamp := 0 |} |}.

(** Two one-record archives: [silent_archive] never states possession,
    [home_archive] states it for the home side. *)
Definition silent_archive : PFF.PFF_TrackingInputs :=
  pff_inputs [raw_frame (Some 1) 0 0 None].


(** A frame in which the home side lists jersey 10, which is on the
    roster, and jersey 99, which is not. *)
Definition unseen_jersey_archive : PFF.PFF_TrackingInputs :=
  pff_inputs
    [{| PFF.gameRefId := 1;
        PFF.rf_period := Some 1;
        PFF.frameNum := 0;
        PFF.periodGameClockTime := 0;
        PFF.ballsSmoothed := None;
        PFF.homePlayersSmoothed :=
          Some [{| PFF.jerseyNum := "10"; PFF.rp_x := Some (-4)%Q; PFF.rp_y := Some 5%Q |};
                {| PFF.jerseyNum := "99"; PFF.rp_x := Some 1%Q; PFF.rp_y := Some 1%Q |}];
        PFF.awayPlayersSmoothed :=
          Some [{| PFF.jerseyNum := "9"; PFF.rp_x := Some 6%Q; PFF.rp_y := Some 7%Q |}];
        PFF.game_event := None |}].

(** Who is in [players_data], with which coordinates. *)
Definition tracked (f : Frame) : list (string * Point) :=
  map (fun e : Player * PlayerData => (player_id (fst e), coordinates (snd e)))
      (players_data f).

(** A match for the text-line reader: two halves at 25 frames per
    second, and lines built around the line of the specification's
    scenario. *)
Definition first_half : Period :=
  {| id := 1; start_timestamp := 0; end_timestamp := 100 |}.
Definition second_half : Period :=
  {| id := 2; start_timestamp := 200; end_timestamp := 300 |}.

Definition tracab_line (fid owner state : string) : string :=
  (fid ++ ":1,7,10,5.0,2.0,3.0;0,5,9,-5.0,-2.0,1.0;:10.0,0.0,0.5,9.0,"
       ++ owner ++ "," ++ state ++ ";:")%string.

Definition alive_line (fid : string) : string := tracab_line fid "H" "Alive".

Definition tracab_inputs (lines : list string) : Tracab.TRACABInputs :=
  {| Tracab.meta_teams := (home_team, away_team);
     Tracab.meta_periods := [first_half; second_half];
     Tracab.meta_frame_rate := 25;
     Tracab.raw_data := lines |}.

Definition cfg_limit (l : Z) : Config :=
  {| limit := Some l; sample_rate := 1; only_alive := true |}.

Definition cfg_rate (r : Q) : Config :=
  {| limit := None; sample_rate := r; only_alive := true |}.

(** A positions file with one alive tick in the first half: a ball track
    and one track per player. *)
Definition node (n : Z) (status : option Z) : Sportec.FrameNode :=
  {| Sportec.attr_N := n; Sportec.attr_X := 1; Sportec.attr_Y := 2;
     Sportec.attr_S := 3; Sportec.attr_Z := option_map (fun _ => 0%Q) status;
     Sportec.attr_BallPossession := option_map (fun _ => 1) status;
     Sportec.attr_BallStatus := status |}.

Definition track (section team person : string) (nodes : list Sportec.FrameNode)
  : Sportec.FrameSet :=
  {| Sportec.GameSection := section; Sportec.TeamId := team;
     Sportec.PersonId := Some person; Sportec.frame_nodes := nodes |}.

Definition sportec_inputs (ball : list Sportec.FrameNode)
  : Sportec.SportecTrackingDataInputs :=
  {| Sportec.meta_teams := (home_team, away_team);
     Sportec.meta_periods := [first_half];
     Sportec.meta_fps := 25;
     Sportec.raw_data :=
       [track "firstHalf" "BALL" "DFL-OBJ-0000XT" ball;
        track "firstHalf" "H1" "h10" (map (fun b => node (Sportec.attr_N b) None) ball);
        track "firstHalf" "A1" "a9" (map (fun b => node (Sportec.attr_N b) None) ball)] |}.

Definition one_alive_tick : Sportec.SportecTrackingDataInputs :=
  sportec_inputs [node 1000 (Some 1)].

(** The records of a run of the text-line reader, [[]] if it raised. *)
Definition tracab_records (c : Config) (inputs : Tracab.TRACABInputs)
  : list Frame :=
  match Tracab.deserialize c inputs with
  | inr ds => records ds
  | inl _ => []
  end.

(** One alive line at tick 5000, that is 200 s, the kick-off of the
    second half. *)
Definition kick_off_line : Tracab.TRACABInputs :=
  tracab_inputs [alive_line "5000"].

Definition kick_off_frame : Frame :=
  Eval vm_compute in
    nth 0 (tracab_records default_cfg kick_off_line)
      {| frame_id := 0; timestamp := 0;
         ball_coordinates := {| x3 := None; y3 := None; z3 := None |};
         ball_state := None; ball_owning_team := None; players_data := [];
         period := {| id := 0; start_timestamp := 0; end_timestamp := 0 |} |}.

(** Six alive lines, ticks 100 to 105, all in the first half, read at
    [sample_rate = 0.4]. *)
Definition six_ticks : list string :=
  ["100"; "101"; "102"; "103"; "104"; "105"].

Definition six_lines : Tracab.TRACABInputs :=
  tracab_inputs (map alive_line six_ticks).




(** A first half of the markup feed with a dead tick followed by two
    alive ones. *)
Definition dead_alive_alive : Sportec.SportecTrackingDataInputs :=
  sportec_inputs [node 1000 (Some 0); node 1001 (Some 1); node 1002 (Some 1)].

Definition three_alive_ticks : Sportec.SportecTrackingDataInputs :=
  sportec_inputs [node 1000 (Some 1); node 1001 (Some 1); node 1002 (Some 1)].

(** The frames the loop of the markup reader has buffered, [[]] if it
    raised. *)
Definition sportec_buffer (c : Config)
  (inputs : Sportec.SportecTrackingDataInputs) : list Frame :=
  match Sportec.buffered_frames c inputs with
  | inr (frames, _) => frames
  | inl _ => []
  end.

(** A one-record archive of the line-delimited feed: frame number 0 at
    game clock 45 s. *)
Definition late_clock_archive : PFF.PFF_TrackingInputs :=
  pff_inputs [raw_frame (Some 1) 0 45 None].

(** Three regular-time records, read with [limit = 1] at
    [sample_rate = 0.5]: the read stops after two lines. *)
Definition pff_limited : PFF.PFF_TrackingDeserializer :=
  PFF.__init__ {| limit := Some 1; sample_rate := 1 # 2; only_alive := true |}.

Definition three_records_then_garbage : PFF.PFF_TrackingInputs :=
  {| PFF.meta_data := pff_meta;
     PFF.roster_meta_data := pff_roster;
     PFF.raw_data := [Some (raw_frame (Some 1) 0 0 None);
                      Some (raw_frame (Some 1) 1 (1 # 25) None);
                      Some (raw_frame (Some 1) 2 (2 # 25) None);
                      None] |}.

(** Records of periods 1, 5, 2 and 1, in that order of the file. *)
Definition mixed_periods : PFF.PFF_TrackingInputs :=
  pff_inputs [raw_frame (Some 1) 0 0 None;
              raw_frame (Some 5) 10 0 None;
              raw_frame (Some 2) 20 0 None;
              raw_frame (Some 1) 30 0 None].

(** Thirty extra-time frames: the home side stands left of the away side
    in the first twenty (estimate LTR) and right of it in the last ten. *)
Definition et_frame (n : Z) (home_x : Q) : PFF.RawFrame :=
  {| PFF.gameRefId := 1;
     PFF.rf_period := Some 3;
     PFF.frameNum := n;
     PFF.periodGameClockTime := 0;
     PFF.ballsSmoothed := None;
     PFF.homePlayersSmoothed :=
       Some [{| PFF.jerseyNum := "10"; PFF.rp_x := Some home_x; PFF.rp_y := Some 0%Q |}];
     PFF.awayPlayersSmoothed :=
       Some [{| PFF.jerseyNum := "9"; PFF.rp_x := Some 0%Q; PFF.rp_y := Some 0%Q |}];
     PFF.game_event := None |}.

Definition thirty_extra_time_frames : list Frame :=
  Eval vm_compute in
    pff_records pff_fresh
      (pff_inputs (map (fun n => et_frame n (if n <? 20 then -1 else 1)%Q)
                       (map Z.of_nat (seq 0 30)))).

(** An archive whose last record, which has no period, states possession
    for the away side. *)
Definition possession_in_last_record : PFF.PFF_TrackingInputs :=
  pff_inputs [raw_frame (Some 1) 0 0 (Some true);
              raw_frame (Some 1) 1 (1 # 25) None;
              raw_frame None 2 (2 # 25) (Some false)].

(** Two alive lines in which the home side fields jersey 10, which is on
    the roster, and jersey 7, which is not. *)
Definition line_with_substitute (fid : string) : string :=
  (fid ++ ":1,7,10,5.0,2.0,3.0;1,8,7,1.0,1.0,1.0;0,5,9,-5.0,-2.0,1.0;"
       ++ ":10.0,0.0,0.5,9.0,H,Alive;:")%string.

Definition substitute_twice : Tracab.TRACABInputs :=
  tracab_inputs [line_with_substitute "100"; " "; line_with_substitute "101"].

(** A penalty shoot-out listed as a fifth period. *)
Definition shoot_out : Period :=
  {| id := 5; start_timestamp := 400; end_timestamp := 500 |}.

(** A positions file without any frame set. *)
Definition empty_positions : Sportec.SportecTrackingDataInputs :=
  {| Sportec.meta_teams := (home_team, away_team);
     Sportec.meta_periods := [first_half; second_half];
     Sportec.meta_fps := 25;
     Sportec.raw_data := [] |}.

(** *** The event reader on a small match

    Stand-ins for the services of the event reader: the examples pass
    only integers and text to [str()], so [repr] is never consulted;
    [get_player_by_id] compares the text of the id with the player ids of
    the roster; every event is included and left where it is. *)
#[export] Instance services : Wyscout.Services := {
  Wyscout.py_repr := fun _ => "";
  Wyscout.float_of_text := decimal_float;
  Wyscout.get_player_by_id :=
    fun t j =>
      find (fun p => String.eqb (Wyscout.player_id p)
                       (match j with
                        | Wyscout.JString s => s
                        | Wyscout.JInteger n => py_str_int n
                        | _ => ""
                        end))
           (Wyscout.players t);
  Wyscout.should_include_event := fun _ => true;
  Wyscout.transform_event := fun e => e;
}.

Definition wy_player (wy : Z) (first last : string) : Wyscout.JSON :=
  Wyscout.JObject
    [("player", Wyscout.JObject [("wyId", Wyscout.JInteger wy);
                                 ("firstName", Wyscout.JString first);
                                 ("lastName", Wyscout.JString last)])].

Definition wy_team (official_name : string) : Wyscout.JSON :=
  Wyscout.JObject
    [("team", Wyscout.JObject [("officialName", Wyscout.JString official_name)])].

(** An event of the feed: its primary and secondary types, the half, the
    type-specific members, and the members every event carries. *)
Definition wy_event (primary : string) (secondary : list string)
  (match_period : string) (specific : list (string * Wyscout.JSON))
  : Wyscout.JSON :=
  Wyscout.JObject
    ([("type", Wyscout.JObject
                 [("primary", Wyscout.JString primary);
                  ("secondary",
                   Wyscout.JArray (map Wyscout.JString secondary))]);
      ("matchPeriod", Wyscout.JString match_period);
      ("minute", Wyscout.JInteger 1);
      ("second", Wyscout.JInteger 5);
      ("team", Wyscout.JObject [("id", Wyscout.JInteger 10)]);
      ("player", Wyscout.JObject [("id", Wyscout.JInteger 101)]);
      ("location", Wyscout.JObject [("x", Wyscout.JInteger 50);
                                    ("y", Wyscout.JInteger 40)]);
      ("possession", Wyscout.JNull)] ++ specific)%list.

Definition wy_pass (accurate : bool) : list (string * Wyscout.JSON) :=
  [("pass", Wyscout.JObject
              [("accurate", Wyscout.JBoolean accurate);
               ("recipient", Wyscout.JObject [("id", Wyscout.JInteger 102)]);
               ("endLocation", Wyscout.JObject [("x", Wyscout.JInteger 60);
                                                ("y", Wyscout.JInteger 45)])])].

Definition wy_shot (body_part : string) : list (string * Wyscout.JSON) :=
  [("shot", Wyscout.JObject
              [("isGoal", Wyscout.JBoolean false);
               ("onTarget", Wyscout.JBoolean true);
               ("goalZone", Wyscout.JString "gc");
               ("bodyPart", Wyscout.JString body_part)])].

(** A direct free kick struck with the left foot. *)
Definition free_kick_shot : Wyscout.JSON :=
  wy_event "free_kick" ["free_kick_shot"] "1H" (wy_shot "left_foot").

(** A corner crossed with the head marked as a head pass. *)
Definition corner_cross : Wyscout.JSON :=
  wy_event "corner" ["cross"] "1H" (wy_pass true).

(** A pass followed by the ball leaving the pitch. *)
Definition ball_out : Wyscout.JSON :=
  wy_event "game_interruption" ["ball_out"] "1H" [].

Definition wy_match (events : list Wyscout.JSON) : Wyscout.JSON :=
  Wyscout.JObject
    [("teams", Wyscout.JObject [("10", wy_team "Home FC");
                                ("20", wy_team "Away FC")]);
     ("players", Wyscout.JObject
                   [("10", Wyscout.JArray [wy_player 101 "Ada" "One";
                                           wy_player 102 "Bea" "Two"]);
                    ("20", Wyscout.JArray [wy_player 201 "Cy" "Three"])]);
     ("events", Wyscout.JArray events)].

(** Halves 1, 1, 2, 1: the first half comes back after the second. *)
Definition four_events : Wyscout.JSON :=
  wy_match [wy_event "pass" [] "1H" (wy_pass true);
            free_kick_shot;
            wy_event "pass" [] "2H" (wy_pass false);
            corner_cross].

Definition wy_member (team wy first last : string) : Wyscout.Player :=
  {| Wyscout.player_id := wy; Wyscout.player_team := team;
     Wyscout.first_name := Wyscout.JString first;
     Wyscout.last_name := Wyscout.JString last |}.

Definition wy_home : Wyscout.Team :=
  {| Wyscout.team_id := "10"; Wyscout.name := Wyscout.JString "Home FC";
     Wyscout.ground := HOME;
     Wyscout.players := [wy_member "10" "101" "Ada" "One";
                         wy_member "10" "102" "Bea" "Two"] |}.

Definition wy_away : Wyscout.Team :=
  {| Wyscout.team_id := "20"; Wyscout.name := Wyscout.JString "Away FC";
     Wyscout.ground := AWAY;
     Wyscout.players := [wy_member "20" "201" "Cy" "Three"] |}.

(** The [teams] and [players] dicts the event loop of [four_events] runs
    with. *)
Definition wy_teams : list (string * Wyscout.Team) :=
  [("10", wy_home); ("20", wy_away)].

Definition wy_rosters : list (string * list (string * Wyscout.Player)) :=
  [("10", [("101", wy_member "10" "101" "Ada" "One");
           ("102", wy_member "10" "102" "Bea" "Two")]);
   ("20", [("201", wy_member "20" "201" "Cy" "Three")])].

(** A corner played short, with its id set. *)
Definition corner_with_id : Wyscout.JSON :=
  wy_event "corner" ["cross"] "1H"
    (wy_pass true ++ [("id", Wyscout.JInteger 7)])%list.

(** A game interruption whose secondary type is a text, not a list. *)
Definition ball_out_text : Wyscout.JSON :=
  Wyscout.JObject
    [("type", Wyscout.JObject [("primary", Wyscout.JString "game_interruption");
                               ("secondary", Wyscout.JString "ball_out")])].

End Concrete.

(** ** Vocabulary of the statements *)

Module Terms.

(** The explicit possession value of a raw record of the line-delimited
    feed, when it carries one: [True] for the home side. *)
Definition explicit_side (f : PFF.RawFrame) : option bool :=
  match PFF.game_event f with
  | Some ge => PFF.home_ball ge
  | None => None
  end.

Definition omits_possession (f : PFF.RawFrame) : Prop := explicit_side f = None.

Definition side_ref (home away : TeamRef) (b : bool) : TeamRef :=
  if b then home else away.

(** The value of [self._ball_owning_team] after the records [l] have gone
    through the loop body of [_iter], starting from [init]. *)
Definition last_known (home away : TeamRef) (init : option TeamRef)
  (l : list PFF.RawFrame) : option TeamRef :=
  fold_left (PFF.observe home away) l init.

(** The elements of [l] whose running index [n, n+1, ...] passes the test
    [n % sample == 0]. *)
Fixpoint retain {A} (sample : Q) (n : Z) (l : list A) : list A :=
  match l with
  | [] => []
  | a :: r => if mod_is_zero n sample then a :: retain sample (n + 1) r
              else retain sample (n + 1) r
  end.



(** The invariant of the data model for a frame. *)
Definition timestamp_within_period (f : Frame) : Prop :=
  (start_timestamp (period f) <= timestamp f)%Q
  /\ (timestamp f <= end_timestamp (period f))%Q.

(** The raw records of the markup feed that pass the eligibility filters
    (has a ball entry, and is alive when [only_alive] is set), over all
    periods. *)
Definition sportec_eligible_tick (c : Config) (tick : Z * Sportec.FrameData)
  : bool :=
  match Sportec.classify c (snd tick) with
  | Sportec.Eligible _ => true
  | _ => false
  end.

Definition sportec_eligible (c : Config)
  (inputs : Sportec.SportecTrackingDataInputs) : list (Z * Sportec.FrameData) :=
  flat_map (fun p => match Sportec._read_section_data (Sportec.raw_data inputs) p with
                     | inr raw_frames => filter (sportec_eligible_tick c) raw_frames
                     | inl _ => []
                     end)
           (Sportec.meta_periods inputs).

(** The (period, line) pairs of the text feed that pass the eligibility
    filters: the line is not blank, is alive when [only_alive] is set, and
    its tick time falls in the period. *)
Definition tracab_eligible_of_line (c : Config) (ps : list Period) (rate : Q)
  (raw : string) : list (Period * string) :=
  match Tracab.classify c raw with
  | Tracab.Eligible line fid =>
      match true_div (inject_Z fid) rate with
      | inr t => map (fun p => (p, line))
                     (filter (fun p => Tracab.in_period p t) ps)
      | inl _ => []
      end
  | _ => []
  end.

Definition tracab_eligible (c : Config) (inputs : Tracab.TRACABInputs)
  : list (Period * string) :=
  flat_map (tracab_eligible_of_line c (Tracab.meta_periods inputs)
              (Tracab.meta_frame_rate inputs))
           (Tracab.raw_data inputs).













(** An exception of the direction check is either the [IndexError] of
    [et_frames[i]] or one raised by the primitive on a buffered frame. *)
Definition check_failure `{Collaborators} (et_frames : list Frame) (e : exn)
  : Prop :=
  e = IndexError
  \/ exists f, In f et_frames /\ attacking_direction_from_frame f = inl e.



Definition regular_time_frame (f : Frame) : Prop :=
  id (period f) = 1 \/ id (period f) = 2.

Definition extra_time_frame (f : Frame) : Prop :=
  id (period f) = 3 \/ id (period f) = 4.

(** The number of frames of a window whose estimate is [d], and the
    estimates of a window (where the primitive raises, no estimate). *)
Definition votes (ds : list AttackingDirection) (d : AttackingDirection) : Z :=
  Z.of_nat (List.length (filter (AttackingDirection_eqb d) ds)).

Definition estimates `{Collaborators} (window : list Frame)
  : list AttackingDirection :=
  flat_map (fun f => match attacking_direction_from_frame f with
                     | inr d => [d]
                     | inl _ => []
                     end) window.

(** The distinct elements of [ds] in the order they first occur. *)
Fixpoint first_seen (ds : list AttackingDirection) : list AttackingDirection :=
  match ds with
  | [] => []
  | d :: r => d :: filter (fun x => negb (AttackingDirection_eqb x d)) (first_seen r)
  end.

(** [t'] has the roster of [t], possibly with players added at the end. *)
Definition roster_extends (t t' : Team) : Prop :=
  team_ref t' = team_ref t
  /\ exists added, players t' = (players t ++ added)%list.

Definition distinct_jerseys (t : Team) : Prop :=
  NoDup (map jersey_no (players t)).

(** How the rosters of the two teams may change while lines are read. *)
Definition rosters_grow (teams_ teams' : Tracab.Teams) : Prop :=
  roster_extends (fst teams_) (fst teams')
  /\ roster_extends (snd teams_) (snd teams')
  /\ (distinct_jerseys (fst teams_) -> distinct_jerseys (fst teams'))
  /\ (distinct_jerseys (snd teams_) -> distinct_jerseys (snd teams')).

Definition on_rosters (teams_ : Tracab.Teams) (p : Player) : Prop :=
  In p (players (fst teams_)) \/ In p (players (snd teams_)).

(** A line [_iter] of the text-line reader skips as empty. *)
Definition is_blank (raw : string) : bool :=
  String.eqb (strip bytes_isspace raw) "".

Definition with_lines (inputs : Tracab.TRACABInputs) (lines : list string)
  : Tracab.TRACABInputs :=
  {| Tracab.meta_teams := Tracab.meta_teams inputs;
     Tracab.meta_periods := Tracab.meta_periods inputs;
     Tracab.meta_frame_rate := Tracab.meta_frame_rate inputs;
     Tracab.raw_data := lines |}.

(** The key under which [_read_section_data] files the nodes of a frame
    set: [ball] for the ball's track, the person id otherwise. *)
Definition track_key (fs : Sportec.FrameSet) : option string :=
  if String.eqb (Sportec.TeamId fs) "BALL" then Some "ball"
  else Sportec.PersonId fs.

(** Whether a raw-frame map holds an object under a frame number and a
    key. *)
Definition has_object (rf : Sportec.RawFrames) (fid : Z) (key : string) : bool :=
  match dict_get Z.eqb rf fid with
  | Some d => match dict_get String.eqb d key with
              | Some _ => true
              | None => false
              end
  | None => false
  end.

(** A period whose id names one of the four game sections. *)
Definition known_section (p : Period) : bool :=
  (1 <=? id p) && (id p <=? 4).

Definition with_periods (inputs : Sportec.SportecTrackingDataInputs)
  (ps : list Period) : Sportec.SportecTrackingDataInputs :=
  {| Sportec.meta_teams := Sportec.meta_teams inputs;
     Sportec.meta_periods := ps;
     Sportec.meta_fps := Sportec.meta_fps inputs;
     Sportec.raw_data := Sportec.raw_data inputs |}.

(** A sequence of period ids with adjacent repeats collapsed, after a
    previous id. *)
Fixpoint collapse_after (prev : option Z) (ids : list Z) : list Z :=
  match ids with
  | [] => []
  | i :: rest =>
      match prev with
      | Some p => if p =? i then collapse_after (Some i) rest
                  else i :: collapse_after (Some i) rest
      | None => i :: collapse_after (Some i) rest
      end
  end.

Definition collapse (ids : list Z) : list Z := collapse_after None ids.

(** The period ids of the events of a feed, in the order of the events. *)
Definition period_ids (raw_events : Wyscout.JSON) : Wyscout.outcome (list Z) :=
  Wyscout.and_then (Wyscout.getitem raw_events "events")
    (fun events =>
       Wyscout.and_then (Wyscout.py_iter events)
         (Wyscout.traverse Wyscout.period_id_of)).

(** The keywords each factory method takes besides the generic ones. *)
Definition specific_keys (b : Wyscout.Builder) : list string :=
  match b with
  | Wyscout.build_shot => ["result"; "result_coordinates"; "qualifiers"]
  | Wyscout.build_pass =>
      ["result"; "qualifiers"; "receive_timestamp"; "receiver_player";
       "receiver_coordinates"]
  | Wyscout.build_take_on | Wyscout.build_clearance => ["result"; "qualifiers"]
  | Wyscout.build_generic => ["result"; "qualifiers"; "event_name"]
  end.

Definition generic_keys : list string :=
  ["event_id"; "raw_event"; "coordinates"; "team"; "player";
   "ball_owning_team"; "ball_state"; "period"; "timestamp"].

(** The qualifiers [_parse_set_piece] itself makes: the counter-attack
    flag, the set-piece type and the hand pass of a throw-in. *)
Definition set_piece_qualifier (q : Wyscout.Qualifier) : bool :=
  match q with
  | Wyscout.CounterAttackQualifier _ => true
  | Wyscout.SetPieceQualifier _ => true
  | Wyscout.PassQualifier Wyscout.HAND_PASS => true
  | _ => false
  end.

End Terms.

Export Terms.

(** * Properties *)

(** ** Runtime helpers on concrete values *)

Example split_colon :
  split ":" "100:a;b;:x,y;:" = ["100"; "a;b;"; "x,y;"; ""].
Proof. reflexivity. Qed.

Example py_int_examples :
  py_int " -1" = ok (-1) /\ py_int "1_0" = ok 10 /\ py_int "07" = ok 7
  /\ is_ok (py_int "1__0") = false /\ is_ok (py_int "") = false
  /\ is_ok (py_int "H") = false.
Proof. repeat split; reflexivity. Qed.

Example endswith_alive :
  endswith "Alive;:" "1:;:0,0,0,0,H,Alive;:" = true
  /\ endswith "Alive;:" "Dead;:" = false.
Proof. split; reflexivity. Qed.

Example mod_is_zero_examples :
  map (fun n => mod_is_zero n (5 # 2)) [0; 1; 2; 3; 4; 5]
  = [true; false; false; false; false; true].
Proof. reflexivity. Qed.

Example timedelta_example : (timedelta (2500 / 25) == 100)%Q.
Proof. reflexivity. Qed.

Example decimal_float_examples :
  map Concrete.decimal_float ["5.0"; "-2.0"; ".5"; "10"]
  = [ok 5%Q; ok (-2)%Q; ok (1 # 2)%Q; ok 10%Q]
  /\ is_ok (Concrete.decimal_float "H") = false.
Proof. split; reflexivity. Qed.

(** ** The extra-time mirror *)

Lemma Qopp_twice (q : Q) : (- - q)%Q = q.
Proof. destruct q as [n d]. unfold Qopp. simpl. now rewrite Z.opp_involutive. Qed.

Lemma flip_point_twice (p : Point) : PFF.flip_point (PFF.flip_point p) = p.
Proof.
  destruct p as [[a|] [b|]]; unfold PFF.flip_point; simpl; try reflexivity.
  now rewrite !Qopp_twice.
Qed.

Lemma flip_ball_twice (b : Point3D) : PFF.flip_ball (PFF.flip_ball b) = b.
Proof.
  destruct b as [[a|] [c|] z]; unfold PFF.flip_ball; simpl; try reflexivity.
  now rewrite !Qopp_twice.
Qed.

Lemma flip_ball_z (b : Point3D) : z3 (PFF.flip_ball b) = z3 b.
Proof. destruct b as [[a|] [c|] z]; reflexivity. Qed.

Lemma flip_player_data_twice (pd : PlayerData) :
  PFF.flip_player_data (PFF.flip_player_data pd) = pd.
Proof.
  destruct pd as [c s]. unfold PFF.flip_player_data. simpl.
  now rewrite flip_point_twice.
Qed.

(** C9. The mirror applied to an extra-time frame negates x and y of the
    ball and of every player; applied twice it gives the frame back, and
    it never touches the ball's z, the players' speeds, the keys of
    [players_data], or any field that is not a coordinate. *)
Theorem flip_frame_involutive (f : Frame) :
  PFF.flip_frame (PFF.flip_frame f) = f
  /\ z3 (ball_coordinates (PFF.flip_frame f)) = z3 (ball_coordinates f)
  /\ frame_id (PFF.flip_frame f) = frame_id f
  /\ timestamp (PFF.flip_frame f) = timestamp f
  /\ ball_state (PFF.flip_frame f) = ball_state f
  /\ ball_owning_team (PFF.flip_frame f) = ball_owning_team f
  /\ period (PFF.flip_frame f) = period f
  /\ map fst (players_data (PFF.flip_frame f)) = map fst (players_data f)
  /\ map (fun e => speed (snd e)) (players_data (PFF.flip_frame f))
     = map (fun e => speed (snd e)) (players_data f).
Proof.
  repeat split; try reflexivity.
  - destruct f as [fid ts ball bs owner pd p]. unfold PFF.flip_frame. simpl.
    rewrite flip_ball_twice. f_equal.
    rewrite map_map. simpl.
    induction pd as [|[k v] pd IH]; simpl; [reflexivity|].
    now rewrite flip_player_data_twice, IH.
  - apply flip_ball_z.
  - simpl. rewrite map_map. reflexivity.
  - simpl. rewrite map_map. reflexivity.
Qed.

(** The mirror on coordinates that are present is the point reflection
    through the origin. *)
Lemma flip_point_negates (a b : Q) :
  PFF.flip_point {| x := Some a; y := Some b |}
  = {| x := Some (- a)%Q; y := Some (- b)%Q |}.
Proof. reflexivity. Qed.

(** ** The direction check over the extra-time buffer *)

Section DirectionCheck.
Context `{Collaborators}.

Lemma check_loop_out_of_range (et_frames : list Frame) (idx : list nat) :
  forall counts,
    (exists i, In i idx /\ (List.length et_frames <= i)%nat) ->
    exists e, PFF.check_loop et_frames idx counts = inl e
              /\ check_failure et_frames e.
Proof.
  induction idx as [|i rest IH]; intros counts [j [Hin Hj]].
  - destruct Hin.
  - simpl. destruct (nth_error et_frames i) as [f|] eqn:Hnth; simpl.
    + destruct (attacking_direction_from_frame f) as [e|d] eqn:Hd; simpl.
      * exists e. split; [reflexivity|]. right. exists f. split; [|exact Hd].
        eapply nth_error_In; eauto.
      * apply IH. destruct Hin as [-> | Hin].
        -- exfalso. apply nth_error_None in Hj. congruence.
        -- exists j. auto.
    + exists IndexError. split; [reflexivity | now left].
Qed.

Lemma check_att_direction_short (et_frames : list Frame) (w : nat) :
  (List.length et_frames < w)%nat ->
  exists e, PFF.__check_att_direction et_frames w = inl e
            /\ check_failure et_frames e.
Proof.
  intros Hlen. unfold PFF.__check_att_direction.
  destruct (check_loop_out_of_range et_frames (seq 0 w) [])
    as [e [He Hf]].
  - exists (List.length et_frames). split; [|lia]. apply in_seq. lia.
  - exists e. rewrite He. auto.
Qed.

Lemma correct_extra_time_short (d : AttackingDirection)
  (frames et_frames : list Frame) :
  (0 < List.length et_frames < 25)%nat ->
  exists e, PFF.correct_extra_time d frames et_frames = inl e
            /\ check_failure et_frames e.
Proof.
  intros [Hpos Hlt]. unfold PFF.correct_extra_time.
  destruct et_frames as [|f et]; [simpl in Hpos; lia|].
  destruct (check_att_direction_short (f :: et) 25 Hlt) as [e [He Hf]].
  exists e. rewrite He. auto.
Qed.

(** C10. When the frame loop of the line-delimited reader leaves an
    extra-time buffer of at least one and fewer than 25 frames, the call
    raises: the 25-step loop of the direction check indexes the buffer
    without a bound test, so the exception is the [IndexError] of
    [et_frames[i]], unless the direction primitive itself raised on a
    buffered frame before that index was reached. *)
Theorem short_extra_time_segment_fails
  (self : PFF.PFF_TrackingDeserializer) (inputs : PFF.PFF_TrackingInputs)
  (ld : PFF.Loaded) (frames et_frames : list Frame) (owner : option TeamRef) :
  PFF.load (PFF.cfg self) inputs = inr ld ->
  PFF.buffer_frames self ld = (inr (frames, et_frames), owner) ->
  (0 < List.length et_frames < 25)%nat ->
  exists e, fst (PFF.deserialize self inputs) = inl e
            /\ check_failure et_frames e.
Proof.
  intros Hload Hbuf Hlen. unfold PFF.deserialize.
  rewrite Hload, Hbuf. simpl.
  destruct (correct_extra_time_short (PFF.l_direction ld) frames et_frames Hlen)
    as [e [He Hf]].
  exists e. rewrite He. auto.
Qed.

(** With 25 or more buffered frames on which the primitive answers, the
    check produces a verdict. *)
Lemma check_loop_in_range (et_frames : list Frame) (idx : list nat) :
  forall counts,
    (forall i, In i idx -> (i < List.length et_frames)%nat) ->
    (forall f, In f et_frames -> is_ok (attacking_direction_from_frame f) = true) ->
    is_ok (PFF.check_loop et_frames idx counts) = true.
Proof.
  induction idx as [|i rest IH]; intros counts Hidx Hprim; [reflexivity|].
  simpl. destruct (nth_error et_frames i) as [f|] eqn:Hnth.
  - simpl. specialize (Hprim f (nth_error_In _ _ Hnth)) as Hf.
    destruct (attacking_direction_from_frame f); [discriminate|]. simpl.
    apply IH; auto. intros j Hj. apply Hidx. now right.
  - apply nth_error_None in Hnth. specialize (Hidx i (or_introl eq_refl)). lia.
Qed.

End DirectionCheck.

(** A run with a single extra-time frame ends in the [IndexError]. *)
Lemma short_extra_time_segment_fails_witness :
  fst (PFF.deserialize (H := Concrete.collaborators)
         Concrete.pff_fresh Concrete.one_extra_time_frame)
  = inl IndexError.
Proof.
  destruct (short_extra_time_segment_fails (H := Concrete.collaborators)
              Concrete.pff_fresh Concrete.one_extra_time_frame
              _ _ _ _ eq_refl eq_refl) as [e [He _]].
  - vm_compute. lia.
  - rewrite He. vm_compute in He. congruence.
Defined.

(** ** Possession carry-forward in the line-delimited reader *)

Lemma observe_explicit (home away : TeamRef) (owner : option TeamRef)
  (f : PFF.RawFrame) :
  PFF.observe home away owner f
  = match explicit_side f with
    | Some b => Some (side_ref home away b)
    | None => owner
    end.
Proof.
  unfold PFF.observe, explicit_side.
  destruct (PFF.game_event f) as [ge|]; [destruct (PFF.home_ball ge)|];
    reflexivity.
Qed.

Lemma last_known_cons (home away : TeamRef) (init : option TeamRef)
  (f : PFF.RawFrame) (l : list PFF.RawFrame) :
  last_known home away init (f :: l)
  = last_known home away (PFF.observe home away init f) l.
Proof. reflexivity. Qed.

Lemma last_known_omitted (home away : TeamRef) (l : list PFF.RawFrame) :
  forall init, Forall omits_possession l -> last_known home away init l = init.
Proof.
  induction l as [|f l IH]; intros init Hall; [reflexivity|].
  inversion Hall as [|? ? Hf Hl]; subst.
  rewrite last_known_cons, observe_explicit, Hf. now apply IH.
Qed.

Lemma last_known_most_recent (home away : TeamRef) (init : option TeamRef)
  (pre1 pre2 : list PFF.RawFrame) (q : PFF.RawFrame) (b : bool) :
  explicit_side q = Some b ->
  Forall omits_possession pre2 ->
  last_known home away init (pre1 ++ q :: pre2) = Some (side_ref home away b).
Proof.
  intros Hq Hpre2. unfold last_known. rewrite fold_left_app. simpl.
  rewrite observe_explicit, Hq. now apply last_known_omitted.
Qed.

(** Every item the generator yields is a record of the stream that has a
    period, and the attribute it leaves for the consumer is the record's
    own possession value, or else what the records before it left. *)
Lemma iter_loop_items (sample : Q) (home away : TeamRef)
  (raw : list PFF.RawFrame) :
  forall n owner it,
    In it (fst (PFF.iter_loop sample home away raw n owner)) ->
    exists pre post,
      raw = (pre ++ PFF.y_frame it :: post)%list
      /\ PFF.y_owner it
         = PFF.observe home away (last_known home away owner pre) (PFF.y_frame it)
      /\ PFF.rf_period (PFF.y_frame it) = Some (PFF.y_period it).
Proof.
  induction raw as [|f rest IH]; intros n owner it Hin; [destruct Hin|].
  simpl in Hin.
  assert (Hrest : forall m,
             In it (fst (PFF.iter_loop sample home away rest m
                           (PFF.observe home away owner f))) ->
             exists pre post,
               (f :: rest = pre ++ PFF.y_frame it :: post)%list
               /\ PFF.y_owner it
                  = PFF.observe home away (last_known home away owner pre)
                      (PFF.y_frame it)
               /\ PFF.rf_period (PFF.y_frame it) = Some (PFF.y_period it)).
  { intros m Hm. destruct (IH _ _ _ Hm) as [pre [post [Hraw [Ho Hp]]]].
    exists (f :: pre), post. rewrite Hraw. repeat split; auto. }
  destruct (PFF.rf_period f) as [p|] eqn:Hp; [|eauto].
  destruct (PFF.iter_loop sample home away rest (n + 1)
              (PFF.observe home away owner f)) as [ys final] eqn:Hloop.
  assert (Hys : In it ys -> In it (fst (PFF.iter_loop sample home away rest
                  (n + 1) (PFF.observe home away owner f))))
    by now rewrite Hloop.
  simpl in Hin. destruct (mod_is_zero n sample); [|eauto].
  destruct Hin as [<- | Hin]; [|eauto].
  exists [], rest. simpl. auto.
Qed.

Lemma get_frame_data_fields (players_ : PFF.Roster * PFF.Roster)
  (periods_ : list (Z * Period)) (owner : option TeamRef) (r : PFF.RawFrame)
  (f : Frame) :
  PFF._get_frame_data players_ periods_ owner r = inr f ->
  ball_owning_team f = owner
  /\ frame_id f = PFF.frameNum r
  /\ timestamp f = timedelta (PFF.periodGameClockTime r)
  /\ exists p, PFF.rf_period r = Some p
               /\ dict_get Z.eqb periods_ p = Some (period f).
Proof.
  unfold PFF._get_frame_data. intros Hf.
  destruct (PFF.side_block (fst players_) (PFF.homePlayersSmoothed r) None [])
    as [e|[player pd]]; [discriminate|]. simpl in Hf.
  destruct (PFF.side_block (snd players_) (PFF.awayPlayersSmoothed r) player pd)
    as [e|[player' pd']]; [discriminate|]. simpl in Hf.
  destruct (PFF.rf_period r) as [key|]; [|discriminate]. simpl in Hf.
  destruct (dict_get Z.eqb periods_ key) as [p|] eqn:Hp; [|discriminate].
  simpl in Hf. injection Hf as <-. simpl. repeat split. eauto.
Qed.

(** Every frame in the two buffers was there before the loop, or was
    assembled from one of the items. *)
Lemma frames_loop_frames (c : Config) (players_ : PFF.Roster * PFF.Roster)
  (periods_ : list (Z * Period)) (items : list PFF.Yielded)
  (final : option TeamRef) :
  forall n frames et frames' et' owner,
    PFF.frames_loop c players_ periods_ items final n frames et
    = (inr (frames', et'), owner) ->
    forall f, In f (frames' ++ et') ->
      In f (frames ++ et)
      \/ exists it, In it items
           /\ PFF._get_frame_data players_ periods_ (PFF.y_owner it)
                (PFF.y_frame it) = inr f.
Proof.
  induction items as [|it rest IH]; intros n frames et frames' et' owner Hloop f Hf.
  - simpl in Hloop. injection Hloop as <- <- _. now left.
  - simpl in Hloop.
    destruct (PFF._get_frame_data players_ periods_ (PFF.y_owner it)
                (PFF.y_frame it)) as [e|frame] eqn:Hframe; [discriminate|].
    assert (Hnew : forall g,
      In g ((if PFF.is_regular_time (PFF.y_period it)
             then frames ++ [frame] else frames)
            ++ (if PFF.is_regular_time (PFF.y_period it) then et
                else if PFF.is_extra_time (PFF.y_period it)
                     then et ++ [frame] else et)) ->
      In g (frames ++ et) \/ g = frame).
    { intros g Hg.
      destruct (PFF.is_regular_time (PFF.y_period it));
        [|destruct (PFF.is_extra_time (PFF.y_period it))];
        rewrite ?in_app_iff in *; simpl in *; intuition (subst; auto). }
    destruct (truthy_limit (limit c) && (limit_value (limit c) <=? n + 1)).
    + injection Hloop as <- <- _.
      destruct (Hnew f Hf) as [H | ->]; [now left|].
      right. exists it. split; [now left | exact Hframe].
    + destruct (IH _ _ _ _ _ _ Hloop f Hf) as [H|[it' [Hin Hit']]].
      * destruct (Hnew f H) as [H' | ->]; [now left|].
        right. exists it. split; [now left | exact Hframe].
      * right. exists it'. split; [now right | exact Hit'].
Qed.

Section CarryForward.
Context `{Collaborators}.

Lemma correct_extra_time_records (d : AttackingDirection)
  (frames et recs : list Frame) :
  PFF.correct_extra_time d frames et = inr recs ->
  forall f, In f recs ->
    exists f0, In f0 (frames ++ et) /\ (f = f0 \/ f = PFF.flip_frame f0).
Proof.
  unfold PFF.correct_extra_time. intros Hrecs f Hf.
  destruct et as [|e0 et].
  - injection Hrecs as <-. exists f. rewrite app_nil_r. auto.
  - remember (e0 :: et) as et0 eqn:Het0.
    destruct (PFF.__check_att_direction et0 25) as [e|d']; [discriminate|].
    simpl in Hrecs. injection Hrecs as <-.
    apply in_app_iff in Hf. destruct Hf as [Hf|Hf].
    + exists f. split; [apply in_app_iff; now left | now left].
    + destruct (negb (AttackingDirection_eqb d d')).
      * apply in_map_iff in Hf. destruct Hf as [f0 [<- Hf0]].
        exists f0. split; [apply in_app_iff; now right | now right].
      * exists f. split; [apply in_app_iff; now right | now left].
Qed.

(** C5. In one [deserialize] call of the line-delimited reader, every
    frame of the returned dataset was assembled from a record [r] of the
    stream, and its [ball_owning_team] is: the record's own possession
    value when it carries one; otherwise the value of the most recent
    earlier record that carried one; and, when no record so far carried
    one, the value the attribute had when the call started.  It is never
    reset to unknown once a value has been seen. *)
Theorem possession_carried_forward
  (self : PFF.PFF_TrackingDeserializer) (inputs : PFF.PFF_TrackingInputs)
  (ld : PFF.Loaded) (ds : TrackingDataset) (self' : PFF.PFF_TrackingDeserializer)
  (f : Frame) :
  PFF.load (PFF.cfg self) inputs = inr ld ->
  PFF.deserialize self inputs = (inr ds, self') ->
  In f (records ds) ->
  exists pre r post,
    PFF.l_raw ld = (pre ++ r :: post)%list
    /\ frame_id f = PFF.frameNum r
    /\ (forall b, explicit_side r = Some b ->
          ball_owning_team f = Some (side_ref (PFF.l_home ld) (PFF.l_away ld) b))
    /\ (omits_possession r ->
        forall pre1 q pre2 b,
          pre = (pre1 ++ q :: pre2)%list ->
          explicit_side q = Some b ->
          Forall omits_possession pre2 ->
          ball_owning_team f = Some (side_ref (PFF.l_home ld) (PFF.l_away ld) b))
    /\ (omits_possession r ->
        Forall omits_possession pre ->
        ball_owning_team f = PFF._ball_owning_team self).
Proof.
  intros Hload Hds Hf. unfold PFF.deserialize in Hds. rewrite Hload in Hds.
  destruct (PFF.buffer_frames self ld) as [r owner] eqn:Hbuf.
  injection Hds as Hds _.
  destruct r as [e|[frames et]]; [discriminate|]. simpl in Hds.
  destruct (PFF.correct_extra_time (PFF.l_direction ld) frames et)
    as [e|recs] eqn:Hrecs; [discriminate|].
  simpl in Hds. injection Hds as <-. simpl in Hf.
  destruct (correct_extra_time_records _ _ _ _ Hrecs f Hf) as [f0 [Hf0 Hff0]].
  unfold PFF.buffer_frames in Hbuf.
  destruct (PFF.iter_loop (PFF.l_sample ld) (PFF.l_home ld) (PFF.l_away ld)
              (PFF.l_raw ld) 0 (PFF._ball_owning_team self))
    as [items final] eqn:Hiter.
  destruct (frames_loop_frames _ _ _ _ _ _ _ _ _ _ _ Hbuf f0 Hf0)
    as [[]|[it [Hit Hget]]].
  assert (Hit' : In it (fst (PFF.iter_loop (PFF.l_sample ld) (PFF.l_home ld)
                               (PFF.l_away ld) (PFF.l_raw ld) 0
                               (PFF._ball_owning_team self))))
    by now rewrite Hiter.
  destruct (iter_loop_items _ _ _ _ _ _ _ Hit') as [pre [post [Hraw [Hown _]]]].
  destruct (get_frame_data_fields _ _ _ _ _ Hget) as [Hbot [Hid _]].
  assert (Hsame : ball_owning_team f = ball_owning_team f0
                  /\ frame_id f = frame_id f0)
    by (destruct Hff0 as [-> | ->]; split; reflexivity).
  destruct Hsame as [Hb Hi].
  exists pre, (PFF.y_frame it), post.
  rewrite Hb, Hi, Hbot, Hid, Hown, observe_explicit.
  split; [exact Hraw|]. split; [reflexivity|].
  split; [|split].
  - intros b Hexp. now rewrite Hexp.
  - intros Hom pre1 q pre2 b -> Hq Hpre2. rewrite Hom.
    now apply last_known_most_recent.
  - intros Hom Hpre. rewrite Hom. now apply last_known_omitted.
Qed.

End CarryForward.

(** The scenario of the specification: possession [a, absent, b] over
    three consecutive records gives [a, a, b]. *)
Example possession_A_absent_B (a b : bool) :
  exists ds self',
    PFF.deserialize (H := Concrete.collaborators) Concrete.pff_fresh
      (Concrete.possession_stream a b) = (inr ds, self')
    /\ map ball_owning_team (records ds)
       = [Some (side_ref Concrete.home_ref Concrete.away_ref a);
          Some (side_ref Concrete.home_ref Concrete.away_ref a);
          Some (side_ref Concrete.home_ref Concrete.away_ref b)].
Proof.
  destruct a, b; eexists; eexists; split; vm_compute; reflexivity.
Qed.

(** The frame of the record that omits possession, between a home and an
    away record, is owned by the home side. *)
Lemma possession_carried_forward_witness :
  In Concrete.middle_frame
     (Concrete.pff_records Concrete.pff_fresh (Concrete.possession_stream true false))
  /\ ball_owning_team Concrete.middle_frame = Some Concrete.home_ref.
Proof.
  assert (Hin : In Concrete.middle_frame
                  (Concrete.pff_records Concrete.pff_fresh
                     (Concrete.possession_stream true false)))
    by (vm_compute; auto).
  split; [exact Hin|].
  destruct (possession_carried_forward (H := Concrete.collaborators)
              Concrete.pff_fresh (Concrete.possession_stream true false)
              _ _ _ Concrete.middle_frame eq_refl eq_refl Hin)
    as (pre & r & post & Hraw & Hid & _ & Hcarry & _).
  vm_compute in Hraw.
  destruct pre as [|p1 [|p2 [|p3 pre]]]; simpl in Hraw.
  - injection Hraw as <- _. vm_compute in Hid. discriminate.
  - injection Hraw as <- <- _.
    apply (Hcarry eq_refl [] _ [] true eq_refl eq_refl (Forall_nil _)).
  - injection Hraw as _ _ <- _. vm_compute in Hid. discriminate.
  - injection Hraw as _ _ _ Hraw. destruct pre; discriminate.
Defined.

(** ** The possession attribute across calls *)

(** The constructor sets the attribute to unknown. *)
Lemma init_owner_unknown (c : Config) :
  PFF._ball_owning_team (PFF.__init__ c) = None.
Proof. reflexivity. Qed.




Section AcrossCalls.
Context `{Collaborators}.


End AcrossCalls.


(** ** Roster extension *)

Lemma Jersey_eqb_eq (a b : Jersey) : Jersey_eqb a b = true <-> a = b.
Proof.
  destruct a as [m|s1], b as [n|s2]; simpl; split; intros Hab;
    try discriminate; try congruence.
  - apply Z.eqb_eq in Hab. congruence.
  - injection Hab as ->. apply Z.eqb_refl.
  - apply String.eqb_eq in Hab. congruence.
  - injection Hab as ->. apply String.eqb_refl.
Qed.

Lemma find_app_none {A} (test : A -> bool) (l1 l2 : list A) :
  find test l1 = None -> find test (l1 ++ l2) = find test l2.
Proof.
  induction l1 as [|a l1 IH]; simpl; [reflexivity|].
  destruct (test a); [discriminate | exact IH].
Qed.

(** In the text-line reader a jersey number that the roster does not
    hold adds exactly one placeholder, named after side and jersey, at the
    end of the roster. *)
Lemma tracab_unseen_jersey_adds_one (t : Team) (jersey : string) (n : Z) :
  py_int jersey = ok n ->
  (forall p, In p (players t) -> jersey_no p <> JInt n) ->
  exists p,
    Tracab.resolve_player t jersey
    = ok (p, {| team_ref := team_ref t; players := (players t ++ [p])%list |})
    /\ player_id p = (Ground_str (ground (team_ref t)) ++ "_" ++ jersey)%string
    /\ jersey_no p = JInt n
    /\ team p = team_ref t.
Proof.
  intros Hint Hnew. unfold Tracab.resolve_player, get_player_by_jersey_number.
  rewrite Hint. simpl.
  destruct (find (fun p => Jersey_eqb (jersey_no p) (JInt n)) (players t))
    as [p|] eqn:Hfind.
  - apply find_some in Hfind. destruct Hfind as [Hin Heq].
    apply Jersey_eqb_eq in Heq. now destruct (Hnew p Hin).
  - simpl. eexists. split; [reflexivity|]. simpl. auto.
Qed.

(** Once resolved, the same jersey text resolves to the same player and
    the roster no longer grows. *)
Lemma tracab_seen_jersey_reuses (t t' : Team) (jersey : string) (p : Player) :
  Tracab.resolve_player t jersey = ok (p, t') ->
  Tracab.resolve_player t' jersey = ok (p, t').
Proof.
  unfold Tracab.resolve_player, get_player_by_jersey_number.
  destruct (py_int jersey) as [e|n] eqn:Hint; simpl; [discriminate|].
  destruct (find (fun q => Jersey_eqb (jersey_no q) (JInt n)) (players t))
    as [q|] eqn:Hfind; simpl; intros Hres.
  - injection Hres as <- <-. rewrite Hfind. reflexivity.
  - injection Hres as <- <-. simpl.
    rewrite (find_app_none _ _ _ Hfind). simpl. rewrite Z.eqb_refl. reflexivity.
Qed.

(** C6 at a failing input.  In the line-delimited reader the unseen
    jersey 99 creates no player: the loop variable [player] keeps the last
    roster entry it visited, here the player with jersey 10, whose entry in
    [players_data] is overwritten with the coordinates sent for jersey 99.
    The roster of the home team still has one player. *)
Theorem pff_unseen_jersey_takes_roster_player :
  exists ds self',
    PFF.deserialize (H := Concrete.collaborators) Concrete.pff_fresh
      Concrete.unseen_jersey_archive = (inr ds, self')
    /\ map player_id (players (fst (teams (metadata ds)))) = ["h10"]
    /\ map Concrete.tracked (records ds)
       = [[("h10", {| x := Some 1%Q; y := Some 1%Q |});
           ("a9", {| x := Some 6%Q; y := Some 7%Q |})]].
Proof.
  eexists. eexists. split; [vm_compute; reflexivity|].
  split; vm_compute; reflexivity.
Qed.

(** ** The limit *)

(** C4 at a failing input.  With [limit = 1] and three eligible lines the
    text-line reader returns two frames: [enumerate] counts from zero and
    the test [n >= self.limit] comes after the append, so the loop is left
    one frame late. *)
Theorem tracab_limit_one_gives_two_frames :
  exists ds,
    Tracab.deserialize (H := Concrete.collaborators) (Concrete.cfg_limit 1)
      (Concrete.tracab_inputs
         [Concrete.alive_line "100"; Concrete.alive_line "101";
          Concrete.alive_line "102"]) = inr ds
    /\ map frame_id (records ds) = [100; 101].
Proof. eexists. split; vm_compute; reflexivity. Qed.

(** The line-delimited reader counts the frame before the test and stops
    in time. *)
Lemma pff_frames_loop_limit (c : Config) (players_ : PFF.Roster * PFF.Roster)
  (periods_ : list (Z * Period)) (items : list PFF.Yielded)
  (final : option TeamRef) (l : Z) :
  limit c = Some l -> 0 < l ->
  forall n frames et frames' et' owner,
    PFF.frames_loop c players_ periods_ items final n frames et
    = (inr (frames', et'), owner) ->
    Z.of_nat (List.length frames + List.length et) <= n -> n < l ->
    Z.of_nat (List.length frames' + List.length et') <= l.
Proof.
  intros Hl Hpos.
  induction items as [|it rest IH]; intros n frames et frames' et' owner Hloop Hn Hlt.
  - simpl in Hloop. injection Hloop as <- <- _. lia.
  - simpl in Hloop.
    destruct (PFF._get_frame_data players_ periods_ (PFF.y_owner it)
                (PFF.y_frame it)) as [e|frame]; [discriminate|].
    assert (Hgrow :
      Z.of_nat (List.length (if PFF.is_regular_time (PFF.y_period it)
                             then frames ++ [frame] else frames)
                + List.length (if PFF.is_regular_time (PFF.y_period it) then et
                               else if PFF.is_extra_time (PFF.y_period it)
                                    then et ++ [frame] else et))
      <= n + 1).
    { destruct (PFF.is_regular_time (PFF.y_period it));
        [|destruct (PFF.is_extra_time (PFF.y_period it))];
        rewrite ?length_app; simpl; lia. }
    rewrite Hl in Hloop. simpl in Hloop.
    destruct (l =? 0) eqn:Hz; [apply Z.eqb_eq in Hz; lia|]. simpl in Hloop.
    destruct (l <=? n + 1) eqn:Hbreak.
    + injection Hloop as <- <- _. lia.
    + apply Z.leb_gt in Hbreak. eapply IH; eauto.
Qed.

Section Limit.
Context `{Collaborators}.

Lemma correct_extra_time_length (d : AttackingDirection)
  (frames et recs : list Frame) :
  PFF.correct_extra_time d frames et = inr recs ->
  List.length recs = (List.length frames + List.length et)%nat.
Proof.
  unfold PFF.correct_extra_time. intros Hrecs.
  destruct et as [|e0 et].
  - injection Hrecs as <-. simpl. lia.
  - remember (e0 :: et) as et0 eqn:Het0.
    destruct (PFF.__check_att_direction et0 25) as [e|d']; [discriminate|].
    simpl in Hrecs. injection Hrecs as <-.
    rewrite length_app. destruct (negb (AttackingDirection_eqb d d'));
      now rewrite ?length_map.
Qed.

(** X17. With a positive limit the line-delimited reader returns at most
    that many frames. *)
Lemma pff_limit_respected (self : PFF.PFF_TrackingDeserializer)
  (inputs : PFF.PFF_TrackingInputs) (ds : TrackingDataset)
  (self' : PFF.PFF_TrackingDeserializer) (l : Z) :
  limit (PFF.cfg self) = Some l -> 0 < l ->
  PFF.deserialize self inputs = (inr ds, self') ->
  Z.of_nat (List.length (records ds)) <= l.
Proof.
  intros Hl Hpos Hds. unfold PFF.deserialize in Hds.
  destruct (PFF.load (PFF.cfg self) inputs) as [e|ld]; [discriminate|].
  destruct (PFF.buffer_frames self ld) as [r owner] eqn:Hbuf.
  injection Hds as Hds _.
  destruct r as [e|[frames et]]; [discriminate|]. simpl in Hds.
  destruct (PFF.correct_extra_time (PFF.l_direction ld) frames et)
    as [e|recs] eqn:Hrecs; [discriminate|].
  simpl in Hds. injection Hds as <-. simpl.
  rewrite (correct_extra_time_length _ _ _ _ Hrecs).
  unfold PFF.buffer_frames in Hbuf.
  destruct (PFF.iter_loop (PFF.l_sample ld) (PFF.l_home ld) (PFF.l_away ld)
              (PFF.l_raw ld) 0 (PFF._ball_owning_team self)) as [items final].
  eapply pff_frames_loop_limit; eauto. simpl. lia.
Qed.

End Limit.

(** ** Frame counts *)

Section SportecRecords.
Context `{Collaborators}.

(** Whatever the markup reader has buffered, the dataset it returns has
    no records. *)
Lemma sportec_records_empty (c : Config)
  (inputs : Sportec.SportecTrackingDataInputs) (ds : TrackingDataset) :
  Sportec.deserialize c inputs = inr ds -> records ds = [].
Proof.
  unfold Sportec.deserialize. intros Hds.
  destruct (Sportec.buffered_frames c inputs) as [e|[frames dirs]];
    [discriminate|]. simpl in Hds.
  destruct (hd_error (Sportec.meta_periods inputs)); [|discriminate].
  simpl in Hds. injection Hds as <-. reflexivity.
Qed.

End SportecRecords.

(** C2 at a failing input.  With [sample_rate = 1.0] and no limit, an
    archive of the markup feed with one eligible record yields a dataset
    with no frame: the loop buffers the frame, and [deserialize] then
    builds the dataset with [records=[]]. *)
Theorem sportec_returns_no_frames :
  exists ds frames dirs,
    Sportec.deserialize (H := Concrete.collaborators) Concrete.default_cfg
      Concrete.one_alive_tick = inr ds
    /\ List.length (records ds) = 0%nat
    /\ Sportec.buffered_frames (H := Concrete.collaborators)
         Concrete.default_cfg Concrete.one_alive_tick = inr (frames, dirs)
    /\ map frame_id frames = [1000]
    /\ List.length (sportec_eligible Concrete.default_cfg Concrete.one_alive_tick)
       = 1%nat.
Proof.
  eexists. eexists. eexists.
  split; [vm_compute; reflexivity|]. split; [reflexivity|].
  split; [vm_compute; reflexivity|]. split; vm_compute; reflexivity.
Qed.

(** ** The text-line reader: what reaches frame assembly *)

(** Case analysis on every [bind] and [match] of a hypothesis that says
    a computation succeeded. *)
Ltac invert_ok H :=
  repeat match type of H with
         | context [Py.bind ?c _] =>
             let E := fresh "E" in
             destruct c eqn:E; simpl in H; try discriminate H
         | context [match ?c with _ => _ end] =>
             let E := fresh "E" in
             destruct c eqn:E; simpl in H; try discriminate H
         end.

(** The pairs yielded for one line name that line and a period that
    contains the tick time of the scanned id. *)
Lemma period_loop_items (sample rate : Q) (fid : Z) (line : string)
  (ps : list Period) :
  forall n p l,
    In (p, l) (fst (Tracab.period_loop sample rate fid line ps n)) ->
    l = line /\ In p ps
    /\ exists t, true_div (inject_Z fid) rate = inr t
                 /\ Tracab.in_period p t = true.
Proof.
  induction ps as [|q rest IH]; intros n p l Hin; [destruct Hin|].
  simpl in Hin.
  destruct (true_div (inject_Z fid) rate) as [e|t] eqn:Hdiv; [destruct Hin|].
  destruct (Tracab.in_period q t) eqn:Hq.
  - destruct (Tracab.period_loop sample rate fid line rest (n + 1))
      as [ys r] eqn:Hloop.
    assert (Hys : In (p, l) ys -> l = line /\ In p (q :: rest)
                  /\ exists t0, ok t = ok t0 /\ Tracab.in_period p t0 = true).
    { intros Hy. destruct (IH (n + 1) p l) as [Hl [Hp Ht]];
        [now rewrite Hloop|]. simpl; auto. }
    simpl in Hin. destruct (mod_is_zero n sample); [|auto].
    destruct Hin as [Heq | Hin]; [|auto].
    injection Heq as <- <-. split; [reflexivity|]. split; [now left|eauto].
  - destruct (IH n p l Hin) as [Hl [Hp Ht]]. simpl; auto.
Qed.

Lemma lines_loop_items (c : Config) (sample : Q) (ps : list Period) (rate : Q)
  (lines : list string) :
  forall n p line,
    In (p, line) (yields (Tracab.lines_loop c sample ps rate lines n)) ->
    exists raw fid t,
      In raw lines
      /\ Tracab.classify c raw = Tracab.Eligible line fid
      /\ In p ps
      /\ true_div (inject_Z fid) rate = inr t
      /\ Tracab.in_period p t = true.
Proof.
  induction lines as [|raw rest IH]; intros n p line Hin; [destruct Hin|].
  simpl in Hin.
  assert (Hrest : forall m,
            In (p, line) (yields (Tracab.lines_loop c sample ps rate rest m)) ->
            exists raw0 fid t,
              In raw0 (raw :: rest)
              /\ Tracab.classify c raw0 = Tracab.Eligible line fid
              /\ In p ps
              /\ true_div (inject_Z fid) rate = inr t
              /\ Tracab.in_period p t = true).
  { intros m Hm. destruct (IH _ _ _ Hm) as (raw0 & fid & t & Hr & Hrest).
    exists raw0, fid, t. split; [now right | exact Hrest]. }
  destruct (Tracab.classify c raw) as [| |l fid|e] eqn:Hclass;
    try (now apply Hrest in Hin); try (now destruct Hin).
  destruct (Tracab.period_loop sample rate fid l ps n) as [ys r] eqn:Hloop.
  assert (Hys : In (p, line) ys ->
                exists raw0 fid0 t,
                  In raw0 (raw :: rest)
                  /\ Tracab.classify c raw0 = Tracab.Eligible line fid0
                  /\ In p ps
                  /\ true_div (inject_Z fid0) rate = inr t
                  /\ Tracab.in_period p t = true).
  { intros Hy.
    destruct (period_loop_items sample rate fid l ps n p line)
      as [-> [Hp [t [Ht Hper]]]]; [now rewrite Hloop|].
    exists raw, fid, t. split; [now left|auto]. }
  destruct r as [e|n']; simpl in Hin; [auto|].
  apply in_app_iff in Hin. destruct Hin as [Hin | Hin]; eauto.
Qed.

(** The id [_iter] scans from the first ten characters of a line is the
    text before the first colon, as long as that text has at most ten
    characters. *)
Lemma split_head (sep : ascii) (s : string) :
  hd "" (split sep s) = before_first sep s.
Proof.
  induction s as [|c r IH]; simpl; [reflexivity|].
  destruct (Ascii.eqb c sep); [reflexivity|].
  destruct (split sep r) as [|h t]; simpl in *; now rewrite <- IH.
Qed.

Lemma before_first_prefix (sep : ascii) (s : string) :
  forall n, (String.length (before_first sep s) <= n)%nat ->
            before_first sep (prefix_slice n s) = before_first sep s.
Proof.
  unfold prefix_slice.
  induction s as [|c r IH]; intros n Hlen; simpl in *.
  - destruct n; reflexivity.
  - destruct (Ascii.eqb c sep) eqn:Hc.
    + destruct n; simpl; [reflexivity|]. now rewrite Hc.
    + simpl in Hlen. destruct n; [lia|]. simpl. rewrite Hc. f_equal.
      apply IH. lia.
Qed.

Lemma classify_eligible (c : Config) (raw line : string) (fid : Z) :
  Tracab.classify c raw = Tracab.Eligible line fid ->
  py_int (before_first ":" (prefix_slice 10 line)) = inr fid.
Proof.
  unfold Tracab.classify. intros Hc.
  destruct (decode_ascii (strip bytes_isspace raw)) as [e|l]; [discriminate|].
  destruct (String.eqb l ""); [discriminate|].
  destruct (py_int (before_first ":" (prefix_slice 10 l))) as [e|n] eqn:Hint;
    [discriminate|].
  destruct (only_alive c && negb (endswith "Alive;:" l)); [discriminate|].
  injection Hc as <- <-. exact Hint.
Qed.

Section TracabFrames.
Context `{Collaborators}.

(** What [_frame_from_line] puts in the frame it returns. *)
Lemma frame_from_line_fields (teams_ : Tracab.Teams) (p : Period)
  (line : string) (rate : Q) (f : Frame) (teams' : Tracab.Teams) :
  Tracab._frame_from_line teams_ p line rate = inr (f, teams') ->
  period f = p
  /\ exists t, true_div (inject_Z (frame_id f)) rate = inr t
               /\ timestamp f = (timedelta t - start_timestamp p)%Q.
Proof.
  unfold Tracab._frame_from_line. intros Hf.
  invert_ok Hf. injection Hf as <- _. simpl. split; [reflexivity|]. eauto.
Qed.

(** The frame id is [int()] of the text before the first colon of the
    stripped line. *)
Lemma frame_from_line_id (teams_ : Tracab.Teams) (p : Period)
  (line : string) (rate : Q) (f : Frame) (teams' : Tracab.Teams) :
  Tracab._frame_from_line teams_ p line rate = inr (f, teams') ->
  py_int (before_first ":" (strip str_isspace line)) = inr (frame_id f).
Proof.
  unfold Tracab._frame_from_line. rewrite <- split_head. intros Hf.
  destruct (split ":" (strip str_isspace line)) as [|a [|b [|d rest]]];
    simpl in Hf; try discriminate Hf.
  invert_ok Hf. injection Hf as <- _. simpl. assumption.
Qed.

Lemma scanned_id_is_frame_id (c : Config) (raw line : string) (fid : Z)
  (teams_ : Tracab.Teams) (p : Period) (rate : Q) (f : Frame)
  (teams' : Tracab.Teams) :
  Tracab.classify c raw = Tracab.Eligible line fid ->
  Tracab._frame_from_line teams_ p line rate = inr (f, teams') ->
  strip str_isspace line = line ->
  (String.length (before_first ":" line) <= 10)%nat ->
  fid = frame_id f.
Proof.
  intros Hclass Hline Hstrip Hlen.
  apply classify_eligible in Hclass. apply frame_from_line_id in Hline.
  rewrite Hstrip in Hline. rewrite before_first_prefix in Hclass by exact Hlen.
  congruence.
Qed.

(** Every frame in the list was there before the loop, or is the
    transform of a frame assembled from one of the items. *)
Lemma tracab_frames_loop_frames (c : Config) (rate : Q)
  (items : list (Period * string)) (end_ : option exn) :
  forall n teams_ frames frames' teams',
    Tracab.frames_loop c rate items end_ n teams_ frames = inr (frames', teams') ->
    forall f, In f frames' ->
      In f frames
      \/ exists p line t0 t1 f0,
           In (p, line) items
           /\ Tracab._frame_from_line t0 p line rate = inr (f0, t1)
           /\ f = transform_frame f0.
Proof.
  induction items as [|[p line] rest IH];
    intros n teams_ frames frames' teams' Hloop f Hf; simpl in Hloop.
  - destruct end_; [discriminate|]. injection Hloop as <- _. now left.
  - destruct (Tracab._frame_from_line teams_ p line rate) as [e|[f0 t1]] eqn:Hline;
      [discriminate|]. simpl in Hloop.
    assert (Hnew : In f (frames ++ [transform_frame f0]) ->
                   In f frames
                   \/ exists p0 line0 t0 t2 f1,
                        In (p0, line0) ((p, line) :: rest)
                        /\ Tracab._frame_from_line t0 p0 line0 rate = inr (f1, t2)
                        /\ f = transform_frame f1).
    { intros Hin. apply in_app_iff in Hin. destruct Hin as [Hin | [<- | []]];
        [now left|].
      right. exists p, line, teams_, t1, f0. split; [now left | auto]. }
    destruct (truthy_limit (limit c) && (limit_value (limit c) <=? n)).
    + injection Hloop as <- _. auto.
    + destruct (IH _ _ _ _ _ Hloop f Hf) as [Hin | Hex]; [auto|].
      destruct Hex as (p0 & line0 & t0 & t2 & f1 & Hin & Hrest).
      right. exists p0, line0, t0, t2, f1. split; [now right | exact Hrest].
Qed.

End TracabFrames.

(** ** Timestamps and period bounds *)

(** The frame of a line at the kick-off of the second half (tick 5000 at
    25 frames per second, period from 200 s to 300 s) has timestamp 0 s,
    which is below the period's start: the invariant of C1 fails. *)
Lemma timestamp_below_period_start :
  exists ds f,
    Tracab.deserialize (H := Concrete.collaborators) Concrete.default_cfg
      Concrete.kick_off_line = inr ds
    /\ In f (records ds)
    /\ (timestamp f == 0)%Q
    /\ (start_timestamp (period f) == 200)%Q
    /\ ~ timestamp_within_period f.
Proof.
  eexists. eexists. split; [vm_compute; reflexivity|].
  split; [left; reflexivity|].
  split; [reflexivity|]. split; [reflexivity|].
  intros [Hlow _]. vm_compute in Hlow. now apply Hlow.
Qed.

Section TracabTimestamps.
Context `{Collaborators}.

(** C1, as the code has it.  For every frame the text-line reader
    returns (the transformer keeping frame id, timestamp and period): the
    frame comes from an eligible line of the file; the tick time
    [timedelta(seconds=id / frame_rate)] of the id scanned from the head of
    that line lies between the start and the end of the period the frame
    references; the frame's timestamp is the tick time of its frame id
    minus the period's start; the two ids are the same when the line has
    no whitespace left at its ends and at most ten characters before its
    first colon; and then the timestamp lies between zero and the length of
    the period. *)
Theorem tracab_timestamp_relative_to_period (c : Config)
  (inputs : Tracab.TRACABInputs) (ds : TrackingDataset) (f : Frame) :
  (forall g, frame_id (transform_frame g) = frame_id g
             /\ timestamp (transform_frame g) = timestamp g
             /\ period (transform_frame g) = period g) ->
  Tracab.deserialize c inputs = inr ds ->
  In f (records ds) ->
  exists raw line fid tick,
    In raw (Tracab.raw_data inputs)
    /\ Tracab.classify c raw = Tracab.Eligible line fid
    /\ In (period f) (Tracab.meta_periods inputs)
    /\ true_div (inject_Z fid) (Tracab.meta_frame_rate inputs) = inr tick
    /\ (start_timestamp (period f) <= timedelta tick)%Q
    /\ (timedelta tick <= end_timestamp (period f))%Q
    /\ (exists t,
          true_div (inject_Z (frame_id f)) (Tracab.meta_frame_rate inputs) = inr t
          /\ timestamp f = (timedelta t - start_timestamp (period f))%Q)
    /\ (strip str_isspace line = line ->
        (String.length (before_first ":" line) <= 10)%nat ->
        fid = frame_id f)
    /\ (fid = frame_id f ->
        (0 <= timestamp f)%Q
        /\ (timestamp f <= end_timestamp (period f) - start_timestamp (period f))%Q).
Proof.
  intros Htr Hds Hf. unfold Tracab.deserialize in Hds.
  destruct (Tracab.frames_loop c (Tracab.meta_frame_rate inputs)
              (yields (Tracab._iter c inputs)) (raised (Tracab._iter c inputs))
              0 (Tracab.meta_teams inputs) []) as [e|[frames teams']] eqn:Hloop;
    [discriminate|]. simpl in Hds.
  destruct (Tracab.orientation_of frames) as [e|o]; [discriminate|].
  simpl in Hds. injection Hds as <-. simpl in Hf.
  destruct (tracab_frames_loop_frames _ _ _ _ _ _ _ _ _ Hloop f Hf)
    as [[] | (p & line & t0 & t1 & f0 & Hin & Hline & ->)].
  destruct (frame_from_line_fields _ _ _ _ _ _ Hline) as [Hp [t [Ht Hts]]].
  destruct (Htr f0) as [Hid [Hstamp Hper]].
  unfold Tracab._iter in Hin.
  destruct (sample_of c) as [e|sample]; [destruct Hin|].
  destruct (lines_loop_items _ _ _ _ _ _ _ _ Hin)
    as (raw & fid & tick & Hraw & Hclass & Hpin & Htick & Hper').
  apply andb_true_iff in Hper'. destruct Hper' as [Hlo Hhi].
  apply Qle_bool_iff in Hlo. apply Qle_bool_iff in Hhi.
  exists raw, line, fid, tick. rewrite Hid, Hstamp, Hper, Hp, Hts.
  repeat split; auto.
  - eauto.
  - intros Hstrip Hlen. eapply scanned_id_is_frame_id; eauto.
  - subst fid. rewrite Ht in Htick. injection Htick as ->. lra.
  - subst fid. rewrite Ht in Htick. injection Htick as ->. lra.
Qed.

End TracabTimestamps.

(** The kick-off frame again: its timestamp 0 s lies between zero and the
    100 s the second half lasts. *)
Lemma tracab_timestamp_relative_to_period_witness :
  (0 <= timestamp Concrete.kick_off_frame)%Q
  /\ (timestamp Concrete.kick_off_frame
      <= end_timestamp (period Concrete.kick_off_frame)
         - start_timestamp (period Concrete.kick_off_frame))%Q.
Proof.
  assert (Hin : In Concrete.kick_off_frame
                  (Concrete.tracab_records Concrete.default_cfg
                     Concrete.kick_off_line))
    by (vm_compute; auto).
  destruct (tracab_timestamp_relative_to_period (H := Concrete.collaborators)
              Concrete.default_cfg Concrete.kick_off_line _
              Concrete.kick_off_frame (fun g => conj eq_refl (conj eq_refl eq_refl))
              eq_refl Hin)
    as (raw & line & fid & tick & Hraw & Hclass & _ & _ & _ & _ & _ & Hsame
        & Hbound).
  destruct Hraw as [<- | []]. apply Hbound.
  vm_compute in Hclass. injection Hclass as <- _.
  apply Hsame; [vm_compute; reflexivity | vm_compute; lia].
Defined.

(** ** The sampler *)

Lemma retain_app {A} (sample : Q) (l1 l2 : list A) :
  forall n,
    retain sample n (l1 ++ l2)
    = (retain sample n l1 ++ retain sample (n + Z.of_nat (List.length l1)) l2)%list.
Proof.
  induction l1 as [|a l1 IH]; intros n; simpl.
  - now rewrite Z.add_0_r.
  - rewrite IH. replace (n + 1 + Z.of_nat (List.length l1))
      with (n + Z.pos (Pos.of_succ_nat (List.length l1))) by lia.
    destruct (mod_is_zero n sample); reflexivity.
Qed.

(** One line: the period loop yields the retained pairs of the line and
    advances the counter by the number of periods that contain it. *)
Lemma period_loop_retains (sample rate : Q) (fid : Z) (line : string) (t : Q)
  (ps : list Period) :
  true_div (inject_Z fid) rate = inr t ->
  forall n,
    Tracab.period_loop sample rate fid line ps n
    = (retain sample n
         (map (fun p => (p, line)) (filter (fun p => Tracab.in_period p t) ps)),
       ok (n + Z.of_nat
                 (List.length (filter (fun p => Tracab.in_period p t) ps)))).
Proof.
  intros Hdiv. induction ps as [|p rest IH]; intros n; simpl.
  - now rewrite Z.add_0_r.
  - rewrite Hdiv. destruct (Tracab.in_period p t); simpl.
    + rewrite IH. f_equal. f_equal. lia.
    + apply IH.
Qed.

Lemma period_loop_raises (sample rate : Q) (fid : Z) (line : string) (e : exn)
  (ps : list Period) (n : Z) :
  true_div (inject_Z fid) rate = inl e ->
  Tracab.period_loop sample rate fid line ps n
  = ([], match ps with [] => ok n | _ => raise e end).
Proof. intros Hdiv. destruct ps; simpl; [reflexivity | now rewrite Hdiv]. Qed.

(** The whole stream: one counter, advanced by eligible pairs only. *)
Lemma lines_loop_retains (c : Config) (sample : Q) (ps : list Period) (rate : Q)
  (lines : list string) :
  forall n,
    raised (Tracab.lines_loop c sample ps rate lines n) = None ->
    yields (Tracab.lines_loop c sample ps rate lines n)
    = retain sample n (flat_map (tracab_eligible_of_line c ps rate) lines).
Proof.
  induction lines as [|raw rest IH]; intros n Hend; [reflexivity|].
  simpl in *. unfold tracab_eligible_of_line at 1.
  destruct (Tracab.classify c raw) as [| |line fid|e]; simpl in *;
    try (now apply IH); try discriminate.
  destruct (true_div (inject_Z fid) rate) as [e|t] eqn:Hdiv.
  - rewrite (period_loop_raises _ _ _ _ _ _ _ Hdiv) in *.
    destruct ps; simpl in *; [now apply IH | discriminate].
  - rewrite (period_loop_retains _ _ _ _ _ _ Hdiv) in *. simpl in *.
    rewrite retain_app, length_map. f_equal. now apply IH.
Qed.


(** For an integer [k >= 1] the test [n % k == 0] is divisibility. *)
Lemma mod_is_zero_int (n k : Z) :
  0 < k -> mod_is_zero n (inject_Z k) = (n mod k =? 0).
Proof.
  intros Hk. unfold mod_is_zero.
  destruct k as [|k|k]; try lia.
  assert (Hq : (inject_Z n / inject_Z (Z.pos k))%Q = (n * 1 # 1 * k)%Q)
    by reflexivity.
  rewrite Hq. unfold Qfloor. cbn [Qnum Qden].
  rewrite Z.mul_1_r, Pos.mul_1_l.
  destruct (n mod Z.pos k =? 0) eqn:Hmod.
  - apply Z.eqb_eq in Hmod. apply Qeq_bool_iff.
    unfold Qeq, inject_Z. cbn [Qnum Qden].
    pose proof (Z.div_mod n (Z.pos k)). lia.
  - apply Z.eqb_neq in Hmod.
    destruct (Qeq_bool (n # k) (inject_Z (n / Z.pos k))) eqn:Hb; [|reflexivity].
    apply Qeq_bool_iff in Hb. unfold Qeq, inject_Z in Hb. cbn [Qnum Qden] in Hb.
    pose proof (Z.div_mod n (Z.pos k)). lia.
Qed.


Lemma retain_one {A} (l : list A) : forall n, retain 1 n l = l.
Proof.
  induction l as [|a l IH]; intros n; [reflexivity|]. simpl.
  change 1%Q with (inject_Z 1). rewrite mod_is_zero_int by lia.
  rewrite Z.mod_1_r. simpl. f_equal. apply IH.
Qed.




Section TracabCount.
Context `{Collaborators}.

Lemma tracab_frames_loop_no_limit (c : Config) (rate : Q)
  (items : list (Period * string)) (end_ : option exn) :
  truthy_limit (limit c) = false ->
  forall n teams_ frames frames' teams',
    Tracab.frames_loop c rate items end_ n teams_ frames = inr (frames', teams') ->
    end_ = None
    /\ List.length frames' = (List.length frames + List.length items)%nat.
Proof.
  intros Hno. induction items as [|[p line] rest IH];
    intros n teams_ frames frames' teams' Hloop; simpl in Hloop.
  - destruct end_; [discriminate|]. injection Hloop as <- _. simpl. auto.
  - destruct (Tracab._frame_from_line teams_ p line rate) as [e|[f0 t1]];
      [discriminate|]. simpl in Hloop. rewrite Hno in Hloop. simpl in Hloop.
    destruct (IH _ _ _ _ _ Hloop) as [He Hlen]. split; [exact He|].
    rewrite Hlen, length_app. simpl. lia.
Qed.

(** X16. In the text-line reader, with [sample_rate = 1.0] and no limit, a
    returned dataset has as many frames as there are eligible
    (period, line) pairs. *)
Lemma tracab_full_rate_count (c : Config) (inputs : Tracab.TRACABInputs)
  (ds : TrackingDataset) :
  sample_rate c = 1%Q ->
  truthy_limit (limit c) = false ->
  Tracab.deserialize c inputs = inr ds ->
  List.length (records ds) = List.length (tracab_eligible c inputs).
Proof.
  intros Hrate Hno Hds. unfold Tracab.deserialize in Hds.
  destruct (Tracab.frames_loop c (Tracab.meta_frame_rate inputs)
              (yields (Tracab._iter c inputs)) (raised (Tracab._iter c inputs))
              0 (Tracab.meta_teams inputs) []) as [e|[frames teams']] eqn:Hloop;
    [discriminate|]. simpl in Hds.
  destruct (Tracab.orientation_of frames) as [e|o]; [discriminate|].
  simpl in Hds. injection Hds as <-. simpl.
  destruct (tracab_frames_loop_no_limit _ _ _ _ Hno _ _ _ _ _ Hloop)
    as [Hend Hlen].
  rewrite Hlen. simpl.
  assert (Hs : sample_of c = inr 1%Q) by (unfold sample_of; now rewrite Hrate).
  unfold Tracab._iter in *. rewrite Hs in *.
  rewrite (lines_loop_retains _ _ _ _ _ _ Hend).
  unfold tracab_eligible. now rewrite retain_one.
Qed.

End TracabCount.

(** ** Codes of the text-line reader *)





Section TracabCodes.
Context `{Collaborators}.







End TracabCodes.



(** The scenario of the specification: the line gives a frame with id
    100, two players, the ball at (10.0, 0.0, 0.5), owned by the home
    side, alive. *)
Example scenario_line_frame :
  exists f teams',
    Tracab._frame_from_line (H := Concrete.collaborators)
      (Concrete.home_team, Concrete.away_team) Concrete.first_half
      (Concrete.alive_line "100") 25 = inr (f, teams')
    /\ frame_id f = 100
    /\ map fst (Concrete.tracked f) = ["h10"; "a9"]
    /\ ball_coordinates f
       = {| x3 := Some 10%Q; y3 := Some 0%Q; z3 := Some (1 # 2)%Q |}
    /\ ball_owning_team f = Some Concrete.home_ref
    /\ ball_state f = Some ALIVE.
Proof.
  eexists. eexists. split; [vm_compute; reflexivity|].
  repeat split; vm_compute; reflexivity.
Qed.

(** ** The markup reader's counter and limit *)

(** The markup reader samples on the position of the tick in its period,
    filtered ticks included: at [sample_rate = 0.5], after one dead tick,
    it keeps the second eligible record, where a counter of eligible
    records keeps the first. *)
Example sportec_samples_on_raw_index :
  map fst (sportec_eligible (Concrete.cfg_rate (1 # 2)) Concrete.dead_alive_alive)
  = [1001; 1002]
  /\ map frame_id
       (Concrete.sportec_buffer (Concrete.cfg_rate (1 # 2))
          Concrete.dead_alive_alive) = [1002]
  /\ retain 2 0 [1001; 1002] = [1001].
Proof. repeat split; vm_compute; reflexivity. Qed.

(** Its frame loop has the limit test of the text-line reader: with
    [limit = 1] two frames are buffered. *)
Example sportec_limit_one_buffers_two :
  map frame_id
    (Concrete.sportec_buffer (Concrete.cfg_limit 1) Concrete.three_alive_ticks)
  = [1000; 1001].
Proof. vm_compute. reflexivity. Qed.

(** ** Timestamps of the other two readers *)

(** The line-delimited reader takes the timestamp from the game clock of
    the record and the period bounds from frame numbers; nothing relates
    the two.  A period made of the single frame number 0 starts and ends at
    0 s, and its frame, at game clock 45 s, lies after the end. *)
Example pff_timestamp_is_game_clock :
  exists f,
    Concrete.pff_records Concrete.pff_fresh Concrete.late_clock_archive = [f]
    /\ (timestamp f == 45)%Q
    /\ (end_timestamp (period f) == 0)%Q
    /\ ~ timestamp_within_period f.
Proof.
  eexists. split; [vm_compute; reflexivity|].
  split; [reflexivity|]. split; [reflexivity|].
  intros [_ Hhigh]. vm_compute in Hhigh. now apply Hhigh.
Qed.

(** The markup reader subtracts the period's start from the tick time
    and compares nothing. *)
Lemma sportec_timestamp_relative (teams_ : Team * Team) (fps : Q)
  (player_map : list (string * Player)) (p : Period) (fid : Z)
  (frame_data : Sportec.FrameData) (ball_data : Sportec.ObjectData) (f : Frame) :
  Sportec.make_frame teams_ fps player_map p fid frame_data ball_data = inr f ->
  period f = p
  /\ timestamp f = (inject_Z fid / fps - start_timestamp p)%Q.
Proof.
  unfold Sportec.make_frame, true_div. intros Hf.
  destruct (Qeq_bool fps 0); [discriminate|]. cbn [Py.bind ok] in Hf.
  invert_ok Hf; injection Hf as <-; split; reflexivity.
Qed.

(** ** The limit of the text-line reader, in general *)

Section TracabLimit.
Context `{Collaborators}.

Lemma tracab_frames_loop_limit (c : Config) (rate : Q)
  (items : list (Period * string)) (end_ : option exn) (l : Z) :
  limit c = Some l -> l <> 0 ->
  forall n teams_ frames frames' teams',
    Tracab.frames_loop c rate items end_ n teams_ frames = inr (frames', teams') ->
    Z.of_nat (List.length frames')
    <= Z.of_nat (List.length frames) + Z.max 1 (l - n + 1).
Proof.
  intros Hl Hnz. induction items as [|[p line] rest IH];
    intros n teams_ frames frames' teams' Hloop; simpl in Hloop.
  - destruct end_; [discriminate|]. injection Hloop as <- _. lia.
  - destruct (Tracab._frame_from_line teams_ p line rate) as [e|[f0 t1]];
      [discriminate|]. simpl in Hloop. rewrite Hl in Hloop. simpl in Hloop.
    destruct (l =? 0) eqn:Hz; [apply Z.eqb_eq in Hz; contradiction|].
    simpl in Hloop. destruct (l <=? n) eqn:Hbreak.
    + injection Hloop as <- _. rewrite length_app. simpl. lia.
    + apply Z.leb_gt in Hbreak. apply IH in Hloop.
      rewrite length_app in Hloop. simpl in Hloop. lia.
Qed.

(** X15. With a positive limit the text-line reader returns at most one
    frame more than the limit. *)
Lemma tracab_limit_plus_one (c : Config) (inputs : Tracab.TRACABInputs)
  (ds : TrackingDataset) (l : Z) :
  limit c = Some l -> 0 < l ->
  Tracab.deserialize c inputs = inr ds ->
  Z.of_nat (List.length (records ds)) <= l + 1.
Proof.
  intros Hl Hpos Hds. unfold Tracab.deserialize in Hds.
  destruct (Tracab.frames_loop c (Tracab.meta_frame_rate inputs)
              (yields (Tracab._iter c inputs)) (raised (Tracab._iter c inputs))
              0 (Tracab.meta_teams inputs) []) as [e|[frames teams']] eqn:Hloop;
    [discriminate|]. simpl in Hds.
  destruct (Tracab.orientation_of frames) as [e|o]; [discriminate|].
  simpl in Hds. injection Hds as <-. simpl.
  apply (tracab_frames_loop_limit c _ _ _ l Hl) in Hloop; [|lia].
  simpl in Hloop. lia.
Qed.

End TracabLimit.

(** * Further properties of the readers *)

(** ** Insertion-ordered dicts *)

Lemma dict_get_set {K V} (eqb : K -> K -> bool)
  (Heqb : forall a b, eqb a b = true <-> a = b)
  (d : list (K * V)) (k k' : K) (v : V) :
  dict_get eqb (dict_set eqb d k v) k'
  = if eqb k k' then Some v else dict_get eqb d k'.
Proof.
  induction d as [|[k0 v0] r IH]; simpl; [reflexivity|].
  destruct (eqb k0 k) eqn:H0; simpl.
  - apply Heqb in H0. subst k0. destruct (eqb k k'); reflexivity.
  - rewrite IH. destruct (eqb k0 k') eqn:H1; [|reflexivity].
    apply Heqb in H1. subst k0.
    destruct (eqb k k') eqn:H2; [|reflexivity].
    apply Heqb in H2. subst k'.
    rewrite (proj2 (Heqb k k) eq_refl) in H0. discriminate.
Qed.

Lemma dict_get_key {K V} (eqb : K -> K -> bool)
  (Heqb : forall a b, eqb a b = true <-> a = b)
  (d : list (K * V)) (k : K) (v : V) :
  dict_get eqb d k = Some v -> In (k, v) d.
Proof.
  induction d as [|[k0 v0] r IH]; simpl; [discriminate|].
  destruct (eqb k0 k) eqn:H0.
  - apply Heqb in H0. subst. intros H; injection H as ->. now left.
  - intros H. right. now apply IH.
Qed.

Lemma Z_eqb_iff (a b : Z) : (a =? b) = true <-> a = b.
Proof. apply Z.eqb_eq. Qed.

(** ** Reading the raw file of the line-delimited feed *)

Lemma load_json_raw_no_limit (c : Config) (lines : list (option PFF.RawFrame)) :
  truthy_limit (limit c) = false ->
  In None lines ->
  forall i data, PFF.__load_json_raw c lines i data = inl JSONDecodeError.
Proof.
  intros Hno. induction lines as [|line rest IH]; intros Hin i data;
    [destruct Hin|].
  simpl. rewrite Hno. simpl. destruct line as [f|]; simpl; [|reflexivity].
  destruct Hin as [Hin | Hin]; [discriminate|]. now apply IH.
Qed.

(** X1. Without a limit, one line of the raw file that is not valid
    JSON makes [deserialize] of the line-delimited reader raise the decode
    error, wherever the line is; the deserializer object is left as it
    was. *)
Theorem pff_malformed_line_aborts (H : Collaborators)
  (self : PFF.PFF_TrackingDeserializer) (inputs : PFF.PFF_TrackingInputs) :
  truthy_limit (limit (PFF.cfg self)) = false ->
  In None (PFF.raw_data inputs) ->
  PFF.deserialize self inputs = (inl JSONDecodeError, self).
Proof.
  intros Hno Hin. unfold PFF.deserialize, PFF.load.
  now rewrite (load_json_raw_no_limit _ _ Hno Hin).
Qed.

Lemma pff_malformed_line_aborts_witness :
  PFF.deserialize (H := Concrete.collaborators) Concrete.pff_fresh
    Concrete.three_records_then_garbage
  = (inl JSONDecodeError, Concrete.pff_fresh).
Proof.
  apply (pff_malformed_line_aborts Concrete.collaborators
           Concrete.pff_fresh Concrete.three_records_then_garbage).
  - reflexivity.
  - simpl. auto.
Defined.




(** ** Periods of the line-delimited feed *)







Lemma periods_of_groups_ids (rate : Q) (groups : list (Z * list PFF.RawFrame)) :
  forall ps, PFF.periods_of_groups groups rate = inr ps ->
             forall k per, In (k, per) ps -> id per = k.
Proof.
  induction groups as [|[k0 frames] rest IH]; intros ps Hps k per Hin;
    simpl in Hps.
  - injection Hps as <-. destruct Hin.
  - invert_ok Hps. injection Hps as <-.
    destruct Hin as [Heq | Hin]; [injection Heq as <- <-; reflexivity|].
    eapply IH; eauto.
Qed.

Lemma load_facts (c : Config) (inputs : PFF.PFF_TrackingInputs) (ld : PFF.Loaded) :
  PFF.load c inputs = inr ld ->
  PFF.__get_periods (PFF.l_raw ld) (PFF.l_frame_rate ld) = inr (PFF.l_periods ld)
  /\ PFF.truthy_str (PFF.l_start_left ld) = true
  /\ PFF.l_direction ld = LTR
  /\ PFF.__load_json_raw c (PFF.raw_data inputs) 0 [] = inr (PFF.l_raw ld).
Proof.
  unfold PFF.load. intros Hload.
  destruct (PFF.__load_json_raw c (PFF.raw_data inputs) 0 []) as [e|raw];
    [discriminate|]. simpl in Hload.
  destruct (hd_error raw) as [first|]; [|discriminate]. simpl in Hload.
  destruct (hd_error (filter (fun r => PFF.m_id r =? PFF.gameRefId first)
                        (PFF.meta_data inputs))) as [row|]; [|discriminate].
  simpl in Hload.
  destruct (PFF.__get_periods raw (PFF.m_fps row)) as [e|ps] eqn:Hps;
    [discriminate|]. simpl in Hload.
  match type of Hload with
  | Py.bind ?r _ = _ => destruct r as [e|players_]; [discriminate|]
  end. simpl in Hload.
  destruct (PFF.m_homeTeamStartLeft row) as [start_left|]; [|discriminate].
  simpl in Hload.
  destruct (PFF.truthy_str start_left) eqn:Htruthy; [|discriminate].
  simpl in Hload.
  destruct (sample_of c) as [e|sample]; [discriminate|]. simpl in Hload.
  injection Hload as <-. simpl. auto.
Qed.

(** The two buffers of the frame loop: what was there before, or a frame
    assembled from an item of a regular-time (extra-time) period. *)
Lemma frames_loop_split (c : Config) (players_ : PFF.Roster * PFF.Roster)
  (periods_ : list (Z * Period)) (items : list PFF.Yielded)
  (final : option TeamRef) :
  forall n frames et frames' et' owner,
    PFF.frames_loop c players_ periods_ items final n frames et
    = (inr (frames', et'), owner) ->
    exists new new_et,
      frames' = (frames ++ new)%list /\ et' = (et ++ new_et)%list
      /\ Forall (fun f => exists it,
                    In it items
                    /\ PFF._get_frame_data players_ periods_ (PFF.y_owner it)
                         (PFF.y_frame it) = inr f
                    /\ PFF.is_regular_time (PFF.y_period it) = true) new
      /\ Forall (fun f => exists it,
                    In it items
                    /\ PFF._get_frame_data players_ periods_ (PFF.y_owner it)
                         (PFF.y_frame it) = inr f
                    /\ PFF.is_regular_time (PFF.y_period it) = false
                    /\ PFF.is_extra_time (PFF.y_period it) = true) new_et.
Proof.
  induction items as [|it rest IH]; intros n frames et frames' et' owner Hloop.
  - simpl in Hloop. injection Hloop as <- <- _.
    exists [], []. rewrite !app_nil_r. repeat split; constructor.
  - simpl in Hloop.
    destruct (PFF._get_frame_data players_ periods_ (PFF.y_owner it)
                (PFF.y_frame it)) as [e|frame] eqn:Hframe; [discriminate|].
    set (P := fun (l : list PFF.Yielded) (f : Frame) =>
                exists it0, In it0 l
                  /\ PFF._get_frame_data players_ periods_ (PFF.y_owner it0)
                       (PFF.y_frame it0) = inr f
                  /\ PFF.is_regular_time (PFF.y_period it0) = true).
    set (Q := fun (l : list PFF.Yielded) (f : Frame) =>
                exists it0, In it0 l
                  /\ PFF._get_frame_data players_ periods_ (PFF.y_owner it0)
                       (PFF.y_frame it0) = inr f
                  /\ PFF.is_regular_time (PFF.y_period it0) = false
                  /\ PFF.is_extra_time (PFF.y_period it0) = true).
    assert (Hmono : forall new new_et,
               Forall (P rest) new -> Forall (Q rest) new_et ->
               Forall (P (it :: rest)) new /\ Forall (Q (it :: rest)) new_et).
    { intros new new_et Hn He. split; eapply Forall_impl; try eassumption.
      - intros f [it0 [Hin Hrest]]. exists it0. split; [now right | exact Hrest].
      - intros f [it0 [Hin Hrest]]. exists it0. split; [now right | exact Hrest]. }
    assert (Hhere :
      exists new new_et,
        (if PFF.is_regular_time (PFF.y_period it)
         then frames ++ [frame] else frames)%list = (frames ++ new)%list
        /\ (if PFF.is_regular_time (PFF.y_period it) then et
            else if PFF.is_extra_time (PFF.y_period it)
                 then et ++ [frame] else et)%list = (et ++ new_et)%list
        /\ Forall (P (it :: rest)) new /\ Forall (Q (it :: rest)) new_et).
    { destruct (PFF.is_regular_time (PFF.y_period it)) eqn:Hreg;
        [|destruct (PFF.is_extra_time (PFF.y_period it)) eqn:Hext].
      - exists [frame], []. rewrite app_nil_r. repeat split; constructor;
          try constructor. exists it. split; [now left | auto].
      - exists [], [frame]. rewrite app_nil_r. repeat split; constructor;
          try constructor. exists it. split; [now left | auto].
      - exists [], []. rewrite !app_nil_r. repeat split; constructor. }
    destruct Hhere as (new0 & et0 & Hf0 & He0 & Hn0 & Hq0).
    rewrite Hf0, He0 in Hloop.
    destruct (truthy_limit (limit c) && (limit_value (limit c) <=? n + 1)).
    + injection Hloop as <- <- _. exists new0, et0. auto.
    + destruct (IH _ _ _ _ _ _ Hloop) as (new & new_et & -> & -> & Hn & He).
      destruct (Hmono new new_et Hn He) as [Hn' He'].
      exists (new0 ++ new)%list, (et0 ++ new_et)%list.
      rewrite !app_assoc. repeat split; try reflexivity;
        apply Forall_app; auto.
Qed.

(** ** What the line-delimited reader returns *)

Section PFFRecords.
Context `{Collaborators}.

Lemma assembled_period_id (ld : PFF.Loaded) (c : Config)
  (inputs : PFF.PFF_TrackingInputs) (it : PFF.Yielded) (f : Frame)
  (sample : Q) (owner : option TeamRef) :
  PFF.load c inputs = inr ld ->
  In it (fst (PFF.iter_loop sample (PFF.l_home ld) (PFF.l_away ld)
                (PFF.l_raw ld) 0 owner)) ->
  PFF._get_frame_data (PFF.l_players ld) (PFF.l_periods ld) (PFF.y_owner it)
    (PFF.y_frame it) = inr f ->
  id (period f) = PFF.y_period it.
Proof.
  intros Hload Hit Hget.
  destruct (load_facts _ _ _ Hload) as [Hps _].
  destruct (iter_loop_items _ _ _ _ _ _ _ Hit) as (pre & post & _ & _ & Hper).
  destruct (get_frame_data_fields _ _ _ _ _ Hget) as (_ & _ & _ & p & Hp & Hdict).
  rewrite Hper in Hp. injection Hp as <-.
  apply (dict_get_key Z.eqb Z_eqb_iff) in Hdict.
  unfold PFF.__get_periods in Hps.
  eapply periods_of_groups_ids; eauto.
Qed.

(** X4. The records of a dataset the line-delimited reader returns are
    the frames of periods 1 and 2 followed by the frames of periods 3 and
    4: extra-time frames come last whatever their place in the file, and a
    record of any other period (a shoot-out, say) gives no frame. *)
Theorem pff_records_regular_then_extra
  (self : PFF.PFF_TrackingDeserializer) (inputs : PFF.PFF_TrackingInputs)
  (ds : TrackingDataset) (self' : PFF.PFF_TrackingDeserializer) :
  PFF.deserialize self inputs = (inr ds, self') ->
  exists regular extra,
    records ds = (regular ++ extra)%list
    /\ Forall regular_time_frame regular
    /\ Forall extra_time_frame extra.
Proof.
  intros Hds. unfold PFF.deserialize in Hds.
  destruct (PFF.load (PFF.cfg self) inputs) as [e|ld] eqn:Hload; [discriminate|].
  destruct (PFF.buffer_frames self ld) as [r owner] eqn:Hbuf.
  injection Hds as Hds _.
  destruct r as [e|[frames et]]; [discriminate|]. simpl in Hds.
  destruct (PFF.correct_extra_time (PFF.l_direction ld) frames et)
    as [e|recs] eqn:Hrecs; [discriminate|].
  simpl in Hds. injection Hds as <-. simpl.
  unfold PFF.buffer_frames in Hbuf.
  destruct (PFF.iter_loop (PFF.l_sample ld) (PFF.l_home ld) (PFF.l_away ld)
              (PFF.l_raw ld) 0 (PFF._ball_owning_team self))
    as [items final] eqn:Hiter.
  destruct (frames_loop_split _ _ _ _ _ _ _ _ _ _ _ Hbuf)
    as (new & new_et & -> & -> & Hnew & Hext). simpl in *.
  assert (Hitems : forall it, In it items ->
            In it (fst (PFF.iter_loop (PFF.l_sample ld) (PFF.l_home ld)
                          (PFF.l_away ld) (PFF.l_raw ld) 0
                          (PFF._ball_owning_team self))))
    by (intros it Hit; now rewrite Hiter).
  assert (Hreg : Forall regular_time_frame new).
  { eapply Forall_impl; [|exact Hnew]. intros f (it & Hit & Hget & Hr).
    unfold regular_time_frame.
    rewrite (assembled_period_id _ _ _ _ _ _ _ Hload (Hitems it Hit) Hget).
    unfold PFF.is_regular_time in Hr. apply orb_true_iff in Hr.
    destruct Hr as [Hr | Hr]; apply Z.eqb_eq in Hr; auto. }
  assert (Hxt : Forall extra_time_frame new_et).
  { eapply Forall_impl; [|exact Hext]. intros f (it & Hit & Hget & _ & Hx).
    unfold extra_time_frame.
    rewrite (assembled_period_id _ _ _ _ _ _ _ Hload (Hitems it Hit) Hget).
    unfold PFF.is_extra_time in Hx. apply orb_true_iff in Hx.
    destruct Hx as [Hx | Hx]; apply Z.eqb_eq in Hx; auto. }
  unfold PFF.correct_extra_time in Hrecs.
  destruct new_et as [|e0 et0].
  - injection Hrecs as <-. exists new, []. rewrite app_nil_r. auto.
  - remember (e0 :: et0) as et1 eqn:Het1.
    destruct (PFF.__check_att_direction et1 25) as [e|d]; [discriminate|].
    simpl in Hrecs. injection Hrecs as <-.
    eexists new, _. split; [reflexivity|]. split; [exact Hreg|].
    destruct (negb (AttackingDirection_eqb (PFF.l_direction ld) d));
      [|exact Hxt].
    apply Forall_map. eapply Forall_impl; [|exact Hxt]. intros f Hf. exact Hf.
Qed.

(** X5. Every dataset the line-delimited reader returns has the
    orientation [HOME_AWAY]: the metadata cell [homeTeamStartLeft] is text,
    any non-empty text (the text [False], too) counts as true, and an
    empty cell makes the call raise [TypeError] at [AttackingDirection()]. *)
Theorem pff_orientation_is_home_away
  (self : PFF.PFF_TrackingDeserializer) (inputs : PFF.PFF_TrackingInputs)
  (ds : TrackingDataset) (self' : PFF.PFF_TrackingDeserializer) :
  PFF.deserialize self inputs = (inr ds, self') ->
  orientation (metadata ds) = O_HOME_AWAY.
Proof.
  intros Hds. unfold PFF.deserialize in Hds.
  destruct (PFF.load (PFF.cfg self) inputs) as [e|ld] eqn:Hload; [discriminate|].
  destruct (load_facts _ _ _ Hload) as (_ & Htruthy & _).
  destruct (PFF.buffer_frames self ld) as [r owner].
  injection Hds as Hds _.
  destruct r as [e|[frames et]]; [discriminate|]. simpl in Hds.
  destruct (PFF.correct_extra_time (PFF.l_direction ld) frames et)
    as [e|recs]; [discriminate|].
  simpl in Hds. injection Hds as <-. simpl. now rewrite Htruthy.
Qed.


End PFFRecords.

Lemma pff_records_regular_then_extra_witness :
  exists regular extra,
    Concrete.pff_records Concrete.pff_fresh Concrete.mixed_periods
    = (regular ++ extra)%list
    /\ List.length regular = 3%nat
    /\ Forall regular_time_frame regular
    /\ Forall extra_time_frame extra.
Proof.
  destruct (pff_records_regular_then_extra (H := Concrete.collaborators)
              Concrete.pff_fresh Concrete.mixed_periods _ _ eq_refl)
    as (regular & extra & Hrec & Hreg & Hext).
  exists regular, extra. split; [exact Hrec|]. split; [|auto].
  vm_compute in Hrec.
  destruct regular as [|r1 [|r2 [|r3 [|r4 regular]]]];
    simpl in Hrec; try reflexivity; exfalso.
  - destruct extra as [|x extra]; [discriminate|].
    injection Hrec as <- _. inversion Hext as [|? ? [Hx | Hx] _];
      vm_compute in Hx; discriminate.
  - injection Hrec as _ Hrec. destruct extra as [|x extra]; [discriminate|].
    injection Hrec as <- _. inversion Hext as [|? ? [Hx | Hx] _];
      vm_compute in Hx; discriminate.
  - injection Hrec as _ _ Hrec. destruct extra as [|x extra]; [discriminate|].
    injection Hrec as <- _. inversion Hext as [|? ? [Hx | Hx] _];
      vm_compute in Hx; discriminate.
  - injection Hrec as _ _ _ Hrec. discriminate.
Defined.

Lemma pff_orientation_is_home_away_witness :
  match fst (PFF.deserialize (H := Concrete.collaborators) Concrete.pff_fresh
               Concrete.silent_archive) with
  | inr ds => orientation (metadata ds) = O_HOME_AWAY
  | inl _ => False
  end.
Proof.
  destruct (PFF.deserialize (H := Concrete.collaborators) Concrete.pff_fresh
              Concrete.silent_archive) as [[e|ds] self'] eqn:Hd.
  - vm_compute in Hd. discriminate.
  - simpl. exact (pff_orientation_is_home_away (H := Concrete.collaborators)
                    _ _ _ _ Hd).
Defined.


(** ** The vote of the direction check *)

Lemma AttackingDirection_eqb_iff (a b : AttackingDirection) :
  AttackingDirection_eqb a b = true <-> a = b.
Proof. destruct a, b; simpl; split; intros Hab; congruence. Qed.

Lemma AttackingDirection_eqb_refl (a : AttackingDirection) :
  AttackingDirection_eqb a a = true.
Proof. now apply AttackingDirection_eqb_iff. Qed.

Lemma AttackingDirection_eqb_sym (a b : AttackingDirection) :
  AttackingDirection_eqb a b = AttackingDirection_eqb b a.
Proof. destruct a, b; reflexivity. Qed.

Lemma votes_cons (d x : AttackingDirection) (ds : list AttackingDirection) :
  votes (x :: ds) d = votes ds d + (if AttackingDirection_eqb d x then 1 else 0).
Proof.
  unfold votes. simpl. destruct (AttackingDirection_eqb d x); simpl; lia.
Qed.

Lemma votes_nonneg (ds : list AttackingDirection) (d : AttackingDirection) :
  0 <= votes ds d.
Proof. unfold votes. lia. Qed.

Lemma votes_pos_iff (ds : list AttackingDirection) (d : AttackingDirection) :
  0 < votes ds d <-> In d ds.
Proof.
  induction ds as [|x ds IH]; [simpl; split; [unfold votes; simpl; lia | tauto]|].
  rewrite votes_cons. simpl. pose proof (votes_nonneg ds d).
  destruct (AttackingDirection_eqb d x) eqn:Hdx.
  - apply AttackingDirection_eqb_iff in Hdx. subst. split; [auto | lia].
  - split.
    + intros Hpos. right. apply IH. lia.
    + intros [-> | Hin]; [now rewrite AttackingDirection_eqb_refl in Hdx|].
      apply IH in Hin. lia.
Qed.

(** The tally after the directions [ds], started from [acc]. *)
Lemma tally_get (ds : list AttackingDirection) :
  forall acc d,
    dict_get AttackingDirection_eqb (fold_left PFF.count_direction ds acc) d
    = match dict_get AttackingDirection_eqb acc d with
      | Some v => Some (v + votes ds d)
      | None => if votes ds d =? 0 then None else Some (votes ds d)
      end.
Proof.
  induction ds as [|x ds IH]; intros acc d; cbn [fold_left].
  - unfold votes. simpl. destruct (dict_get AttackingDirection_eqb acc d);
      [f_equal; lia | reflexivity].
  - rewrite IH. unfold PFF.count_direction.
    rewrite (dict_get_set _ AttackingDirection_eqb_iff), votes_cons.
    rewrite (AttackingDirection_eqb_sym d x).
    pose proof (votes_nonneg ds d).
    destruct (AttackingDirection_eqb x d) eqn:Hxd.
    + apply AttackingDirection_eqb_iff in Hxd. subst x.
      destruct (dict_get AttackingDirection_eqb acc d); [f_equal; lia|].
      destruct (votes ds d + 1 =? 0) eqn:Hz; [apply Z.eqb_eq in Hz; lia|].
      f_equal. lia.
    + rewrite Z.add_0_r. reflexivity.
Qed.

Lemma dict_set_keys {V} (d : list (AttackingDirection * V))
  (k : AttackingDirection) (v : V) :
  map fst (dict_set AttackingDirection_eqb d k v)
  = if existsb (AttackingDirection_eqb k) (map fst d) then map fst d
    else (map fst d ++ [k])%list.
Proof.
  induction d as [|[k0 v0] r IH]; simpl; [reflexivity|].
  rewrite (AttackingDirection_eqb_sym k k0).
  destruct (AttackingDirection_eqb k0 k); simpl; [reflexivity|].
  rewrite IH. destruct (existsb (AttackingDirection_eqb k) (map fst r));
    reflexivity.
Qed.

Lemma filter_filter_absorb {A} (f g : A -> bool) (l : list A) :
  (forall a, f a = true -> g a = true) ->
  filter f (filter g l) = filter f l.
Proof.
  intros Hfg. induction l as [|a l IH]; simpl; [reflexivity|].
  destruct (g a) eqn:Hg; simpl.
  - destruct (f a); now rewrite IH.
  - destruct (f a) eqn:Hf; [apply Hfg in Hf; congruence | exact IH].
Qed.

Lemma filter_filter_and {A} (f g : A -> bool) (l : list A) :
  filter f (filter g l) = filter (fun a => g a && f a) l.
Proof.
  induction l as [|a l IH]; simpl; [reflexivity|].
  destruct (g a); simpl; [destruct (f a); now rewrite IH | exact IH].
Qed.

(** The keys of the tally are the keys it started with, then the new
    directions in the order they first occur. *)
Lemma tally_keys (ds : list AttackingDirection) :
  forall acc,
    map fst (fold_left PFF.count_direction ds acc)
    = (map fst acc
       ++ filter (fun x => negb (existsb (AttackingDirection_eqb x) (map fst acc)))
                 (first_seen ds))%list.
Proof.
  induction ds as [|d ds IH]; intros acc; simpl; [now rewrite app_nil_r|].
  rewrite IH. unfold PFF.count_direction. rewrite dict_set_keys.
  destruct (existsb (AttackingDirection_eqb d) (map fst acc)) eqn:Hd; simpl.
  - f_equal. symmetry. apply filter_filter_absorb.
    intros a Ha. apply negb_true_iff. apply negb_true_iff in Ha.
    destruct (AttackingDirection_eqb a d) eqn:Had; [|reflexivity].
    apply AttackingDirection_eqb_iff in Had. subst. congruence.
  - rewrite <- app_assoc. simpl. f_equal. f_equal.
    rewrite filter_filter_and. apply filter_ext. intros a.
    rewrite existsb_app. simpl. rewrite orb_false_r, negb_orb.
    now rewrite andb_comm.
Qed.

Lemma first_seen_in (ds : list AttackingDirection) (d : AttackingDirection) :
  In d (first_seen ds) <-> In d ds.
Proof.
  induction ds as [|x ds IH]; simpl; [tauto|].
  rewrite filter_In, IH. split.
  - intros [-> | [Hin _]]; auto.
  - intros [-> | Hin]; [auto|].
    destruct (AttackingDirection_eqb d x) eqn:Hdx.
    + apply AttackingDirection_eqb_iff in Hdx. auto.
    + right. split; [exact Hin | reflexivity].
Qed.

Lemma tally_entries (ds : list AttackingDirection) (d : AttackingDirection) (v : Z) :
  In (d, v) (fold_left PFF.count_direction ds []) -> v = votes ds d.
Proof.
  intros Hin.
  assert (Hnodup : forall (l : list (AttackingDirection * Z)),
             NoDup (map fst l) -> In (d, v) l ->
             dict_get AttackingDirection_eqb l d = Some v).
  { induction l as [|[k0 v0] r IHr]; simpl; intros Hnd Hl; [destruct Hl|].
    inversion Hnd as [|? ? Hnotin Hnd']; subst.
    destruct Hl as [Heq | Hl].
    - injection Heq as -> ->. now rewrite AttackingDirection_eqb_refl.
    - destruct (AttackingDirection_eqb k0 d) eqn:Hk; [|now apply IHr].
      apply AttackingDirection_eqb_iff in Hk. subst k0.
      exfalso. apply Hnotin. apply in_map_iff. exists (d, v). auto. }
  assert (Hkeys : NoDup (map fst (fold_left PFF.count_direction ds []))).
  { rewrite tally_keys. simpl. apply NoDup_filter.
    clear. induction ds as [|x ds IH]; simpl; constructor.
    - rewrite filter_In. intros [_ Hx].
      now rewrite AttackingDirection_eqb_refl in Hx.
    - now apply NoDup_filter. }
  specialize (Hnodup _ Hkeys Hin). rewrite tally_get in Hnodup. simpl in Hnodup.
  destruct (votes ds d =? 0); congruence.
Qed.

(** [max(d, key=d.get)]: the entry it picks, the entries before it, all
    smaller, and the entries after it, none larger. *)
Lemma max_by_count_first_max (rest : list (AttackingDirection * Z)) :
  forall best v,
    PFF.max_by_count rest best = v ->
    exists before c after,
      best :: rest = (before ++ (v, c) :: after)%list
      /\ (forall e, In e before -> snd e < c)
      /\ (forall e, In e after -> snd e <= c).
Proof.
  induction rest as [|[d x] rest IH]; intros best v Hmax; simpl in Hmax.
  - exists [], (snd best), []. subst v. destruct best. simpl.
    repeat split; intros e [].
  - destruct (snd best <? x) eqn:Hlt.
    + apply Z.ltb_lt in Hlt.
      destruct (IH _ _ Hmax) as (before & c & after & Heq & Hb & Ha).
      exists (best :: before), c, after. rewrite Heq. split; [reflexivity|].
      split; [|exact Ha]. intros e [<- | He]; [|auto].
      destruct before as [|b0 before]; simpl in Heq.
      * injection Heq as _ <- _. exact Hlt.
      * injection Heq as <- _. specialize (Hb (d, x) (or_introl eq_refl)).
        simpl in Hb. lia.
    + apply Z.ltb_ge in Hlt.
      destruct (IH _ _ Hmax) as (before & c & after & Heq & Hb & Ha).
      destruct before as [|b0 before]; simpl in Heq.
      * injection Heq as -> <-. exists [], c, ((d, x) :: rest).
        split; [reflexivity|]. split; [intros e []|].
        intros e [<- | He]; [exact Hlt | auto].
      * injection Heq as <- ->. exists (best :: (d, x) :: before), c, after.
        split; [reflexivity|]. split; [|exact Ha].
        intros e [<- | [<- | He]]; simpl.
        -- apply Hb. now left.
        -- specialize (Hb best (or_introl eq_refl)). lia.
        -- apply Hb. now right.
Qed.

Lemma filter_eq_app_cons {A} (f : A -> bool) (l : list A) :
  forall a v b,
    filter f l = (a ++ v :: b)%list ->
    exists a' b', l = (a' ++ v :: b')%list
                  /\ filter f a' = a /\ filter f b' = b.
Proof.
  induction l as [|x l IH]; intros a v b Hf; simpl in Hf.
  - destruct a; discriminate.
  - destruct (f x) eqn:Hx.
    + destruct a as [|a0 a]; simpl in Hf.
      * injection Hf as -> <-. exists [], l. auto.
      * injection Hf as -> Hf. destruct (IH _ _ _ Hf) as (a' & b' & -> & <- & <-).
        exists (a0 :: a'), b'. simpl. now rewrite Hx.
    + destruct (IH _ _ _ Hf) as (a' & b' & -> & <- & <-).
      exists (x :: a'), b'. simpl. now rewrite Hx.
Qed.

(** A direction listed after [v] among the first occurrences is first
    seen after [v]. *)
Lemma first_seen_order (ds : list AttackingDirection) :
  forall a v b d,
    first_seen ds = (a ++ v :: b)%list -> In d b ->
    exists l1 l2, ds = (l1 ++ v :: l2)%list /\ ~ In d l1.
Proof.
  induction ds as [|x ds IH]; intros a v b d Hfs Hd; simpl in Hfs.
  - destruct a; discriminate.
  - destruct a as [|a0 a]; simpl in Hfs.
    + injection Hfs as -> _. exists [], ds. auto.
    + injection Hfs as -> Hfs.
      destruct (filter_eq_app_cons _ _ _ _ _ Hfs) as (a' & b' & Hseen & _ & Hb).
      assert (Hd' : In d b' /\ d <> a0).
      { rewrite <- Hb in Hd. apply filter_In in Hd. destruct Hd as [Hin Hne].
        split; [exact Hin|]. intros ->.
        now rewrite AttackingDirection_eqb_refl in Hne. }
      destruct Hd' as [Hin Hne].
      destruct (IH _ _ _ _ Hseen Hin) as (l1 & l2 & -> & Hnot).
      exists (a0 :: l1), l2. split; [reflexivity|].
      intros [Heq | Hl1]; [now apply Hne | now apply Hnot].
Qed.

Lemma filter_all {A} (f : A -> bool) (l : list A) :
  (forall a, f a = true) -> filter f l = l.
Proof.
  intros Hf. induction l as [|a l IH]; simpl; [reflexivity|].
  now rewrite Hf, IH.
Qed.

Lemma tally_keys_first_seen (ds : list AttackingDirection) :
  map fst (fold_left PFF.count_direction ds []) = first_seen ds.
Proof. rewrite tally_keys. simpl. now apply filter_all. Qed.

Section Vote.
Context `{Collaborators}.

Lemma check_loop_shift (f : Frame) (et_frames : list Frame) (idx : list nat) :
  forall counts,
    PFF.check_loop (f :: et_frames) (map S idx) counts
    = PFF.check_loop et_frames idx counts.
Proof.
  induction idx as [|i rest IH]; intros counts; simpl; [reflexivity|].
  destruct (nth_error et_frames i) as [g|]; simpl; [|reflexivity].
  destruct (attacking_direction_from_frame g); simpl; [reflexivity | apply IH].
Qed.

Lemma check_loop_estimates (w : nat) :
  forall et_frames counts,
    (w <= List.length et_frames)%nat ->
    (forall f, In f (firstn w et_frames) ->
               is_ok (attacking_direction_from_frame f) = true) ->
    PFF.check_loop et_frames (seq 0 w) counts
    = ok (fold_left PFF.count_direction (estimates (firstn w et_frames)) counts)
    /\ List.length (estimates (firstn w et_frames)) = w.
Proof.
  induction w as [|w IH]; intros et_frames counts Hlen Hok; [split; reflexivity|].
  destruct et_frames as [|f et_frames]; [simpl in Hlen; lia|].
  rewrite <- cons_seq, <- seq_shift. cbn [PFF.check_loop nth_error of_option].
  cbn [Py.bind ok]. unfold estimates. cbn [firstn flat_map].
  specialize (Hok f (or_introl eq_refl)) as Hf.
  destruct (attacking_direction_from_frame f) as [e|d] eqn:Hd; [discriminate|].
  cbn [Py.bind]. rewrite check_loop_shift.
  destruct (IH et_frames (PFF.count_direction counts d)) as [Hloop Hn].
  - simpl in Hlen. lia.
  - intros g Hg. apply Hok. now right.
  - rewrite Hloop. split; [reflexivity|]. simpl. unfold estimates in Hn.
    now rewrite Hn.
Qed.

(** X7. The direction check over a window of [w >= 1] buffered frames on
    which the primitive answers returns the direction with the most
    votes among the estimates of the first [w] frames; when several
    directions share the most votes, it returns the one among them that
    was estimated first. *)
Theorem direction_check_first_plurality (et_frames : list Frame) (w : nat) :
  (0 < w <= List.length et_frames)%nat ->
  (forall f, In f (firstn w et_frames) ->
             is_ok (attacking_direction_from_frame f) = true) ->
  exists v,
    PFF.__check_att_direction et_frames w = inr v
    /\ (forall d, votes (estimates (firstn w et_frames)) d
                  <= votes (estimates (firstn w et_frames)) v)
    /\ (forall d, d <> v ->
                  votes (estimates (firstn w et_frames)) d
                  = votes (estimates (firstn w et_frames)) v ->
                  exists l1 l2,
                    estimates (firstn w et_frames) = (l1 ++ v :: l2)%list
                    /\ ~ In d l1).
Proof.
  intros [Hpos Hlen] Hok. unfold PFF.__check_att_direction.
  destruct (check_loop_estimates w et_frames [] Hlen Hok) as [Hloop Hn].
  rewrite Hloop. cbn [Py.bind ok].
  set (ds := estimates (firstn w et_frames)) in *.
  pose proof (tally_keys_first_seen ds) as Hkeys.
  destruct (fold_left PFF.count_direction ds []) as [|first rest] eqn:Hcounts.
  { destruct ds as [|d0 ds0]; [simpl in Hn; lia | discriminate]. }
  exists (PFF.max_by_count rest first). split; [reflexivity|].
  destruct (max_by_count_first_max rest first _ eq_refl)
    as (before & c & after & Heq & Hbefore & Hafter).
  set (v := PFF.max_by_count rest first) in *.
  assert (Hentry : forall d val, In (d, val) (first :: rest) -> val = votes ds d).
  { intros d val Hin. apply tally_entries. now rewrite Hcounts. }
  assert (Hc : c = votes ds v).
  { apply Hentry. rewrite Heq. apply in_app_iff. right. now left. }
  assert (Hv : In v ds).
  { apply first_seen_in. rewrite <- Hkeys, Heq, map_app. apply in_app_iff.
    right. now left. }
  assert (Hwhere : forall d, In d ds -> d <> v ->
             (In (d, votes ds d) before) \/ (In (d, votes ds d) after)).
  { intros d Hd Hne. apply first_seen_in in Hd. rewrite <- Hkeys in Hd.
    apply in_map_iff in Hd. destruct Hd as [[d' val] [Hfst Hin]].
    simpl in Hfst. subst d'. rewrite (Hentry _ _ Hin) in Hin.
    rewrite Heq in Hin. apply in_app_iff in Hin.
    destruct Hin as [Hin | [Hin | Hin]]; auto.
    injection Hin as Hin _. congruence. }
  split.
  - intros d. destruct (AttackingDirection_eqb d v) eqn:Hdv.
    { apply AttackingDirection_eqb_iff in Hdv. subst d. lia. }
    assert (Hne : d <> v).
    { intros ->. now rewrite AttackingDirection_eqb_refl in Hdv. }
    pose proof (votes_nonneg ds d). pose proof (votes_pos_iff ds d) as Hpd.
    pose proof (votes_pos_iff ds v) as Hpv.
    destruct (Z.eq_dec (votes ds d) 0) as [Hz | Hnz]; [apply Hpv in Hv; lia|].
    assert (Hd : In d ds) by (apply Hpd; lia).
    destruct (Hwhere d Hd Hne) as [Hin | Hin].
    + apply Hbefore in Hin. simpl in Hin. lia.
    + apply Hafter in Hin. simpl in Hin. lia.
  - intros d Hne Htie.
    pose proof (votes_pos_iff ds v) as Hpv. pose proof (votes_pos_iff ds d) as Hpd.
    assert (Hd : In d ds) by (apply Hpd; apply Hpv in Hv; lia).
    destruct (Hwhere d Hd Hne) as [Hin | Hin].
    + apply Hbefore in Hin. simpl in Hin. lia.
    + apply (first_seen_order ds (map fst before) v (map fst after) d).
      * rewrite <- Hkeys, Heq, map_app. reflexivity.
      * apply in_map_iff. exists (d, votes ds d). auto.
Qed.

Lemma nth_error_firstn_lt {A} (l : list A) :
  forall w i, (i < w)%nat -> nth_error (firstn w l) i = nth_error l i.
Proof.
  induction l as [|a l IH]; intros w i Hi.
  - now rewrite firstn_nil.
  - destruct w; [lia|]. destruct i; [reflexivity|]. simpl. apply IH. lia.
Qed.

Lemma check_loop_window (et_frames : list Frame) (w : nat) (idx : list nat) :
  (forall i, In i idx -> (i < w)%nat) ->
  forall counts,
    PFF.check_loop (firstn w et_frames) idx counts
    = PFF.check_loop et_frames idx counts.
Proof.
  induction idx as [|i rest IH]; intros Hidx counts; simpl; [reflexivity|].
  rewrite nth_error_firstn_lt by (apply Hidx; now left).
  destruct (nth_error et_frames i) as [f|]; simpl; [|reflexivity].
  destruct (attacking_direction_from_frame f); simpl; [reflexivity|].
  apply IH. intros j Hj. apply Hidx. now right.
Qed.

(** X8. The direction check looks at the first [w] frames of the buffer
    only: frames after them change neither the verdict nor the exception. *)
Theorem direction_check_window (et_frames : list Frame) (w : nat) :
  PFF.__check_att_direction (firstn w et_frames) w
  = PFF.__check_att_direction et_frames w.
Proof.
  unfold PFF.__check_att_direction. rewrite check_loop_window; [reflexivity|].
  intros i Hi. apply in_seq in Hi. lia.
Qed.

End Vote.

Lemma direction_check_first_plurality_witness :
  exists v,
    PFF.__check_att_direction (H := Concrete.collaborators)
      Concrete.thirty_extra_time_frames 25 = inr v
    /\ votes (estimates (H := Concrete.collaborators)
                (firstn 25 Concrete.thirty_extra_time_frames)) RTL
       <= votes (estimates (H := Concrete.collaborators)
                   (firstn 25 Concrete.thirty_extra_time_frames)) v.
Proof.
  destruct (direction_check_first_plurality (H := Concrete.collaborators)
              Concrete.thirty_extra_time_frames 25) as (v & Hv & Hmost & _).
  - vm_compute. lia.
  - intros f Hf. vm_compute in Hf.
    repeat (destruct Hf as [<- | Hf]; [vm_compute; reflexivity|]).
    destruct Hf.
  - exists v. split; [exact Hv | apply Hmost].
Defined.

(** ** The deserializer object after a call *)

Lemma iter_loop_final (sample : Q) (home away : TeamRef)
  (raw : list PFF.RawFrame) :
  forall n owner,
    snd (PFF.iter_loop sample home away raw n owner)
    = last_known home away owner raw.
Proof.
  induction raw as [|f rest IH]; intros n owner; [reflexivity|].
  rewrite last_known_cons. cbn [PFF.iter_loop].
  destruct (PFF.rf_period f); [|apply IH].
  specialize (IH (n + 1) (PFF.observe home away owner f)).
  destruct (PFF.iter_loop sample home away rest (n + 1)
              (PFF.observe home away owner f)). exact IH.
Qed.

Lemma frames_loop_exhausts (c : Config) (players_ : PFF.Roster * PFF.Roster)
  (periods_ : list (Z * Period)) (items : list PFF.Yielded)
  (final : option TeamRef) :
  truthy_limit (limit c) = false ->
  forall n frames et r owner,
    PFF.frames_loop c players_ periods_ items final n frames et = (inr r, owner) ->
    owner = final.
Proof.
  intros Hno. induction items as [|it rest IH]; intros n frames et r owner Hloop;
    simpl in Hloop.
  - now injection Hloop as _ <-.
  - destruct (PFF._get_frame_data players_ periods_ (PFF.y_owner it)
                (PFF.y_frame it)); [discriminate|].
    rewrite Hno in Hloop. simpl in Hloop. eapply IH; eauto.
Qed.

Section ObjectAfterCall.
Context `{Collaborators}.

(** X9. After a call of the line-delimited reader without limit that
    returns a dataset, the possession attribute of the object is the last
    explicit possession value of the whole raw file, records without
    period and records the sampler skipped included, or, if the file states
    none, what it was before the call. *)
Theorem pff_object_after_call
  (self : PFF.PFF_TrackingDeserializer) (inputs : PFF.PFF_TrackingInputs)
  (ld : PFF.Loaded) (ds : TrackingDataset) (self' : PFF.PFF_TrackingDeserializer) :
  truthy_limit (limit (PFF.cfg self)) = false ->
  PFF.load (PFF.cfg self) inputs = inr ld ->
  PFF.deserialize self inputs = (inr ds, self') ->
  PFF._ball_owning_team self'
  = last_known (PFF.l_home ld) (PFF.l_away ld) (PFF._ball_owning_team self)
      (PFF.l_raw ld)
  /\ PFF.cfg self' = PFF.cfg self.
Proof.
  intros Hno Hload Hds. unfold PFF.deserialize in Hds. rewrite Hload in Hds.
  destruct (PFF.buffer_frames self ld) as [r owner] eqn:Hbuf.
  injection Hds as Hds <-. simpl. split; [|reflexivity].
  destruct r as [e|r]; [discriminate|].
  unfold PFF.buffer_frames in Hbuf.
  pose proof (iter_loop_final (PFF.l_sample ld) (PFF.l_home ld) (PFF.l_away ld)
                (PFF.l_raw ld) 0 (PFF._ball_owning_team self)) as Hfinal.
  destruct (PFF.iter_loop (PFF.l_sample ld) (PFF.l_home ld) (PFF.l_away ld)
              (PFF.l_raw ld) 0 (PFF._ball_owning_team self)) as [items final].
  simpl in Hfinal. subst final.
  eapply frames_loop_exhausts; eauto.
Qed.

End ObjectAfterCall.

Lemma pff_object_after_call_witness :
  PFF._ball_owning_team
    (snd (PFF.deserialize (H := Concrete.collaborators) Concrete.pff_fresh
            Concrete.possession_in_last_record))
  = Some Concrete.away_ref.
Proof.
  destruct (PFF.deserialize (H := Concrete.collaborators) Concrete.pff_fresh
              Concrete.possession_in_last_record) as [[e|ds] self'] eqn:Hd.
  - vm_compute in Hd. discriminate.
  - destruct (pff_object_after_call (H := Concrete.collaborators)
                Concrete.pff_fresh Concrete.possession_in_last_record
                _ ds self' eq_refl eq_refl Hd) as [Howner _].
    simpl. rewrite Howner. vm_compute. reflexivity.
Defined.

(** ** Players of the frames of the line-delimited reader *)

Lemma dict_set_entry {K V} (eqb : K -> K -> bool) (d : list (K * V))
  (k0 : K) (v0 : V) (k : K) (v : V) :
  In (k, v) (dict_set eqb d k0 v0) ->
  (exists v', In (k, v') d) \/ k = k0.
Proof.
  induction d as [|[k1 v1] r IH]; simpl.
  - intros [Heq | []]. injection Heq as <- _. now right.
  - destruct (eqb k1 k0).
    + intros [Heq | Hin].
      * injection Heq as <- _. left. exists v1. now left.
      * left. exists v. now right.
    + intros [Heq | Hin].
      * injection Heq as <- <-. left. exists v1. now left.
      * destruct (IH Hin) as [[v' Hv'] | ->]; [|now right].
        left. exists v'. now right.
Qed.

Lemma roster_scan_on_roster (roster : PFF.Roster) (jersey : string) :
  forall prev p,
    PFF.roster_scan roster jersey prev = Some p ->
    prev = Some p \/ In p (map snd roster).
Proof.
  induction roster as [|[k q] rest IH]; intros prev p Hscan; simpl in Hscan.
  - now left.
  - destruct (Jersey_eqb (jersey_no q) (JStr jersey)).
    + injection Hscan as <-. right. now left.
    + destruct (IH _ _ Hscan) as [Hprev | Hin].
      * injection Hprev as <-. right. now left.
      * right. now right.
Qed.

Lemma side_loop_on_roster (known : Player -> Prop) (roster : PFF.Roster)
  (entries : list PFF.RawPlayer) :
  (forall p, In p (map snd roster) -> known p) ->
  forall player pd player' pd',
    (forall p, player = Some p -> known p) ->
    (forall p v, In (p, v) pd -> known p) ->
    PFF.side_loop roster entries player pd = inr (player', pd') ->
    (forall p, player' = Some p -> known p)
    /\ (forall p v, In (p, v) pd' -> known p).
Proof.
  intros Hroster. induction entries as [|e rest IH];
    intros player pd player' pd' Hplayer Hpd Hloop; simpl in Hloop.
  - injection Hloop as <- <-. auto.
  - destruct (PFF.roster_scan roster (PFF.jerseyNum e) player) as [q|] eqn:Hscan;
      [|discriminate]. simpl in Hloop.
    assert (Hq : known q).
    { destruct (roster_scan_on_roster _ _ _ _ Hscan) as [Hprev | Hin]; auto. }
    eapply IH; [| |exact Hloop].
    + intros p Hp. injection Hp as <-. exact Hq.
    + intros p v Hin. apply dict_set_entry in Hin.
      destruct Hin as [[v' Hv'] | ->]; eauto.
Qed.

Lemma get_frame_data_on_roster (players_ : PFF.Roster * PFF.Roster)
  (periods_ : list (Z * Period)) (owner : option TeamRef) (r : PFF.RawFrame)
  (f : Frame) (p : Player) (v : PlayerData) :
  PFF._get_frame_data players_ periods_ owner r = inr f ->
  In (p, v) (players_data f) ->
  In p (map snd (fst players_)) \/ In p (map snd (snd players_)).
Proof.
  unfold PFF._get_frame_data, PFF.side_block. intros Hf Hin.
  set (known := fun q : Player =>
                  In q (map snd (fst players_)) \/ In q (map snd (snd players_))).
  destruct (match PFF.homePlayersSmoothed r with
            | Some l => PFF.side_loop (fst players_) l None []
            | None => ok (None, [])
            end) as [e|[player pd]] eqn:Hhome; [discriminate|].
  simpl in Hf.
  destruct (match PFF.awayPlayersSmoothed r with
            | Some l => PFF.side_loop (snd players_) l player pd
            | None => ok (player, pd)
            end) as [e|[player' pd']] eqn:Haway; [discriminate|].
  simpl in Hf.
  assert (H1 : (forall q, player = Some q -> known q)
               /\ (forall q w, In (q, w) pd -> known q)).
  { destruct (PFF.homePlayersSmoothed r) as [l|].
    - eapply (side_loop_on_roster known); [| | |exact Hhome].
      + intros q Hq. now left.
      + discriminate.
      + intros q w [].
    - injection Hhome as <- <-. split; [discriminate | intros q w []]. }
  assert (H2 : (forall q, player' = Some q -> known q)
               /\ (forall q w, In (q, w) pd' -> known q)).
  { destruct H1 as [Hp Hd]. destruct (PFF.awayPlayersSmoothed r) as [l|].
    - eapply (side_loop_on_roster known); [| | |exact Haway]; auto.
      intros q Hq. now right.
    - injection Haway as <- <-. auto. }
  destruct H2 as [_ Hd].
  invert_ok Hf; injection Hf as <-; simpl in Hin; eapply Hd; eauto.
Qed.

Section PFFPlayers.
Context `{Collaborators}.

(** X10. The line-delimited reader never creates a player: every player
    of the [players_data] of every frame it returns is on the roster of the
    home team or of the away team of the returned metadata, whatever
    jersey numbers the raw records list. *)
Theorem pff_players_are_on_roster
  (self : PFF.PFF_TrackingDeserializer) (inputs : PFF.PFF_TrackingInputs)
  (ds : TrackingDataset) (self' : PFF.PFF_TrackingDeserializer)
  (f : Frame) (p : Player) (v : PlayerData) :
  PFF.deserialize self inputs = (inr ds, self') ->
  In f (records ds) ->
  In (p, v) (players_data f) ->
  In p (players (fst (teams (metadata ds))))
  \/ In p (players (snd (teams (metadata ds)))).
Proof.
  intros Hds Hf Hp. unfold PFF.deserialize in Hds.
  destruct (PFF.load (PFF.cfg self) inputs) as [e|ld] eqn:Hload; [discriminate|].
  destruct (PFF.buffer_frames self ld) as [r owner] eqn:Hbuf.
  injection Hds as Hds _.
  destruct r as [e|[frames et]]; [discriminate|]. simpl in Hds.
  destruct (PFF.correct_extra_time (PFF.l_direction ld) frames et)
    as [e|recs] eqn:Hrecs; [discriminate|].
  simpl in Hds. injection Hds as <-. simpl in *.
  destruct (correct_extra_time_records _ _ _ _ Hrecs f Hf) as [f0 [Hf0 Hff0]].
  unfold PFF.buffer_frames in Hbuf.
  destruct (PFF.iter_loop (PFF.l_sample ld) (PFF.l_home ld) (PFF.l_away ld)
              (PFF.l_raw ld) 0 (PFF._ball_owning_team self)) as [items final].
  destruct (frames_loop_frames _ _ _ _ _ _ _ _ _ _ _ Hbuf f0 Hf0)
    as [[]|[it [_ Hget]]].
  assert (Hp0 : exists v0, In (p, v0) (players_data f0)).
  { destruct Hff0 as [-> | ->]; [eauto|].
    simpl in Hp. apply in_map_iff in Hp. destruct Hp as [[q w] [Heq Hin]].
    injection Heq as <- _. eauto. }
  destruct Hp0 as [v0 Hv0].
  exact (get_frame_data_on_roster _ _ _ _ _ _ _ Hget Hv0).
Qed.

End PFFPlayers.

Lemma pff_players_are_on_roster_witness :
  Forall (fun e : Player * PlayerData => In (player_id (fst e)) ["h10"; "a9"])
    (players_data
       (nth 0 (Concrete.pff_records Concrete.pff_fresh
                 Concrete.unseen_jersey_archive)
          Concrete.middle_frame)).
Proof.
  apply Forall_forall. intros [p v] Hp.
  destruct (PFF.deserialize (H := Concrete.collaborators) Concrete.pff_fresh
              Concrete.unseen_jersey_archive) as [[e|ds] self'] eqn:Hd;
    [vm_compute in Hd; discriminate|].
  assert (Hrec : Concrete.pff_records Concrete.pff_fresh
                   Concrete.unseen_jersey_archive = records ds)
    by (unfold Concrete.pff_records; now rewrite Hd).
  rewrite Hrec in Hp.
  assert (Hf : In (nth 0 (records ds) Concrete.middle_frame) (records ds)).
  { apply nth_In. vm_compute in Hd. injection Hd as <- _. simpl. lia. }
  destruct (pff_players_are_on_roster (H := Concrete.collaborators)
              _ _ _ _ _ _ _ Hd Hf Hp) as [Hin | Hin];
    vm_compute in Hd; injection Hd as <- _; simpl in Hin;
    destruct Hin as [<- | []]; simpl; auto.
Defined.

(** ** Rosters of the text-line reader *)

Lemma roster_extends_refl (t : Team) : roster_extends t t.
Proof. split; [reflexivity|]. exists []. now rewrite app_nil_r. Qed.

Lemma roster_extends_trans (a b c : Team) :
  roster_extends a b -> roster_extends b c -> roster_extends a c.
Proof.
  intros [Hab [l1 H1]] [Hbc [l2 H2]]. split; [congruence|].
  exists (l1 ++ l2)%list. now rewrite H2, H1, app_assoc.
Qed.

Lemma rosters_grow_refl (teams_ : Tracab.Teams) : rosters_grow teams_ teams_.
Proof. repeat split; auto using roster_extends_refl; exists []; now rewrite app_nil_r. Qed.

Lemma rosters_grow_trans (a b c : Tracab.Teams) :
  rosters_grow a b -> rosters_grow b c -> rosters_grow a c.
Proof.
  intros (H1 & H2 & H3 & H4) (K1 & K2 & K3 & K4).
  repeat split; eauto using roster_extends_trans;
    try (destruct H1, K1; congruence); try (destruct H2, K2; congruence).
  - destruct H1 as [_ [l1 E1]], K1 as [_ [l2 E2]].
    exists (l1 ++ l2)%list. now rewrite E2, E1, app_assoc.
  - destruct H2 as [_ [l1 E1]], K2 as [_ [l2 E2]].
    exists (l1 ++ l2)%list. now rewrite E2, E1, app_assoc.
Qed.

Lemma on_rosters_mono (a b : Tracab.Teams) (p : Player) :
  rosters_grow a b -> on_rosters a p -> on_rosters b p.
Proof.
  intros ([_ [l1 E1]] & [_ [l2 E2]] & _) [Hp | Hp]; [left | right].
  - rewrite E1. apply in_app_iff. now left.
  - rewrite E2. apply in_app_iff. now left.
Qed.

(** Resolving a jersey: the roster grows by at most the one new player,
    the player returned is on it, and distinct jersey numbers stay
    distinct. *)
Lemma resolve_player_grows (t t' : Team) (jersey : string) (p : Player) :
  Tracab.resolve_player t jersey = inr (p, t') ->
  roster_extends t t'
  /\ In p (players t')
  /\ (distinct_jerseys t -> distinct_jerseys t').
Proof.
  unfold Tracab.resolve_player, get_player_by_jersey_number.
  destruct (py_int jersey) as [e|n]; simpl; [discriminate|].
  destruct (find (fun q => Jersey_eqb (jersey_no q) (JInt n)) (players t))
    as [q|] eqn:Hfind; simpl; intros Hres; injection Hres as <- <-.
  - split; [apply roster_extends_refl|]. split; [|auto].
    now apply find_some in Hfind.
  - split; [split; [reflexivity | simpl; eauto]|].
    split; [simpl; apply in_app_iff; right; now left|].
    unfold distinct_jerseys. simpl. intros Hnd.
    rewrite map_app. simpl.
    apply NoDup_app; [exact Hnd | repeat constructor; intros [] |].
    intros j Hj [<- | []]. apply in_map_iff in Hj.
    destruct Hj as [q [Hq Hin]].
    pose proof (find_none _ _ Hfind q Hin) as Hne. simpl in Hne.
    rewrite Hq in Hne. simpl in Hne. now rewrite Z.eqb_refl in Hne.
Qed.

Lemma set_team_grows (teams_ : Tracab.Teams) (g : Ground) (t' : Team) :
  roster_extends (Tracab.get_team teams_ g) t' ->
  (distinct_jerseys (Tracab.get_team teams_ g) -> distinct_jerseys t') ->
  rosters_grow teams_ (Tracab.set_team teams_ g t').
Proof.
  intros Hext Hnd. destruct g; simpl in *; repeat split; simpl;
    auto using roster_extends_refl; try apply Hext;
    exists []; now rewrite app_nil_r.
Qed.

Section TracabRosters.
Context `{Collaborators}.

Lemma player_step_grows (teams_ teams' : Tracab.Teams)
  (pd pd' : list (Player * PlayerData)) (rec : string) :
  Tracab.player_step (teams_, pd) rec = inr (teams', pd') ->
  rosters_grow teams_ teams'
  /\ ((forall p v, In (p, v) pd -> on_rosters teams_ p) ->
      forall p v, In (p, v) pd' -> on_rosters teams' p).
Proof.
  unfold Tracab.player_step. intros Hstep.
  destruct (split "," rec) as [|f1 [|f2 [|f3 [|f4 [|f5 [|f6 [|f7 more]]]]]]];
    try discriminate Hstep.
  destruct (py_int f1) as [e|flag]; [discriminate|]. simpl in Hstep.
  destruct (Tracab.choose_team flag) as [e|[g|]]; simpl in Hstep;
    [discriminate| |].
  - destruct (Tracab.resolve_player (Tracab.get_team teams_ g) f3)
      as [e|[player t']] eqn:Hres; [discriminate|]. simpl in Hstep.
    destruct (py_float f4); [discriminate|]. simpl in Hstep.
    destruct (py_float f5); [discriminate|]. simpl in Hstep.
    destruct (py_float f6); [discriminate|]. simpl in Hstep.
    injection Hstep as <- <-.
    destruct (resolve_player_grows _ _ _ _ Hres) as (Hext & Hin & Hnd).
    pose proof (set_team_grows teams_ g t' Hext Hnd) as Hgrow.
    split; [exact Hgrow|]. intros Hpd p v Hp.
    apply dict_set_entry in Hp. destruct Hp as [[v' Hv'] | ->].
    + eapply on_rosters_mono; eauto.
    + destruct g; [left | right]; exact Hin.
  - injection Hstep as <- <-. split; [apply rosters_grow_refl | auto].
Qed.

Lemma players_loop_grows (recs : list string) :
  forall teams_ pd teams' pd',
    Tracab.players_loop (teams_, pd) recs = inr (teams', pd') ->
    rosters_grow teams_ teams'
    /\ ((forall p v, In (p, v) pd -> on_rosters teams_ p) ->
        forall p v, In (p, v) pd' -> on_rosters teams' p).
Proof.
  induction recs as [|rec rest IH]; intros teams_ pd teams' pd' Hloop;
    cbn [Tracab.players_loop] in Hloop.
  - injection Hloop as <- <-. split; [apply rosters_grow_refl | auto].
  - destruct (Tracab.player_step (teams_, pd) rec) as [e|[t1 pd1]] eqn:Hstep;
      cbn [Py.bind] in Hloop; [discriminate|].
    destruct (player_step_grows _ _ _ _ _ Hstep) as [Hg1 Hk1].
    destruct (IH _ _ _ _ Hloop) as [Hg2 Hk2].
    split; [eapply rosters_grow_trans; eauto|].
    intros Hpd. apply Hk2. apply Hk1. exact Hpd.
Qed.

Lemma frame_from_line_grows (teams_ teams' : Tracab.Teams) (p : Period)
  (line : string) (rate : Q) (f : Frame) :
  Tracab._frame_from_line teams_ p line rate = inr (f, teams') ->
  rosters_grow teams_ teams'
  /\ forall q v, In (q, v) (players_data f) -> on_rosters teams' q.
Proof.
  unfold Tracab._frame_from_line. intros Hf.
  destruct (firstn 3 (split ":" (strip str_isspace line)))
    as [|fid [|players_ [|ball [|extra more]]]]; try discriminate Hf.
  destruct (Tracab.players_loop (teams_, []) (removelast (split ";" players_)))
    as [e|[t1 pd]] eqn:Hloop; [discriminate|].
  destruct (players_loop_grows _ _ _ _ _ Hloop) as [Hgrow Hkeys].
  cbn [Py.bind] in Hf.
  invert_ok Hf; injection Hf as <- <-; simpl; (split; [exact Hgrow|]);
    apply Hkeys; intros ? ? [].
Qed.

Lemma tracab_frames_loop_grows (c : Config) (rate : Q)
  (items : list (Period * string)) (end_ : option exn) :
  forall n teams_ frames frames' teams',
    Tracab.frames_loop c rate items end_ n teams_ frames = inr (frames', teams') ->
    rosters_grow teams_ teams'
    /\ forall f, In f frames' ->
         In f frames
         \/ exists f0, f = transform_frame f0
              /\ forall q v, In (q, v) (players_data f0) -> on_rosters teams' q.
Proof.
  induction items as [|[p line] rest IH];
    intros n teams_ frames frames' teams' Hloop; simpl in Hloop.
  - destruct end_; [discriminate|]. injection Hloop as <- <-.
    split; [apply rosters_grow_refl | auto].
  - destruct (Tracab._frame_from_line teams_ p line rate) as [e|[f0 t1]] eqn:Hline;
      [discriminate|]. simpl in Hloop.
    destruct (frame_from_line_grows _ _ _ _ _ _ Hline) as [Hg1 Hk1].
    destruct (truthy_limit (limit c) && (limit_value (limit c) <=? n)).
    + injection Hloop as <- <-. split; [exact Hg1|].
      intros f Hf. apply in_app_iff in Hf. destruct Hf as [Hf | [<- | []]];
        [now left | right; eauto].
    + destruct (IH _ _ _ _ _ Hloop) as [Hg2 Hk2].
      split; [eapply rosters_grow_trans; eauto|].
      intros f Hf. destruct (Hk2 f Hf) as [Hin | Hnew]; [|now right].
      apply in_app_iff in Hin. destruct Hin as [Hin | [<- | []]]; [now left|].
      right. exists f0. split; [reflexivity|].
      intros q v Hq. eapply on_rosters_mono; eauto.
Qed.

(** X11. The text-line reader only ever adds players at the end of the
    two rosters it was given: the teams of the returned metadata keep
    their identity and their players, in order, and a roster whose jersey
    numbers were pairwise distinct still has pairwise distinct jersey
    numbers, however often a new jersey number occurs in the file. *)
Theorem tracab_rosters_grow (c : Config) (inputs : Tracab.TRACABInputs)
  (ds : TrackingDataset) :
  Tracab.deserialize c inputs = inr ds ->
  rosters_grow (Tracab.meta_teams inputs) (teams (metadata ds)).
Proof.
  intros Hds. unfold Tracab.deserialize in Hds.
  destruct (Tracab.frames_loop c (Tracab.meta_frame_rate inputs)
              (yields (Tracab._iter c inputs)) (raised (Tracab._iter c inputs))
              0 (Tracab.meta_teams inputs) []) as [e|[frames teams']] eqn:Hloop;
    [discriminate|]. simpl in Hds.
  destruct (Tracab.orientation_of frames) as [e|o]; [discriminate|].
  simpl in Hds. injection Hds as <-. simpl.
  now destruct (tracab_frames_loop_grows _ _ _ _ _ _ _ _ _ Hloop).
Qed.

(** X12. Every player of the [players_data] of every frame the text-line
    reader returns is on the roster of one of the two teams of the
    returned metadata (the transformer keeping the keys of
    [players_data]). *)
Theorem tracab_players_are_on_roster (c : Config)
  (inputs : Tracab.TRACABInputs) (ds : TrackingDataset) (f : Frame)
  (p : Player) :
  (forall g, map fst (players_data (transform_frame g))
             = map fst (players_data g)) ->
  Tracab.deserialize c inputs = inr ds ->
  In f (records ds) ->
  In p (map fst (players_data f)) ->
  on_rosters (teams (metadata ds)) p.
Proof.
  intros Htr Hds Hf Hp. unfold Tracab.deserialize in Hds.
  destruct (Tracab.frames_loop c (Tracab.meta_frame_rate inputs)
              (yields (Tracab._iter c inputs)) (raised (Tracab._iter c inputs))
              0 (Tracab.meta_teams inputs) []) as [e|[frames teams']] eqn:Hloop;
    [discriminate|]. simpl in Hds.
  destruct (Tracab.orientation_of frames) as [e|o]; [discriminate|].
  simpl in Hds. injection Hds as <-. simpl in *.
  destruct (tracab_frames_loop_grows _ _ _ _ _ _ _ _ _ Hloop) as [_ Hkeys].
  destruct (Hkeys f Hf) as [[] | [f0 [-> Hf0]]].
  rewrite Htr in Hp. apply in_map_iff in Hp.
  destruct Hp as [[q v] [Hq Hin]]. simpl in Hq. subst q. eauto.
Qed.

End TracabRosters.

Lemma tracab_rosters_grow_witness :
  match Tracab.deserialize (H := Concrete.collaborators) Concrete.default_cfg
          Concrete.substitute_twice with
  | inr ds =>
      rosters_grow (Concrete.home_team, Concrete.away_team) (teams (metadata ds))
      /\ map player_id (players (fst (teams (metadata ds)))) = ["h10"; "home_7"]
  | inl _ => False
  end.
Proof.
  destruct (Tracab.deserialize (H := Concrete.collaborators) Concrete.default_cfg
              Concrete.substitute_twice) as [e|ds] eqn:Hd.
  - vm_compute in Hd. discriminate.
  - split.
    + exact (tracab_rosters_grow (H := Concrete.collaborators) _ _ _ Hd).
    + vm_compute in Hd. injection Hd as <-. reflexivity.
Defined.

Lemma tracab_players_are_on_roster_witness :
  match Tracab.deserialize (H := Concrete.collaborators) Concrete.default_cfg
          Concrete.substitute_twice with
  | inr ds =>
      Forall (fun f => Forall (on_rosters (teams (metadata ds)))
                              (map fst (players_data f)))
             (records ds)
  | inl _ => False
  end.
Proof.
  destruct (Tracab.deserialize (H := Concrete.collaborators) Concrete.default_cfg
              Concrete.substitute_twice) as [e|ds] eqn:Hd.
  - vm_compute in Hd. discriminate.
  - apply Forall_forall. intros f Hf. apply Forall_forall. intros p Hp.
    exact (tracab_players_are_on_roster (H := Concrete.collaborators)
             _ _ _ f p (fun g => eq_refl) Hd Hf Hp).
Defined.

(** ** Blank lines, orientation and counts of the text-line reader *)

Lemma classify_blank (c : Config) (raw : string) :
  is_blank raw = true -> Tracab.classify c raw = Tracab.Blank.
Proof.
  unfold is_blank, Tracab.classify. intros Hb. apply String.eqb_eq in Hb.
  rewrite Hb. reflexivity.
Qed.

Lemma classify_not_blank (c : Config) (raw : string) :
  is_blank raw = false -> Tracab.classify c raw <> Tracab.Blank.
Proof.
  unfold is_blank, Tracab.classify. intros Hb.
  destruct (decode_ascii (strip bytes_isspace raw)) as [e|line] eqn:Hdec;
    [discriminate|].
  unfold decode_ascii in Hdec.
  destruct (is_ascii (strip bytes_isspace raw)); [|discriminate].
  injection Hdec as <-. rewrite Hb.
  destruct (py_int (before_first ":" (prefix_slice 10 (strip bytes_isspace raw))));
    [discriminate|].
  destruct (only_alive c && negb (endswith "Alive;:" (strip bytes_isspace raw)));
    discriminate.
Qed.

Lemma lines_loop_skips_blank (c : Config) (sample : Q) (ps : list Period)
  (rate : Q) (lines : list string) :
  forall n,
    Tracab.lines_loop c sample ps rate lines n
    = Tracab.lines_loop c sample ps rate
        (filter (fun l => negb (is_blank l)) lines) n.
Proof.
  induction lines as [|raw rest IH]; intros n; [reflexivity|].
  cbn [filter]. destruct (is_blank raw) eqn:Hb; cbn [negb].
  - cbn [Tracab.lines_loop]. rewrite (classify_blank c raw Hb). apply IH.
  - cbn [Tracab.lines_loop].
    destruct (Tracab.classify c raw) as [| |line fid|e]; try apply IH;
      try reflexivity.
    destruct (Tracab.period_loop sample rate fid line ps n) as [ys [e|n']];
      [reflexivity|]. now rewrite IH.
Qed.

Section TracabEdges.
Context `{Collaborators}.

(** X13. Blank lines (empty once surrounding whitespace is stripped) have
    no effect on the text-line reader: removing them from the raw file
    changes neither the dataset nor the exception, and they do not advance
    the sampler's counter. *)
Theorem tracab_blank_lines_ignored (c : Config) (inputs : Tracab.TRACABInputs) :
  Tracab.deserialize c inputs
  = Tracab.deserialize c
      (with_lines inputs
         (filter (fun l => negb (is_blank l)) (Tracab.raw_data inputs))).
Proof.
  unfold Tracab.deserialize, Tracab._iter, with_lines. simpl.
  destruct (sample_of c) as [e|sample]; [reflexivity|].
  now rewrite <- lines_loop_skips_blank.
Qed.


End TracabEdges.


Lemma tracab_limit_plus_one_witness :
  match Tracab.deserialize (H := Concrete.collaborators) (Concrete.cfg_limit 1)
          Concrete.six_lines with
  | inr ds => Z.of_nat (List.length (records ds)) <= 1 + 1
  | inl _ => False
  end.
Proof.
  destruct (Tracab.deserialize (H := Concrete.collaborators)
              (Concrete.cfg_limit 1) Concrete.six_lines) as [e|ds] eqn:Hd.
  - vm_compute in Hd. discriminate.
  - apply (tracab_limit_plus_one (H := Concrete.collaborators)
             (Concrete.cfg_limit 1) Concrete.six_lines ds 1 eq_refl); [lia|].
    exact Hd.
Defined.

Lemma tracab_full_rate_count_witness :
  match Tracab.deserialize (H := Concrete.collaborators) Concrete.default_cfg
          Concrete.six_lines with
  | inr ds =>
      List.length (records ds)
      = List.length (tracab_eligible Concrete.default_cfg Concrete.six_lines)
  | inl _ => False
  end.
Proof.
  destruct (Tracab.deserialize (H := Concrete.collaborators) Concrete.default_cfg
              Concrete.six_lines) as [e|ds] eqn:Hd.
  - vm_compute in Hd. discriminate.
  - exact (tracab_full_rate_count (H := Concrete.collaborators)
             Concrete.default_cfg Concrete.six_lines ds eq_refl eq_refl Hd).
Defined.

Lemma pff_limit_respected_witness :
  match fst (PFF.deserialize (H := Concrete.collaborators) Concrete.pff_limited
               (Concrete.possession_stream true false)) with
  | inr ds => Z.of_nat (List.length (records ds)) <= 1
  | inl _ => False
  end.
Proof.
  destruct (PFF.deserialize (H := Concrete.collaborators) Concrete.pff_limited
              (Concrete.possession_stream true false)) as [[e|ds] self'] eqn:Hd.
  - vm_compute in Hd. discriminate.
  - simpl. apply (pff_limit_respected (H := Concrete.collaborators)
                    Concrete.pff_limited (Concrete.possession_stream true false)
                    ds self' 1 eq_refl); [lia | exact Hd].
Defined.

(** ** Edge behaviour of the markup reader *)

Lemma raw_frames_set_has (rf : Sportec.RawFrames) (fid : Z) (key : string)
  (od : Sportec.ObjectData) :
  has_object (Sportec.raw_frames_set rf fid key od) fid key = true.
Proof.
  unfold has_object, Sportec.raw_frames_set.
  rewrite (dict_get_set _ Z_eqb_iff), Z.eqb_refl.
  rewrite (dict_get_set _ String.eqb_eq), String.eqb_refl. reflexivity.
Qed.

Lemma raw_frames_set_keeps (rf : Sportec.RawFrames) (fid : Z) (key : string)
  (od : Sportec.ObjectData) (fid' : Z) (key' : string) :
  has_object rf fid' key' = true ->
  has_object (Sportec.raw_frames_set rf fid key od) fid' key' = true.
Proof.
  unfold has_object, Sportec.raw_frames_set. intros Hhas.
  rewrite (dict_get_set _ Z_eqb_iff).
  destruct (fid =? fid') eqn:Hfid; [|exact Hhas].
  apply Z.eqb_eq in Hfid. subst fid'.
  rewrite (dict_get_set _ String.eqb_eq).
  destruct (String.eqb key key'); [reflexivity|].
  destruct (dict_get Z.eqb rf fid); [exact Hhas | discriminate].
Qed.

Lemma nodes_loop_keeps (key : string) (nodes : list Sportec.FrameNode) :
  forall rf rf' fid' key',
    Sportec.nodes_loop key rf nodes = inr rf' ->
    has_object rf fid' key' = true -> has_object rf' fid' key' = true.
Proof.
  induction nodes as [|fr rest IH]; intros rf rf' fid' key' Hloop Hhas.
  - injection Hloop as <-. exact Hhas.
  - cbn [Sportec.nodes_loop] in Hloop.
    destruct (Sportec.object_data_of key fr) as [e|od]; [discriminate|].
    simpl in Hloop. apply (IH _ _ _ _ Hloop). now apply raw_frames_set_keeps.
Qed.

Lemma nodes_loop_has (key : string) (nodes : list Sportec.FrameNode) :
  forall rf rf' fr,
    Sportec.nodes_loop key rf nodes = inr rf' ->
    In fr nodes -> has_object rf' (Sportec.attr_N fr) key = true.
Proof.
  induction nodes as [|fr0 rest IH]; intros rf rf' fr Hloop Hin; [destruct Hin|].
  cbn [Sportec.nodes_loop] in Hloop.
  destruct (Sportec.object_data_of key fr0) as [e|od]; [discriminate|].
  simpl in Hloop. destruct Hin as [<- | Hin].
  - apply (nodes_loop_keeps _ _ _ _ _ _ Hloop). apply raw_frames_set_has.
  - exact (IH _ _ _ Hloop Hin).
Qed.

Lemma frame_sets_loop_keeps (sets : list Sportec.FrameSet) :
  forall rf rf' fid' key',
    Sportec.frame_sets_loop rf sets = inr rf' ->
    has_object rf fid' key' = true -> has_object rf' fid' key' = true.
Proof.
  induction sets as [|fs rest IH]; intros rf rf' fid' key' Hloop Hhas.
  - injection Hloop as <-. exact Hhas.
  - cbn [Sportec.frame_sets_loop] in Hloop.
    destruct (if String.eqb (Sportec.TeamId fs) "BALL" then ok "ball"
              else of_option (Sportec.PersonId fs) (KeyError "PersonId"))
      as [e|key]; [discriminate|]. simpl in Hloop.
    destruct (Sportec.nodes_loop key rf (Sportec.frame_nodes fs)) as [e|rf1] eqn:Hn;
      [discriminate|]. simpl in Hloop.
    apply (IH _ _ _ _ Hloop). exact (nodes_loop_keeps _ _ _ _ _ _ Hn Hhas).
Qed.

Lemma frame_sets_loop_has (sets : list Sportec.FrameSet) :
  forall rf rf' fs key fr,
    Sportec.frame_sets_loop rf sets = inr rf' ->
    In fs sets -> track_key fs = Some key -> In fr (Sportec.frame_nodes fs) ->
    has_object rf' (Sportec.attr_N fr) key = true.
Proof.
  induction sets as [|fs0 rest IH]; intros rf rf' fs key fr Hloop Hin Hkey Hfr;
    [destruct Hin|].
  cbn [Sportec.frame_sets_loop] in Hloop.
  destruct (if String.eqb (Sportec.TeamId fs0) "BALL" then ok "ball"
            else of_option (Sportec.PersonId fs0) (KeyError "PersonId"))
    as [e|key0] eqn:Hkey0; [discriminate|]. simpl in Hloop.
  destruct (Sportec.nodes_loop key0 rf (Sportec.frame_nodes fs0)) as [e|rf1] eqn:Hn;
    [discriminate|]. simpl in Hloop.
  destruct Hin as [<- | Hin].
  - apply (frame_sets_loop_keeps _ _ _ _ _ Hloop).
    assert (key0 = key) as ->.
    { unfold track_key in Hkey.
      destruct (String.eqb (Sportec.TeamId fs0) "BALL").
      - injection Hkey0 as <-. now injection Hkey as <-.
      - rewrite Hkey in Hkey0. now injection Hkey0 as <-. }
    exact (nodes_loop_has _ _ _ _ _ Hn Hfr).
  - exact (IH _ _ _ _ _ Hloop Hin Hkey Hfr).
Qed.

(** X18. [_read_section_data] loses no track node: every [Frame] node of
    every frame set of the period's game section is present in the returned
    map, under its frame number [N] and the key of its track ([ball] or the
    person id); tracks of different frame sets are merged by frame
    number. *)
Theorem sportec_section_keeps_every_node (data_root : list Sportec.FrameSet)
  (p : Period) (rf : Sportec.RawFrames) (fs : Sportec.FrameSet)
  (key : string) (fr : Sportec.FrameNode) :
  Sportec._read_section_data data_root p = inr rf ->
  In fs data_root ->
  Sportec.PERIOD_ID_TO_GAME_SECTION (id p) = inr (Sportec.GameSection fs) ->
  track_key fs = Some key ->
  In fr (Sportec.frame_nodes fs) ->
  has_object rf (Sportec.attr_N fr) key = true.
Proof.
  intros Hread Hfs Hsec Hkey Hfr. unfold Sportec._read_section_data in Hread.
  rewrite Hsec in Hread. simpl in Hread.
  apply (frame_sets_loop_has _ _ _ fs key fr Hread); try assumption.
  apply filter_In. split; [exact Hfs | apply String.eqb_refl].
Qed.

Lemma sportec_section_keeps_every_node_witness :
  match Sportec._read_section_data
          (Sportec.raw_data Concrete.three_alive_ticks) Concrete.first_half with
  | inr rf => has_object rf 1001 "a9" = true
  | inl _ => False
  end.
Proof.
  destruct (Sportec._read_section_data
              (Sportec.raw_data Concrete.three_alive_ticks) Concrete.first_half)
    as [e|rf] eqn:Hread.
  - vm_compute in Hread. discriminate.
  - apply (sportec_section_keeps_every_node _ _ rf
             (Concrete.track "firstHalf" "A1" "a9"
                [Concrete.node 1000 None; Concrete.node 1001 None;
                 Concrete.node 1002 None])
             "a9" (Concrete.node 1001 None) Hread).
    + right. right. left. reflexivity.
    + reflexivity.
    + reflexivity.
    + right. left. reflexivity.
Defined.

Lemma unknown_section_raises (data_root : list Sportec.FrameSet) (p : Period) :
  known_section p = false ->
  exists e, Sportec._read_section_data data_root p = inl e.
Proof.
  unfold known_section, Sportec._read_section_data,
    Sportec.PERIOD_ID_TO_GAME_SECTION. intros Hk.
  destruct (Z.eqb_spec (id p) 1) as [E|_]; [rewrite E in Hk; discriminate|].
  destruct (Z.eqb_spec (id p) 2) as [E|_]; [rewrite E in Hk; discriminate|].
  destruct (Z.eqb_spec (id p) 3) as [E|_]; [rewrite E in Hk; discriminate|].
  destruct (Z.eqb_spec (id p) 4) as [E|_]; [rewrite E in Hk; discriminate|].
  eexists. reflexivity.
Qed.

Lemma periods_loop_unknown_section (c : Config) (sample : Q)
  (teams_ : Team * Team) (fps : Q) (player_map : list (string * Player))
  (data_root : list Sportec.FrameSet) (ps : list Period) (p : Period) :
  In p ps -> known_section p = false ->
  raised (Sportec.periods_loop c sample teams_ fps player_map data_root ps)
  <> None.
Proof.
  intros Hin Hk. induction ps as [|p0 rest IH]; [destruct Hin|].
  cbn [Sportec.periods_loop].
  destruct (Sportec._read_section_data data_root p0) as [e|raw_frames] eqn:Hread;
    [discriminate|].
  destruct (raised (Sportec.ticks_loop c sample teams_ fps player_map p0
                      raw_frames 0)) as [e|] eqn:Hr.
  - rewrite Hr. discriminate.
  - simpl. destruct Hin as [-> | Hin]; [|now apply IH].
    destruct (unknown_section_raises data_root p Hk) as [e He].
    rewrite He in Hread. discriminate.
Qed.

Section SportecEdges.
Context `{Collaborators}.

Lemma sportec_frames_loop_fails (c : Config) (e : exn) (items : list Frame) :
  truthy_limit (limit c) = false ->
  forall n dirs frames,
    is_ok (Sportec.frames_loop c items (Some e) n dirs frames) = false.
Proof.
  intros Hno. induction items as [|f rest IH]; intros n dirs frames;
    [reflexivity|].
  cbn [Sportec.frames_loop].
  destruct (dict_get Z.eqb dirs (id (period (transform_frame f)))) as [d|].
  - simpl. rewrite Hno. simpl. apply IH.
  - destruct (attacking_direction_from_frame (transform_frame f)) as [e'|d];
      [reflexivity|]. simpl. rewrite Hno. simpl. apply IH.
Qed.

(** X19. Without a limit, the markup reader fails on a match whose period
    list holds a period with an id outside 1..4 (the game sections it
    knows): [deserialize] raises, whatever the positions file holds. *)
Theorem sportec_unknown_section_fails (c : Config)
  (inputs : Sportec.SportecTrackingDataInputs) (p : Period) :
  truthy_limit (limit c) = false ->
  In p (Sportec.meta_periods inputs) ->
  known_section p = false ->
  is_ok (Sportec.deserialize c inputs) = false.
Proof.
  intros Hno Hin Hk. unfold Sportec.deserialize, Sportec.buffered_frames.
  assert (Hraised : exists e, raised (Sportec._iter c inputs) = Some e).
  { unfold Sportec._iter. destruct (sample_of c) as [e|sample];
      [now exists e|].
    pose proof (periods_loop_unknown_section c sample (Sportec.meta_teams inputs)
                  (Sportec.meta_fps inputs)
                  (Sportec.player_map_of (Sportec.meta_teams inputs))
                  (Sportec.raw_data inputs) _ p Hin Hk) as Hne.
    destruct (raised (Sportec.periods_loop c sample (Sportec.meta_teams inputs)
                        (Sportec.meta_fps inputs)
                        (Sportec.player_map_of (Sportec.meta_teams inputs))
                        (Sportec.raw_data inputs) (Sportec.meta_periods inputs)))
      as [e|]; [now exists e | now destruct Hne]. }
  destruct Hraised as [e He]. rewrite He.
  pose proof (sportec_frames_loop_fails c e (yields (Sportec._iter c inputs))
                Hno 0 [] []) as Hfail.
  destruct (Sportec.frames_loop c (yields (Sportec._iter c inputs)) (Some e)
              0 [] []) as [e'|r]; [reflexivity | discriminate].
Qed.

(** X20. On a match without periods the markup reader raises: the error of
    [1.0 / sample_rate] if the sample rate is unusable, [IndexError]
    (at [periods[0]]) otherwise. *)
Theorem sportec_no_periods (c : Config)
  (inputs : Sportec.SportecTrackingDataInputs) :
  Sportec.meta_periods inputs = [] ->
  Sportec.deserialize c inputs
  = inl (match sample_of c with
         | inl e => e
         | inr _ => IndexError
         end).
Proof.
  intros Hnil. unfold Sportec.deserialize, Sportec.buffered_frames, Sportec._iter.
  rewrite Hnil. destruct (sample_of c); reflexivity.
Qed.

End SportecEdges.

Lemma sportec_unknown_section_fails_witness :
  is_ok (Sportec.deserialize (H := Concrete.collaborators) Concrete.default_cfg
           (with_periods Concrete.three_alive_ticks
              [Concrete.first_half; Concrete.shoot_out])) = false.
Proof.
  apply (sportec_unknown_section_fails (H := Concrete.collaborators)
           Concrete.default_cfg _ Concrete.shoot_out).
  - reflexivity.
  - right. left. reflexivity.
  - reflexivity.
Defined.

Lemma sportec_no_periods_witness :
  Sportec.deserialize (H := Concrete.collaborators) Concrete.default_cfg
    (with_periods Concrete.three_alive_ticks [])
  = inl IndexError.
Proof.
  exact (sportec_no_periods (H := Concrete.collaborators) Concrete.default_cfg
           (with_periods Concrete.three_alive_ticks []) eq_refl).
Defined.

(** ** Frames the markup reader yields *)

Lemma ticks_loop_origin (c : Config) (sample : Q) (teams_ : Team * Team)
  (fps : Q) (player_map : list (string * Player)) (p : Period)
  (ticks : Sportec.RawFrames) (f : Frame) :
  forall i,
    In f (yields (Sportec.ticks_loop c sample teams_ fps player_map p ticks i)) ->
    exists fid frame_data ball_data,
      In (fid, frame_data) ticks
      /\ Sportec.classify c frame_data = Sportec.Eligible ball_data
      /\ Sportec.make_frame teams_ fps player_map p fid frame_data ball_data
         = inr f.
Proof.
  induction ticks as [|[fid fd] rest IH]; intros i Hin; [destruct Hin|].
  assert (Hrest : In f (yields (Sportec.ticks_loop c sample teams_ fps
                                  player_map p rest (i + 1))) ->
                  exists fid' frame_data ball_data,
                    In (fid', frame_data) ((fid, fd) :: rest)
                    /\ Sportec.classify c frame_data = Sportec.Eligible ball_data
                    /\ Sportec.make_frame teams_ fps player_map p fid'
                         frame_data ball_data = inr f).
  { intros Hr. destruct (IH _ Hr) as (fid' & fd' & bd' & H1 & H2 & H3).
    exists fid', fd', bd'. split; [now right | now split]. }
  cbn [Sportec.ticks_loop] in Hin. cbv zeta in Hin.
  destruct (Sportec.classify c fd) as [| |bd|e] eqn:Hcl;
    [now apply Hrest | now apply Hrest | | destruct Hin].
  destruct (mod_is_zero i sample); [|now apply Hrest].
  destruct (Sportec.make_frame teams_ fps player_map p fid fd bd) as [e|g] eqn:Hmk;
    [destruct Hin|].
  destruct Hin as [<- | Hin]; [|now apply Hrest].
  exists fid, fd, bd. split; [now left | now split].
Qed.

Lemma periods_loop_origin (c : Config) (sample : Q) (teams_ : Team * Team)
  (fps : Q) (player_map : list (string * Player))
  (data_root : list Sportec.FrameSet) (ps : list Period) (f : Frame) :
  In f (yields (Sportec.periods_loop c sample teams_ fps player_map data_root ps)) ->
  exists p fid frame_data ball_data,
    In p ps
    /\ Sportec.classify c frame_data = Sportec.Eligible ball_data
    /\ Sportec.make_frame teams_ fps player_map p fid frame_data ball_data
       = inr f.
Proof.
  induction ps as [|p0 rest IH]; intros Hin; [destruct Hin|].
  cbn [Sportec.periods_loop] in Hin.
  destruct (Sportec._read_section_data data_root p0) as [e|raw_frames];
    [destruct Hin|]. cbv zeta in Hin.
  assert (Hhere : In f (yields (Sportec.ticks_loop c sample teams_ fps player_map
                                  p0 raw_frames 0)) ->
                  exists p fid frame_data ball_data,
                    In p (p0 :: rest)
                    /\ Sportec.classify c frame_data = Sportec.Eligible ball_data
                    /\ Sportec.make_frame teams_ fps player_map p fid
                         frame_data ball_data = inr f).
  { intros Hh. destruct (ticks_loop_origin _ _ _ _ _ _ _ _ _ Hh)
      as (fid & fd & bd & _ & H2 & H3).
    exists p0, fid, fd, bd. split; [now left | now split]. }
  destruct (raised (Sportec.ticks_loop c sample teams_ fps player_map p0
                      raw_frames 0)); [now apply Hhere|].
  cbn [yields] in Hin. apply in_app_or in Hin. destruct Hin as [Hin | Hin];
    [now apply Hhere|].
  destruct (IH Hin) as (p & fid & fd & bd & H1 & H2 & H3).
  exists p, fid, fd, bd. split; [now right | now split].
Qed.

Lemma iter_origin (c : Config) (inputs : Sportec.SportecTrackingDataInputs)
  (f : Frame) :
  In f (yields (Sportec._iter c inputs)) ->
  exists p fid frame_data ball_data,
    In p (Sportec.meta_periods inputs)
    /\ Sportec.classify c frame_data = Sportec.Eligible ball_data
    /\ Sportec.make_frame (Sportec.meta_teams inputs) (Sportec.meta_fps inputs)
         (Sportec.player_map_of (Sportec.meta_teams inputs)) p fid
         frame_data ball_data = inr f.
Proof.
  unfold Sportec._iter. destruct (sample_of c) as [e|sample]; [intros []|].
  apply periods_loop_origin.
Qed.

Lemma make_frame_fields (teams_ : Team * Team) (fps : Q)
  (player_map : list (string * Player)) (p : Period) (fid : Z)
  (frame_data : Sportec.FrameData) (ball_data : Sportec.ObjectData) (f : Frame) :
  Sportec.make_frame teams_ fps player_map p fid frame_data ball_data = inr f ->
  exists st pd,
    Sportec.od_state ball_data = Some st
    /\ Sportec.players_data_of player_map frame_data [] = inr pd
    /\ ball_state f = Some (if st =? 1 then ALIVE else DEAD)
    /\ players_data f = pd
    /\ period f = p.
Proof.
  unfold Sportec.make_frame. intros Hmk.
  destruct (true_div (inject_Z fid) fps) as [e|t]; [discriminate|]. simpl in Hmk.
  destruct (Sportec.od_possession ball_data) as [po|]; [|discriminate].
  simpl in Hmk.
  destruct (Sportec.od_state ball_data) as [st|]; [|discriminate]. simpl in Hmk.
  destruct (Sportec.players_data_of player_map frame_data []) as [e|pd];
    [discriminate|]. simpl in Hmk.
  destruct (Sportec.od_z ball_data) as [bz|]; [|discriminate]. simpl in Hmk.
  injection Hmk as <-. exists st, pd. repeat split; reflexivity.
Qed.

(** X21. With [only_alive] set, every frame the generator of the markup
    reader yields has ball state [ALIVE]: a raw frame whose ball status is
    not 1 never becomes a frame. *)
Theorem sportec_only_alive_yields_alive (c : Config)
  (inputs : Sportec.SportecTrackingDataInputs) (f : Frame) :
  only_alive c = true ->
  In f (yields (Sportec._iter c inputs)) ->
  ball_state f = Some ALIVE.
Proof.
  intros Halive Hin.
  destruct (iter_origin c inputs f Hin) as (p & fid & fd & bd & _ & Hcl & Hmk).
  destruct (make_frame_fields _ _ _ _ _ _ _ _ Hmk) as (st & pd & Hst & _ & Hbs & _).
  rewrite Hbs. unfold Sportec.classify in Hcl. rewrite Halive in Hcl.
  destruct (dict_get String.eqb fd "ball") as [bd'|]; [|discriminate].
  destruct (Sportec.od_state bd') as [st'|] eqn:Hst'; [|discriminate].
  destruct (st' =? 1) eqn:Hone; [|discriminate]. simpl in Hcl.
  injection Hcl as ->. rewrite Hst in Hst'. injection Hst' as ->.
  now rewrite Hone.
Qed.

Lemma sportec_only_alive_yields_alive_witness :
  Forall (fun f => ball_state f = Some ALIVE)
    (yields (Sportec._iter Concrete.default_cfg Concrete.dead_alive_alive)).
Proof.
  apply Forall_forall. intros f Hf.
  exact (sportec_only_alive_yields_alive Concrete.default_cfg
           Concrete.dead_alive_alive f eq_refl Hf).
Defined.

Lemma dict_set_value {K V} (eqb : K -> K -> bool) (d : list (K * V))
  (k0 : K) (v0 : V) (k : K) (v : V) :
  In (k, v) (dict_set eqb d k0 v0) -> In (k, v) d \/ v = v0.
Proof.
  induction d as [|[k1 v1] r IH]; simpl.
  - intros [Heq | []]. injection Heq as _ <-. now right.
  - destruct (eqb k1 k0).
    + intros [Heq | Hin]; [injection Heq as _ <-; now right | left; now right].
    + intros [Heq | Hin]; [left; now left|].
      destruct (IH Hin) as [Hd | ->]; [left; now right | now right].
Qed.

Lemma player_map_values (ps : list Player) :
  forall (acc : list (string * Player)) (pid : string) (p : Player),
    In (pid, p) (fold_left (fun m q => dict_set String.eqb m (player_id q) q)
                   ps acc) ->
    In (pid, p) acc \/ In p ps.
Proof.
  induction ps as [|q rest IH]; intros acc pid p Hin; [now left|].
  cbn [fold_left] in Hin. destruct (IH _ _ _ Hin) as [Hacc | Hrest].
  - destruct (dict_set_value _ _ _ _ _ _ Hacc) as [Hd | ->];
      [now left | right; now left].
  - right. now right.
Qed.

Lemma players_data_of_on_roster (known : Player -> Prop)
  (player_map : list (string * Player)) (entries : Sportec.FrameData) :
  (forall pid p, dict_get String.eqb player_map pid = Some p -> known p) ->
  forall acc pd,
    Sportec.players_data_of player_map entries acc = inr pd ->
    (forall p, In p (map fst acc) -> known p) ->
    forall p, In p (map fst pd) -> known p.
Proof.
  intros Hmap. induction entries as [|[pid raw] rest IH]; intros acc pd Hpd Hacc.
  - injection Hpd as <-. exact Hacc.
  - cbn [Sportec.players_data_of] in Hpd.
    destruct (String.eqb pid "ball"); [exact (IH _ _ Hpd Hacc)|].
    destruct (dict_get String.eqb player_map pid) as [q|] eqn:Hq; [|discriminate].
    simpl in Hpd. apply (IH _ _ Hpd). intros p Hp.
    apply in_map_iff in Hp. destruct Hp as [[p' v] [<- Hin]].
    destruct (dict_set_entry _ _ _ _ _ _ Hin) as [[v' Hold] | ->].
    + apply Hacc. apply in_map_iff. now exists (p', v').
    + exact (Hmap _ _ Hq).
Qed.

(** X22. The markup reader never creates a player: every player of the
    [players_data] of every frame its generator yields is on the home or
    the away roster of the match information; a track of a person on
    neither roster makes the frame fail instead. *)
Theorem sportec_players_are_on_roster (c : Config)
  (inputs : Sportec.SportecTrackingDataInputs) (f : Frame) (p : Player) :
  In f (yields (Sportec._iter c inputs)) ->
  In p (map fst (players_data f)) ->
  on_rosters (Sportec.meta_teams inputs) p.
Proof.
  intros Hin Hp.
  destruct (iter_origin c inputs f Hin) as (q & fid & fd & bd & _ & _ & Hmk).
  destruct (make_frame_fields _ _ _ _ _ _ _ _ Hmk)
    as (st & pd & _ & Hpd & _ & Hplayers & _).
  rewrite Hplayers in Hp.
  assert (Hmap : forall pid p',
             dict_get String.eqb
               (Sportec.player_map_of (Sportec.meta_teams inputs)) pid = Some p' ->
             on_rosters (Sportec.meta_teams inputs) p').
  { intros pid p' Hget. apply (dict_get_key _ String.eqb_eq) in Hget.
    unfold Sportec.player_map_of in Hget.
    destruct (player_map_values _ _ _ _ Hget) as [[] | Hon].
    apply in_app_or in Hon. exact Hon. }
  apply (players_data_of_on_roster _ _ _ Hmap [] pd Hpd); [intros ? [] | exact Hp].
Qed.

Lemma sportec_players_are_on_roster_witness :
  Forall (fun f =>
            Forall (on_rosters (Sportec.meta_teams Concrete.three_alive_ticks))
              (map fst (players_data f)))
    (yields (Sportec._iter Concrete.default_cfg Concrete.three_alive_ticks)).
Proof.
  apply Forall_forall. intros f Hf. apply Forall_forall. intros p Hp.
  exact (sportec_players_are_on_roster Concrete.default_cfg
           Concrete.three_alive_ticks f p Hf Hp).
Defined.

Lemma known_section_ok (p : Period) :
  known_section p = true ->
  exists game_section,
    Sportec.PERIOD_ID_TO_GAME_SECTION (id p) = inr game_section.
Proof.
  unfold known_section, Sportec.PERIOD_ID_TO_GAME_SECTION. intros Hk.
  apply andb_true_iff in Hk. destruct Hk as [Hlo Hhi].
  apply Z.leb_le in Hlo. apply Z.leb_le in Hhi.
  destruct (Z.eqb_spec (id p) 1); [now eexists|].
  destruct (Z.eqb_spec (id p) 2); [now eexists|].
  destruct (Z.eqb_spec (id p) 3); [now eexists|].
  destruct (Z.eqb_spec (id p) 4); [now eexists | lia].
Qed.

Lemma periods_loop_no_frame_set (c : Config) (sample : Q) (teams_ : Team * Team)
  (fps : Q) (player_map : list (string * Player)) (ps : list Period) :
  forallb known_section ps = true ->
  Sportec.periods_loop c sample teams_ fps player_map [] ps
  = {| yields := []; raised := None |}.
Proof.
  induction ps as [|p rest IH]; intros Hk; [reflexivity|].
  cbn [forallb] in Hk. apply andb_true_iff in Hk. destruct Hk as [Hp Hrest].
  cbn [Sportec.periods_loop]. unfold Sportec._read_section_data.
  destruct (known_section_ok p Hp) as [sec ->]. simpl. now rewrite (IH Hrest).
Qed.

Section SportecEmpty.
Context `{Collaborators}.

(** X23. On a positions file without any frame set, for a usable sample
    rate and a non-empty list of periods with ids in 1..4, the markup
    reader returns a dataset whose orientation is [FIXED_AWAY_HOME]: no
    period gets an attacking direction, and only [HOME_AWAY] on the first
    period selects the other orientation. *)
Theorem sportec_empty_positions_file (c : Config)
  (inputs : Sportec.SportecTrackingDataInputs) (sample : Q)
  (p : Period) (ps : list Period) :
  sample_of c = inr sample ->
  Sportec.raw_data inputs = [] ->
  Sportec.meta_periods inputs = p :: ps ->
  forallb known_section (p :: ps) = true ->
  Sportec.deserialize c inputs
  = inr {| records := [];
           metadata := {| teams := Sportec.meta_teams inputs;
                          periods := p :: ps;
                          frame_rate := Sportec.meta_fps inputs;
                          orientation := FIXED_AWAY_HOME |} |}.
Proof.
  intros Hs Hraw Hps Hk.
  unfold Sportec.deserialize, Sportec.buffered_frames, Sportec._iter.
  rewrite Hs, Hraw, Hps, (periods_loop_no_frame_set _ _ _ _ _ _ Hk).
  reflexivity.
Qed.

End SportecEmpty.

Lemma sportec_empty_positions_file_witness :
  Sportec.deserialize (H := Concrete.collaborators) Concrete.default_cfg
    Concrete.empty_positions
  = inr {| records := [];
           metadata := {| teams := (Concrete.home_team, Concrete.away_team);
                          periods := [Concrete.first_half; Concrete.second_half];
                          frame_rate := 25;
                          orientation := FIXED_AWAY_HOME |} |}.
Proof.
  exact (sportec_empty_positions_file (H := Concrete.collaborators)
           Concrete.default_cfg Concrete.empty_positions 1
           Concrete.first_half [Concrete.second_half]
           eq_refl eq_refl eq_refl eq_refl).
Defined.

(** ** The event reader *)

Lemma generic_qualifiers_shape (raw_event : Wyscout.JSON)
  (qs : list Wyscout.Qualifier) :
  Wyscout._generic_qualifiers raw_event = inr qs ->
  exists counter, qs = [Wyscout.CounterAttackQualifier counter].
Proof.
  unfold Wyscout._generic_qualifiers. intros Hq.
  destruct (Wyscout.getitem raw_event "possession") as [e|possession];
    [discriminate|]. cbn [Wyscout.and_then] in Hq.
  destruct (Wyscout.truthy possession).
  - destruct (Wyscout.getitem possession "types") as [e|types]; [discriminate|].
    cbn [Wyscout.and_then] in Hq.
    destruct (Wyscout.contains "counterattack" types) as [e|counter];
      [discriminate|]. cbn [Wyscout.and_then] in Hq.
    injection Hq as <-. now exists counter.
  - injection Hq as <-. now exists false.
Qed.

Lemma dict_get_set_same (d : list (string * Wyscout.Value)) (k : string)
  (v : Wyscout.Value) :
  dict_get String.eqb (dict_set String.eqb d k v) k = Some v.
Proof. now rewrite (dict_get_set _ String.eqb_eq), String.eqb_refl. Qed.

Section SetPieces.
Context `{Wyscout.Services}.

(** X24. The qualifiers of a set piece are those [_parse_set_piece] makes
    itself: the counter-attack flag, the set-piece type and the hand pass
    of a throw-in.  The qualifiers its inner parser computed (the body
    part of a shot; cross, head pass or smart pass of a pass) are
    overwritten and never reach the event. *)
Theorem set_piece_overwrites_qualifiers
  (raw_event next_event : Wyscout.JSON) (team : Wyscout.Team)
  (kw : Wyscout.Kwargs) :
  Wyscout._parse_set_piece raw_event next_event team = inr kw ->
  exists qs,
    dict_get String.eqb kw "qualifiers" = Some (Wyscout.VQualifiers qs)
    /\ forallb set_piece_qualifier qs = true.
Proof.
  unfold Wyscout._parse_set_piece. intros Hsp.
  destruct (Wyscout._generic_qualifiers raw_event) as [e|generic] eqn:Hg;
    [discriminate|]. cbn [Wyscout.and_then] in Hsp.
  destruct (generic_qualifiers_shape _ _ Hg) as [counter ->].
  match type of Hsp with
  | Wyscout.and_then ?c _ = _ => destruct c as [e|[qs result]] eqn:Hc
  end; [discriminate|]. cbn [Wyscout.and_then] in Hsp.
  injection Hsp as <-. exists qs. split; [apply dict_get_set_same|].
  repeat match type of Hc with
         | Wyscout.and_then ?c _ = _ =>
             destruct c as [?|[]]; cbn [Wyscout.and_then] in Hc;
             [discriminate| |]
         | Wyscout.and_then ?c _ = _ =>
             destruct c as [?|?]; cbn [Wyscout.and_then] in Hc;
             [discriminate|]
         | Wyscout.done _ = _ => injection Hc as <- _; reflexivity
         end.
Qed.

End SetPieces.

Ltac outcome_step H :=
  match type of H with
  | Wyscout.and_then ?c _ = inr _ =>
      let E := fresh "E" in
      destruct c eqn:E; cbn [Wyscout.and_then] in H; [discriminate H|]
  | match ?p with (_, _) => _ end = inr _ => destruct p
  end.

Lemma eq_str_true (j : Wyscout.JSON) (s : string) :
  Wyscout.eq_str j s = true -> j = Wyscout.JString s.
Proof.
  destruct j; try discriminate. simpl. intros Heq.
  apply String.eqb_eq in Heq. now subst.
Qed.

Section Passes.
Context `{Wyscout.Services}.

(** X25. [_parse_pass] gives the result [OUT] only when the next event is
    a game interruption whose secondary type is the text [ball_out]
    itself: the test is an equality with a [str], so for a next event
    whose secondary types are a list, as the membership tests of this
    reader take them, a pass is never [OUT]. *)
Theorem pass_out_needs_text_secondary
  (raw_event next_event : Wyscout.JSON) (team : Wyscout.Team)
  (kw : Wyscout.Kwargs) :
  Wyscout._parse_pass raw_event next_event team = inr kw ->
  dict_get String.eqb kw "result"
  = Some (Wyscout.VPassResult Wyscout.PassResult.OUT) ->
  exists next_type,
    Wyscout.getitem next_event "type" = inr next_type
    /\ Wyscout.getitem next_type "primary"
       = inr (Wyscout.JString "game_interruption")
    /\ Wyscout.getitem next_type "secondary"
       = inr (Wyscout.JString "ball_out").
Proof.
  unfold Wyscout._parse_pass. intros Hp Hres.
  outcome_step Hp. outcome_step Hp.
  match type of Hp with
  | Wyscout.and_then ?c _ = _ =>
      destruct c as [e|[first receiver]] eqn:Hfirst
  end; [discriminate|]. cbn [Wyscout.and_then] in Hp.
  assert (Hnot : first <> Some Wyscout.PassResult.OUT).
  { destruct (Wyscout.is_True j0).
    - destruct (Wyscout.getitem j "recipient") as [e|r]; [discriminate|].
      cbn [Wyscout.and_then] in Hfirst.
      destruct (Wyscout.getitem r "id"); [discriminate|].
      cbn [Wyscout.and_then] in Hfirst. injection Hfirst as <- _. discriminate.
    - destruct (Wyscout.is_False j0); injection Hfirst as <- _; discriminate. }
  match type of Hp with
  | Wyscout.and_then ?c _ = _ => destruct c as [e|final] eqn:Hnext
  end; [discriminate|]. cbn [Wyscout.and_then] in Hp.
  repeat outcome_step Hp. injection Hp as <-.
  cbn in Hres.
  assert (Hfinal : final = Some Wyscout.PassResult.OUT).
  { destruct final as [[]|]; cbn in Hres; try discriminate. reflexivity. }
  subst final.
  destruct (Wyscout.truthy next_event).
  - destruct (Wyscout.getitem next_event "type") as [e|next_type] eqn:Ht;
      [discriminate|]. cbn [Wyscout.and_then] in Hnext.
    destruct (Wyscout.getitem next_type "primary") as [e|next_primary] eqn:Hpr;
      [discriminate|]. cbn [Wyscout.and_then] in Hnext. cbv zeta in Hnext.
    destruct (Wyscout.eq_str next_primary "game_interruption") eqn:Hgi.
    + apply eq_str_true in Hgi. subst next_primary.
      destruct (Wyscout.getitem next_type "secondary") as [e|next_secondary]
        eqn:Hsec; [discriminate|]. cbn [Wyscout.and_then] in Hnext.
      destruct (Wyscout.eq_str next_secondary "ball_out") eqn:Hbo.
      * apply eq_str_true in Hbo. subst next_secondary.
        exists next_type. now repeat split.
      * simpl in Hnext. injection Hnext as Hnext. now destruct Hnot.
    + destruct (Wyscout.eq_str next_primary "offside");
        injection Hnext as Hnext; [discriminate | now destruct Hnot].
  - injection Hnext as Hnext. now destruct Hnot.
Qed.

End Passes.

(** *** Keyword arguments of the factory calls *)

Lemma dict_set_keys_text {V} (d : list (string * V)) (k : string) (v : V) :
  map fst (dict_set String.eqb d k v)
  = if existsb (String.eqb k) (map fst d) then map fst d
    else (map fst d ++ [k])%list.
Proof.
  induction d as [|[k0 v0] r IH]; simpl; [reflexivity|].
  rewrite (String.eqb_sym k k0).
  destruct (String.eqb k0 k); simpl; [reflexivity|].
  rewrite IH. destruct (existsb (String.eqb k) (map fst r)); reflexivity.
Qed.

Lemma parse_shot_keys (raw_event : Wyscout.JSON) (kw : Wyscout.Kwargs) :
  Wyscout._parse_shot raw_event = inr kw ->
  map fst kw = specific_keys Wyscout.build_shot.
Proof.
  unfold Wyscout._parse_shot. intros Hs.
  repeat outcome_step Hs. injection Hs as <-. reflexivity.
Qed.

Lemma parse_takeon_keys (raw_event : Wyscout.JSON) (kw : Wyscout.Kwargs) :
  Wyscout._parse_takeon raw_event = inr kw ->
  map fst kw = specific_keys Wyscout.build_take_on.
Proof.
  unfold Wyscout._parse_takeon. intros Hs.
  repeat outcome_step Hs. injection Hs as <-. reflexivity.
Qed.

Lemma parse_clearance_keys (raw_event : Wyscout.JSON) (kw : Wyscout.Kwargs) :
  Wyscout._parse_clearance raw_event = inr kw ->
  map fst kw = specific_keys Wyscout.build_clearance.
Proof.
  unfold Wyscout._parse_clearance. intros Hs.
  repeat outcome_step Hs. injection Hs as <-. reflexivity.
Qed.

Lemma call_kwargs (b : Wyscout.Builder) (specific generic : Wyscout.Kwargs)
  (e : Wyscout.Event) :
  Wyscout.call b specific generic = inr e ->
  Wyscout.builder e = b /\ Wyscout.kwargs e = (specific ++ generic)%list.
Proof.
  unfold Wyscout.call.
  destruct (existsb _ generic); [discriminate|].
  intros He. injection He as <-. now split.
Qed.

Section Keywords.
Context `{Wyscout.Services}.

Lemma parse_pass_keys (raw_event next_event : Wyscout.JSON)
  (team : Wyscout.Team) (kw : Wyscout.Kwargs) :
  Wyscout._parse_pass raw_event next_event team = inr kw ->
  map fst kw = specific_keys Wyscout.build_pass.
Proof.
  unfold Wyscout._parse_pass. intros Hs.
  repeat outcome_step Hs. injection Hs as <-. reflexivity.
Qed.

Lemma overwritten_pass_keys (raw_event next_event : Wyscout.JSON)
  (team : Wyscout.Team) (r : Wyscout.Kwargs) (v : Wyscout.Value) :
  Wyscout._parse_pass raw_event next_event team = inr r ->
  map fst (dict_set String.eqb r "qualifiers" v)
  = specific_keys Wyscout.build_pass.
Proof.
  intros Hr. rewrite dict_set_keys_text, (parse_pass_keys _ _ _ _ Hr).
  reflexivity.
Qed.

Lemma overwritten_shot_keys (raw_event : Wyscout.JSON) (r : Wyscout.Kwargs)
  (v : Wyscout.Value) :
  Wyscout._parse_shot raw_event = inr r ->
  map fst (dict_set String.eqb r "qualifiers" v)
  = specific_keys Wyscout.build_shot.
Proof.
  intros Hr. rewrite dict_set_keys_text, (parse_shot_keys _ _ Hr).
  reflexivity.
Qed.

(** What [_parse_set_piece] returns once the type of the event is
    read. *)
Lemma parse_set_piece_typed (raw_event next_event : Wyscout.JSON)
  (team : Wyscout.Team) (type_ primary secondary : Wyscout.JSON)
  (kw : Wyscout.Kwargs) :
  Wyscout.getitem raw_event "type" = inr type_ ->
  Wyscout.getitem type_ "primary" = inr primary ->
  Wyscout.getitem type_ "secondary" = inr secondary ->
  Wyscout._parse_set_piece raw_event next_event team = inr kw ->
  forall is_pass is_shot,
    Wyscout.or_else
      (Wyscout.done (Wyscout.eq_str primary "throw_in"
                     || Wyscout.eq_str primary "goal_kick"))
      (Wyscout.or_else
         (Wyscout.and_also (Wyscout.done (Wyscout.eq_str primary "free_kick"))
            (Wyscout.negated (Wyscout.contains "free_kick_shot" secondary)))
         (Wyscout.and_also (Wyscout.done (Wyscout.eq_str primary "corner"))
            (Wyscout.negated (Wyscout.contains "shot" secondary))))
    = inr is_pass ->
    (is_pass = false ->
     Wyscout.or_else (Wyscout.done (Wyscout.eq_str primary "penalty"))
       (Wyscout.or_else
          (Wyscout.and_also (Wyscout.done (Wyscout.eq_str primary "free_kick"))
             (Wyscout.contains "free_kick_shot" secondary))
          (Wyscout.and_also (Wyscout.done (Wyscout.eq_str primary "corner"))
             (Wyscout.contains "shot" secondary)))
     = inr is_shot) ->
    (is_pass = true -> map fst kw = specific_keys Wyscout.build_pass)
    /\ (is_pass = false -> is_shot = true ->
        map fst kw = specific_keys Wyscout.build_shot).
Proof.
  intros Ht Hp Hs Hsp is_pass is_shot Hpass Hshot.
  unfold Wyscout._parse_set_piece in Hsp.
  destruct (Wyscout._generic_qualifiers raw_event) as [e|generic];
    [discriminate|]. cbn [Wyscout.and_then] in Hsp.
  unfold Wyscout.primary_is, Wyscout.secondary_has in Hsp.
  rewrite Ht in Hsp. cbn [Wyscout.and_then] in Hsp.
  rewrite Hp, Hs in Hsp. cbn [Wyscout.and_then] in Hsp.
  assert (Hkinds :
            (exists s, primary = Wyscout.JString s)
            \/ (forall s, Wyscout.eq_str primary s = false)).
  { destruct primary; try (right; intros; reflexivity). left. now eexists. }
  destruct Hkinds as [[s ->] | Hother].
  - cbn [Wyscout.eq_str] in *.
    destruct (String.eqb_spec s "goal_kick") as [-> | Hgk].
    { cbn in Hpass. injection Hpass as <-. cbn in Hsp.
      destruct (Wyscout._parse_pass raw_event next_event team) as [e|r] eqn:Hr;
        [discriminate|]. cbn in Hsp. injection Hsp as <-.
      split; [intros _ | discriminate].
      exact (overwritten_pass_keys _ _ _ _ _ Hr). }
    destruct (String.eqb_spec s "throw_in") as [-> | Hti].
    { cbn in Hpass. injection Hpass as <-. cbn in Hsp.
      destruct (Wyscout._parse_pass raw_event next_event team) as [e|r] eqn:Hr;
        [discriminate|]. cbn in Hsp. injection Hsp as <-.
      split; [intros _ | discriminate].
      exact (overwritten_pass_keys _ _ _ _ _ Hr). }
    destruct (String.eqb_spec s "free_kick") as [-> | Hfk].
    { cbn in Hpass, Hshot, Hsp.
      destruct (Wyscout.contains "free_kick_shot" secondary) as [e|[]];
        [discriminate| |].
      - cbn in Hpass, Hsp. injection Hpass as <-.
        specialize (Hshot eq_refl). cbn in Hshot. injection Hshot as <-.
        destruct (Wyscout._parse_shot raw_event) as [e|r] eqn:Hr;
          [discriminate|]. cbn in Hsp. injection Hsp as <-.
        split; [discriminate | intros _ _].
        exact (overwritten_shot_keys _ _ _ Hr).
      - cbn in Hpass, Hsp. injection Hpass as <-.
        destruct (Wyscout._parse_pass raw_event next_event team) as [e|r] eqn:Hr;
          [discriminate|]. cbn in Hsp. injection Hsp as <-.
        split; [intros _ | discriminate].
        exact (overwritten_pass_keys _ _ _ _ _ Hr). }
    destruct (String.eqb_spec s "corner") as [-> | Hco].
    { cbn in Hpass, Hshot, Hsp.
      destruct (Wyscout.contains "shot" secondary) as [e|[]];
        [discriminate| |].
      - cbn in Hpass, Hsp. injection Hpass as <-.
        specialize (Hshot eq_refl). cbn in Hshot. injection Hshot as <-.
        destruct (Wyscout._parse_shot raw_event) as [e|r] eqn:Hr;
          [discriminate|]. cbn in Hsp. injection Hsp as <-.
        split; [discriminate | intros _ _].
        exact (overwritten_shot_keys _ _ _ Hr).
      - cbn in Hpass, Hsp. injection Hpass as <-.
        destruct (Wyscout._parse_pass raw_event next_event team) as [e|r] eqn:Hr;
          [discriminate|]. cbn in Hsp. injection Hsp as <-.
        split; [intros _ | discriminate].
        exact (overwritten_pass_keys _ _ _ _ _ Hr). }
    cbn in Hpass. injection Hpass as <-. specialize (Hshot eq_refl).
    split; [discriminate | intros _ ->].
    destruct (String.eqb_spec s "penalty") as [-> | Hpe].
    { cbn in Hsp.
      destruct (Wyscout._parse_shot raw_event) as [e|r] eqn:Hr;
        [discriminate|]. cbn in Hsp. injection Hsp as <-.
      exact (overwritten_shot_keys _ _ _ Hr). }
    cbn in Hshot. discriminate.
  - repeat rewrite Hother in Hpass. cbn in Hpass. injection Hpass as <-.
    specialize (Hshot eq_refl). repeat rewrite Hother in Hshot.
    cbn in Hshot. injection Hshot as <-. split; discriminate.
Qed.

(** X26. Every factory call the event loop makes passes the keywords of
    the method it calls, followed by the nine generic ones: in particular
    a set piece sent to [build_pass] carries the keywords of a pass and a
    set piece sent to [build_shot] those of a shot, because the tests of
    the loop and those inside [_parse_set_piece] select the same
    branch. *)
Theorem event_keywords_match_builder (events : Wyscout.JSON)
  (teams_ : list (string * Wyscout.Team))
  (players_ : list (string * list (string * Wyscout.Player)))
  (idx : nat) (raw_event : Wyscout.JSON) (periods_ periods' : list Period)
  (e : Wyscout.Event) :
  Wyscout.build_event events teams_ players_ idx raw_event periods_
  = inr (periods', e) ->
  map fst (Wyscout.kwargs e)
  = (specific_keys (Wyscout.builder e) ++ generic_keys)%list.
Proof.
  unfold Wyscout.build_event. intros Hb.
  repeat match type of Hb with
         | Wyscout.and_then ?c _ = _ =>
             lazymatch c with
             | context [Wyscout.call] => fail
             | _ => outcome_step Hb; cbv zeta in Hb
             end
         end.
  match type of Hb with
  | Wyscout.and_then ?c _ = _ => destruct c as [err|event] eqn:Hev
  end; [discriminate|]. cbn [Wyscout.and_then] in Hb.
  injection Hb as _ <-.
  match type of Hev with
  | context [Wyscout.call _ _ ?g] => remember g as generic eqn:Hgen
  end.
  assert (Hgk : map fst generic = generic_keys) by (subst generic; reflexivity).
  clear Hgen.
  match goal with
  | Ht : Wyscout.getitem raw_event "type" = inr ?type_,
    Hp : Wyscout.getitem ?type_ "primary" = inr ?primary,
    Hs : Wyscout.getitem ?type_ "secondary" = inr ?secondary |- _ =>
      rename Ht into Htype; rename Hp into Hprimary; rename Hs into Hsecondary;
      destruct (Wyscout.eq_str primary "shot");
      [|destruct (Wyscout.eq_str primary "pass");
        [|destruct (Wyscout.eq_str primary "duel");
          [|destruct (Wyscout.eq_str primary "clearance")]]]
  end.
  - outcome_step Hev. apply call_kwargs in Hev. destruct Hev as [-> ->].
    rewrite map_app, Hgk. f_equal. eapply parse_shot_keys; eassumption.
  - outcome_step Hev. apply call_kwargs in Hev. destruct Hev as [-> ->].
    rewrite map_app, Hgk. f_equal. eapply parse_pass_keys; eassumption.
  - outcome_step Hev. apply call_kwargs in Hev. destruct Hev as [-> ->].
    rewrite map_app, Hgk. f_equal. eapply parse_takeon_keys; eassumption.
  - outcome_step Hev. apply call_kwargs in Hev. destruct Hev as [-> ->].
    rewrite map_app, Hgk. f_equal. eapply parse_clearance_keys; eassumption.
  - match type of Hev with
    | Wyscout.and_then ?c _ = _ => destruct c as [err|is_pass] eqn:Hpass
    end; [discriminate|]. cbn [Wyscout.and_then] in Hev.
    destruct is_pass.
    { match type of Hev with
      | Wyscout.and_then ?c _ = _ => destruct c as [err|kw] eqn:Hsp
      end; [discriminate|]. cbn [Wyscout.and_then] in Hev.
      apply call_kwargs in Hev. destruct Hev as [-> ->].
      rewrite map_app, Hgk. f_equal.
      eapply (parse_set_piece_typed _ _ _ _ _ _ _ Htype Hprimary Hsecondary Hsp
                true true Hpass); [discriminate | reflexivity]. }
    match type of Hev with
    | Wyscout.and_then ?c _ = _ => destruct c as [err|is_shot] eqn:Hshot
    end; [discriminate|]. cbn [Wyscout.and_then] in Hev.
    destruct is_shot.
    { match type of Hev with
      | Wyscout.and_then ?c _ = _ => destruct c as [err|kw] eqn:Hsp
      end; [discriminate|]. cbn [Wyscout.and_then] in Hev.
      apply call_kwargs in Hev. destruct Hev as [-> ->].
      rewrite map_app, Hgk. f_equal.
      eapply (parse_set_piece_typed _ _ _ _ _ _ _ Htype Hprimary Hsecondary Hsp
                false true Hpass);
        [intros _; exact Hshot | reflexivity | reflexivity]. }
    repeat outcome_step Hev.
    apply call_kwargs in Hev. destruct Hev as [-> ->].
    rewrite map_app, Hgk. reflexivity.
Qed.

End Keywords.

(** *** Periods and teams of the event dataset *)

Lemma last_period_snoc (ps : list Period) (p : Period) :
  Wyscout.last_period (ps ++ [p]) = Some p.
Proof. unfold Wyscout.last_period. now rewrite rev_unit. Qed.

Lemma last_period_none (ps : list Period) :
  Wyscout.last_period ps = None -> ps = [].
Proof.
  unfold Wyscout.last_period. destruct (rev ps) as [|p r] eqn:Hrev;
    [|discriminate]. intros _.
  apply (f_equal (@rev Period)) in Hrev. now rewrite rev_involutive in Hrev.
Qed.

Lemma note_period_ids (ps : list Period) (i : Z) :
  map id (Wyscout.note_period ps i)
  = (map id ps
     ++ collapse_after (option_map id (Wyscout.last_period ps)) [i])%list
  /\ option_map id (Wyscout.last_period (Wyscout.note_period ps i)) = Some i.
Proof.
  unfold Wyscout.note_period.
  destruct (Wyscout.last_period ps) as [p|] eqn:Hlast; simpl.
  - destruct (id p =? i) eqn:Hid; simpl.
    + rewrite app_nil_r, Hlast. simpl. apply Z.eqb_eq in Hid. now subst.
    + now rewrite map_app, last_period_snoc.
  - apply last_period_none in Hlast. now subst.
Qed.

Lemma collapse_after_cons (prev : option Z) (i : Z) (rest : list Z) :
  collapse_after prev (i :: rest)
  = (collapse_after prev [i] ++ collapse_after (Some i) rest)%list.
Proof. simpl. destruct prev as [p|]; [destruct (p =? i)|]; reflexivity. Qed.

Lemma fold_note_period_ids (ids : list Z) :
  forall ps,
    map id (fold_left Wyscout.note_period ids ps)
    = (map id ps
       ++ collapse_after (option_map id (Wyscout.last_period ps)) ids)%list.
Proof.
  induction ids as [|i rest IH]; intros ps; cbn [fold_left].
  - simpl. now rewrite app_nil_r.
  - destruct (note_period_ids ps i) as [Hids Hlast].
    rewrite IH, Hids, Hlast, <- app_assoc. f_equal.
    symmetry. apply collapse_after_cons.
Qed.

Lemma add_id_keeps_period (event event' : Wyscout.JSON) :
  Wyscout.add_id event = inr event' ->
  Wyscout.period_id_of event' = Wyscout.period_id_of event.
Proof.
  unfold Wyscout.add_id. intros Hadd. outcome_step Hadd.
  destruct (negb b); [|now injection Hadd as <-].
  repeat outcome_step Hadd.
  destruct event; try discriminate. simpl in Hadd. injection Hadd as <-.
  unfold Wyscout.period_id_of, Wyscout.getitem.
  now rewrite (dict_get_set _ String.eqb_eq).
Qed.

Lemma traverse_add_id_keeps_periods (items : list Wyscout.JSON) :
  forall items',
    Wyscout.traverse Wyscout.add_id items = inr items' ->
    Wyscout.traverse Wyscout.period_id_of items'
    = Wyscout.traverse Wyscout.period_id_of items.
Proof.
  induction items as [|ev rest IH]; intros items' Ht; cbn [Wyscout.traverse] in Ht.
  - now injection Ht as <-.
  - destruct (Wyscout.add_id ev) as [e|ev'] eqn:Hadd; [discriminate|].
    cbn [Wyscout.and_then] in Ht.
    destruct (Wyscout.traverse Wyscout.add_id rest) as [e|rest'] eqn:Hrest;
      [discriminate|]. cbn [Wyscout.and_then] in Ht. injection Ht as <-.
    cbn [Wyscout.traverse].
    now rewrite (add_id_keeps_period _ _ Hadd), (IH _ eq_refl).
Qed.

Lemma with_ids_items (events events' : Wyscout.JSON) (items' : list Wyscout.JSON) :
  Wyscout.with_ids events = inr events' ->
  Wyscout.py_iter events' = inr items' ->
  exists items,
    Wyscout.py_iter events = inr items
    /\ Wyscout.traverse Wyscout.period_id_of items'
       = Wyscout.traverse Wyscout.period_id_of items.
Proof.
  unfold Wyscout.with_ids. intros Hw Hiter.
  destruct (Wyscout.py_iter events) as [e|items] eqn:Hitems; [discriminate|].
  cbn [Wyscout.and_then] in Hw.
  destruct (Wyscout.traverse Wyscout.add_id items) as [e|added] eqn:Hadded;
    [discriminate|]. cbn [Wyscout.and_then] in Hw.
  exists items. split; [reflexivity|].
  destruct events; injection Hw as <-;
    try (rewrite Hitems in Hiter; now injection Hiter as <-).
  simpl in Hiter. injection Hiter as <-.
  exact (traverse_add_id_keeps_periods _ _ Hadded).
Qed.

Section EventDataset.
Context `{Wyscout.Services}.

Lemma build_event_periods (events : Wyscout.JSON)
  (teams_ : list (string * Wyscout.Team))
  (players_ : list (string * list (string * Wyscout.Player)))
  (idx : nat) (raw_event : Wyscout.JSON) (periods_ periods' : list Period)
  (e : Wyscout.Event) :
  Wyscout.build_event events teams_ players_ idx raw_event periods_
  = inr (periods', e) ->
  exists period_id,
    Wyscout.period_id_of raw_event = inr period_id
    /\ periods' = Wyscout.note_period periods_ period_id.
Proof.
  unfold Wyscout.build_event. intros Hb.
  repeat match type of Hb with
         | Wyscout.and_then ?c _ = _ =>
             lazymatch c with
             | Wyscout.period_id_of _ => fail
             | _ => outcome_step Hb; cbv zeta in Hb
             end
         end.
  destruct (Wyscout.period_id_of raw_event) as [err|period_id]; [discriminate|].
  cbn [Wyscout.and_then] in Hb. cbv zeta in Hb.
  repeat (outcome_step Hb; cbv zeta in Hb).
  injection Hb as <- _. now exists period_id.
Qed.

Lemma events_loop_periods (events : Wyscout.JSON)
  (teams_ : list (string * Wyscout.Team))
  (players_ : list (string * list (string * Wyscout.Player)))
  (items : list Wyscout.JSON) :
  forall idx periods_ events_ periods' events',
    Wyscout.events_loop events teams_ players_ items idx periods_ events_
    = inr (periods', events') ->
    exists ids,
      Wyscout.traverse Wyscout.period_id_of items = inr ids
      /\ periods' = fold_left Wyscout.note_period ids periods_.
Proof.
  induction items as [|raw_event rest IH];
    intros idx periods_ events_ periods' events' Hloop;
    cbn [Wyscout.events_loop] in Hloop.
  - injection Hloop as <- _. now exists [].
  - destruct (Wyscout.build_event events teams_ players_ idx raw_event periods_)
      as [err|[periods1 event]] eqn:Hb; [discriminate|].
    cbn [Wyscout.and_then] in Hloop. cbv zeta in Hloop.
    destruct (build_event_periods _ _ _ _ _ _ _ _ Hb) as (pid & Hpid & ->).
    destruct (IH _ _ _ _ _ Hloop) as (ids & Hids & ->).
    exists (pid :: ids). cbn [Wyscout.traverse]. rewrite Hpid, Hids.
    now split.
Qed.

(** X27. The period list of a dataset the event reader returns is the
    sequence of the period ids of the events ([matchPeriod] without its
    [H], as an integer) with adjacent repeats collapsed: a new period
    starts whenever the id differs from that of the event before, so a
    half that comes back after another one is listed again. *)
Theorem periods_follow_the_events (raw_events : Wyscout.JSON)
  (ds : Wyscout.EventDataset) :
  Wyscout.deserialize (Some raw_events) = inr ds ->
  exists ids,
    period_ids raw_events = inr ids
    /\ map id (Wyscout.periods (Wyscout.metadata ds)) = collapse ids.
Proof.
  unfold Wyscout.deserialize. intros Hd. cbn [Wyscout.found Wyscout.and_then
                                               Wyscout.done] in Hd.
  destruct (Wyscout.getitem raw_events "events") as [e|events] eqn:Hevents;
    [discriminate|]. cbn [Wyscout.and_then] in Hd.
  destruct (Wyscout.with_ids events) as [e|events'] eqn:Hwith; [discriminate|].
  cbn [Wyscout.and_then] in Hd.
  repeat match type of Hd with
         | Wyscout.and_then ?c _ = _ =>
             lazymatch c with
             | Wyscout.py_iter _ => fail
             | _ => outcome_step Hd; cbv zeta in Hd
             end
         | match ?p with (_, _) => _ end = _ => destruct p
         end.
  destruct (Wyscout.py_iter events') as [e|items'] eqn:Hiter; [discriminate|].
  cbn [Wyscout.and_then] in Hd.
  match type of Hd with
  | Wyscout.and_then ?c _ = _ => destruct c as [e|[periods_ events_]] eqn:Hloop
  end; [discriminate|]. cbn [Wyscout.and_then] in Hd. injection Hd as <-.
  destruct (events_loop_periods _ _ _ _ _ _ _ _ _ Hloop) as (ids & Hids & ->).
  destruct (with_ids_items _ _ _ Hwith Hiter) as (items & Hitems & Hsame).
  exists ids. split.
  - unfold period_ids. rewrite Hevents. cbn [Wyscout.and_then].
    rewrite Hitems. cbn [Wyscout.and_then]. now rewrite <- Hsame.
  - cbn. now rewrite fold_note_period_ids.
Qed.

(** X28. A dataset is returned only for a feed whose [teams] object has
    exactly two members; the first of them, in the order of the file,
    becomes the home team and the second the away team. *)
Theorem home_team_is_first_member (raw_events : Wyscout.JSON)
  (ds : Wyscout.EventDataset) :
  Wyscout.deserialize (Some raw_events) = inr ds ->
  exists home home_entry away away_entry,
    Wyscout.getitem raw_events "teams"
    = inr (Wyscout.JObject [(home, home_entry); (away, away_entry)])
    /\ Wyscout.team_id (fst (Wyscout.teams (Wyscout.metadata ds))) = home
    /\ Wyscout.ground (fst (Wyscout.teams (Wyscout.metadata ds))) = HOME
    /\ Wyscout.team_id (snd (Wyscout.teams (Wyscout.metadata ds))) = away
    /\ Wyscout.ground (snd (Wyscout.teams (Wyscout.metadata ds))) = AWAY.
Proof.
  unfold Wyscout.deserialize. intros Hd. cbn [Wyscout.found Wyscout.and_then
                                               Wyscout.done] in Hd.
  do 2 outcome_step Hd.
  destruct (Wyscout.getitem raw_events "teams") as [e|raw_teams] eqn:Hteams;
    [discriminate|]. cbn [Wyscout.and_then] in Hd.
  destruct raw_teams as [| | | | | |d]; try discriminate.
  cbn [Wyscout.and_then Wyscout.done] in Hd.
  destruct d as [|[home home_entry] [|[away away_entry] [|third d]]];
    try discriminate. cbn in Hd.
  destruct (Wyscout._parse_team raw_events home HOME) as [e|home_team] eqn:Hhome;
    [discriminate|]. cbn [Wyscout.and_then] in Hd.
  destruct (Wyscout._parse_team raw_events away AWAY) as [e|away_team] eqn:Haway;
    [discriminate|]. cbn [Wyscout.and_then] in Hd.
  repeat (outcome_step Hd; cbv zeta in Hd). injection Hd as <-.
  exists home, home_entry, away, away_entry. split; [reflexivity|].
  unfold Wyscout._parse_team in Hhome, Haway.
  repeat outcome_step Hhome. repeat outcome_step Haway.
  injection Hhome as <-. injection Haway as <-. cbn. now repeat split.
Qed.

End EventDataset.

(** *** The event reader on the small match *)

Lemma set_piece_overwrites_qualifiers_witness :
  exists qs,
    dict_get String.eqb
      (match Wyscout._parse_set_piece (H := Concrete.services)
               Concrete.free_kick_shot Wyscout.JNull Concrete.wy_home with
       | inr kw => kw
       | inl _ => []
       end) "qualifiers"
    = Some (Wyscout.VQualifiers qs)
    /\ forallb set_piece_qualifier qs = true.
Proof.
  destruct (Wyscout._parse_set_piece (H := Concrete.services)
              Concrete.free_kick_shot Wyscout.JNull Concrete.wy_home)
    as [e|kw] eqn:Hsp.
  - vm_compute in Hsp. discriminate.
  - exact (set_piece_overwrites_qualifiers (H := Concrete.services) _ _ _ _ Hsp).
Defined.

Lemma pass_out_needs_text_secondary_witness :
  exists next_type,
    Wyscout.getitem Concrete.ball_out_text "type" = inr next_type
    /\ Wyscout.getitem next_type "primary"
       = inr (Wyscout.JString "game_interruption")
    /\ Wyscout.getitem next_type "secondary"
       = inr (Wyscout.JString "ball_out").
Proof.
  destruct (Wyscout._parse_pass (H := Concrete.services) Concrete.corner_cross
              Concrete.ball_out_text Concrete.wy_home) as [e|kw] eqn:Hp.
  - vm_compute in Hp. discriminate.
  - apply (pass_out_needs_text_secondary (H := Concrete.services)
             Concrete.corner_cross Concrete.ball_out_text Concrete.wy_home kw Hp).
    vm_compute in Hp. injection Hp as <-. reflexivity.
Defined.

Lemma event_keywords_match_builder_witness :
  match Wyscout.build_event (H := Concrete.services)
          (Wyscout.JArray [Concrete.corner_with_id]) Concrete.wy_teams
          Concrete.wy_rosters 0 Concrete.corner_with_id [] with
  | inr (_, e) =>
      map fst (Wyscout.kwargs e)
      = (specific_keys (Wyscout.builder e) ++ generic_keys)%list
  | inl _ => False
  end.
Proof.
  destruct (Wyscout.build_event (H := Concrete.services)
              (Wyscout.JArray [Concrete.corner_with_id]) Concrete.wy_teams
              Concrete.wy_rosters 0 Concrete.corner_with_id [])
    as [err|[periods' e]] eqn:Hb.
  - vm_compute in Hb. discriminate.
  - exact (event_keywords_match_builder (H := Concrete.services)
             _ _ _ _ _ _ _ _ Hb).
Defined.

Lemma periods_follow_the_events_witness :
  match Wyscout.deserialize (H := Concrete.services)
          (Some Concrete.four_events) with
  | inr ds =>
      exists ids,
        period_ids Concrete.four_events = inr ids
        /\ map id (Wyscout.periods (Wyscout.metadata ds)) = collapse ids
  | inl _ => False
  end.
Proof.
  destruct (Wyscout.deserialize (H := Concrete.services)
              (Some Concrete.four_events)) as [err|ds] eqn:Hd.
  - vm_compute in Hd. discriminate.
  - exact (periods_follow_the_events (H := Concrete.services) _ _ Hd).
Defined.

Lemma home_team_is_first_member_witness :
  match Wyscout.deserialize (H := Concrete.services)
          (Some Concrete.four_events) with
  | inr ds =>
      exists home home_entry away away_entry,
        Wyscout.getitem Concrete.four_events "teams"
        = inr (Wyscout.JObject [(home, home_entry); (away, away_entry)])
        /\ Wyscout.team_id (fst (Wyscout.teams (Wyscout.metadata ds))) = home
        /\ Wyscout.ground (fst (Wyscout.teams (Wyscout.metadata ds))) = HOME
        /\ Wyscout.team_id (snd (Wyscout.teams (Wyscout.metadata ds))) = away
        /\ Wyscout.ground (snd (Wyscout.teams (Wyscout.metadata ds))) = AWAY
  | inl _ => False
  end.
Proof.
  destruct (Wyscout.deserialize (H := Concrete.services)
              (Some Concrete.four_events)) as [err|ds] eqn:Hd.
  - vm_compute in Hd. discriminate.
  - exact (home_team_is_first_member (H := Concrete.services) _ _ Hd).
Defined.
